(** * dev-phone: the resource lifecycle of the [dev-phone] command

    A shallow embedding of the two implementations of the command held in
    the repository.

    The first part embeds the [DevPhoneServer] command of
    [plugin-dev-phone/src/commands/dev-phone.js]: its provisioning
    sequence ([run]), the per-kind create/destroy methods, the token
    builder ([createJwt]), the phone-number validation
    ([validatePropsAndFlags]), the [SIGINT] handler and the express
    routes, together with a small model of the remote Twilio account the
    command talks to.  The module [Ts] embeds the TypeScript command
    [dev-phone.ts] in the same way.

    JavaScript values are modelled by [value]; the command object [this]
    by the record [server]; exceptions and mutable state by the monad [M]
    (a thrown exception keeps the state changes made before it); the
    remote account by the record [remote], which may fail any request. *)

From Stdlib Require Import String Ascii List Bool Arith NArith Lia DecimalString.
Import ListNotations.
Local Open Scope string_scope.
Local Open Scope list_scope.

(* ================================================================== *)
(** ** JavaScript values *)

Inductive value : Type :=
| VUndefined
| VNull
| VBool (b : bool)
| VStr (s : string).

(** Truthiness, as used by [if (x)], [!x], [x && y] and [filter(x => x)]. *)
Definition truthy (v : value) : bool :=
  match v with
  | VUndefined | VNull => false
  | VBool b => b
  | VStr s => negb (String.eqb s "")
  end.

(** String conversion, as done by a template literal [`${v}`]. *)
Definition to_string (v : value) : string :=
  match v with
  | VUndefined => "undefined"
  | VNull => "null"
  | VBool true => "true"
  | VBool false => "false"
  | VStr s => s
  end.

Definition value_eqb (a b : value) : bool :=
  match a, b with
  | VUndefined, VUndefined | VNull, VNull => true
  | VBool x, VBool y => Bool.eqb x y
  | VStr x, VStr y => String.eqb x y
  | _, _ => false
  end.

(** [Array.prototype.join] on an array of strings. *)
Fixpoint join (sep : string) (l : list string) : string :=
  match l with
  | [] => ""
  | [x] => x
  | x :: rest => x ++ sep ++ join sep rest
  end.

(** [s.startsWith(p)]. *)
Definition startsWith (s p : string) : bool := String.prefix p s.

Definition string_of_nat (n : nat) : string :=
  NilEmpty.string_of_uint (Nat.to_uint n).

(* ================================================================== *)
(** ** Errors *)

Inductive error : Type :=
| TwilioCliError (message : string)
| ReferenceError (message : string)
| TypeError (message : string)
| RangeError (message : string)
| SdkError (message : string)                 (* [Error] thrown by the twilio SDK *)
| RestException (status : nat) (message : string)
| Thrown (v : value).                         (* [throw v] of a value that is no [Error] *)

(** [e.message] of an [Error] object; a string or a boolean that was
    thrown has no such property.  ([null] and [undefined] have no
    properties at all: see [handler_catch].) *)
Definition error_message (e : error) : string :=
  match e with
  | TwilioCliError m | ReferenceError m | TypeError m | RangeError m | SdkError m => m
  | RestException _ m => m
  | Thrown _ => "undefined"
  end.

Inductive result (A : Type) : Type :=
| Ok (a : A)
| Throw (e : error).
Arguments Ok {A} a.
Arguments Throw {A} e.

Definition is_ok {A} (r : result A) : bool :=
  match r with Ok _ => true | Throw _ => false end.

(* ================================================================== *)
(** ** The remote account

    The Twilio SDK is an external collaborator.  Its resource instances
    are objects with a fixed set of camel-case properties; [prop] is the
    JavaScript property read [item.name], which yields [undefined] for a
    name the instance does not have (property names are case sensitive). *)

Inductive kind : Type := Conversations | SyncServices | Keys | Applications.

Record instance : Type := mkInstance {
  sid : string;
  friendlyName : value;
  voiceUrl : value;          (* applications only *)
  secret : value             (* new keys only *)
}.

Definition prop (item : instance) (name : string) : value :=
  if String.eqb name "sid" then VStr (sid item)
  else if String.eqb name "friendlyName" then friendlyName item
  else if String.eqb name "voiceUrl" then voiceUrl item
  else if String.eqb name "secret" then secret item
  else VUndefined.

Record phone : Type := mkPhone {
  phoneNumber : string;
  pn_friendlyName : value;
  smsUrl : value;
  pn_voiceUrl : value;
  pn_sid : string
}.

(** The remote calls.  The last one, the update of a phone number's
    webhooks, is offered by the SDK but issued nowhere in this command. *)
Inductive call : Type :=
| CallList (k : kind)
| CallCreate (k : kind) (name : value) (url : value)
| CallRemove (k : kind) (s : string)
| CallListPhoneNumbers (filter : option string)
| CallUpdatePhoneNumber (s : string) (sms : value) (voice : value).

(** The account as the command sees it.  The remote may fail any
    request: [faults n] says whether the [n]-th request made is answered
    with an error. *)
Record remote : Type := mkRemote {
  conversations : list instance;
  syncServices : list instance;
  keys : list instance;
  applications : list instance;
  incomingPhoneNumbers : list phone;
  counter : nat;             (* source of fresh sids *)
  calls : list call;         (* the requests served so far, most recent last *)
  attempts : nat;            (* the number of requests made so far *)
  faults : nat -> bool
}.

Definition resources (k : kind) (r : remote) : list instance :=
  match k with
  | Conversations => conversations r
  | SyncServices => syncServices r
  | Keys => keys r
  | Applications => applications r
  end.

Definition set_resources (k : kind) (l : list instance) (r : remote) : remote :=
  match k with
  | Conversations =>
      mkRemote l (syncServices r) (keys r) (applications r)
               (incomingPhoneNumbers r) (counter r) (calls r) (attempts r) (faults r)
  | SyncServices =>
      mkRemote (conversations r) l (keys r) (applications r)
               (incomingPhoneNumbers r) (counter r) (calls r) (attempts r) (faults r)
  | Keys =>
      mkRemote (conversations r) (syncServices r) l (applications r)
               (incomingPhoneNumbers r) (counter r) (calls r) (attempts r) (faults r)
  | Applications =>
      mkRemote (conversations r) (syncServices r) (keys r) l
               (incomingPhoneNumbers r) (counter r) (calls r) (attempts r) (faults r)
  end.

Definition record_call (c : call) (r : remote) : remote :=
  mkRemote (conversations r) (syncServices r) (keys r) (applications r)
           (incomingPhoneNumbers r) (counter r) (calls r ++ [c])
           (attempts r) (faults r).

Definition bump (r : remote) : remote :=
  mkRemote (conversations r) (syncServices r) (keys r) (applications r)
           (incomingPhoneNumbers r) (S (counter r)) (calls r)
           (attempts r) (faults r).

Definition attempt (r : remote) : remote :=
  mkRemote (conversations r) (syncServices r) (keys r) (applications r)
           (incomingPhoneNumbers r) (counter r) (calls r)
           (S (attempts r)) (faults r).

(** Whether the next request will be answered with an error. *)
Definition next_fails (r : remote) : bool := faults r (attempts r).

(** Twilio's sid prefixes per resource kind. *)
Definition sid_prefix (k : kind) : string :=
  match k with
  | Conversations => "CH"
  | SyncServices => "IS"
  | Keys => "SK"
  | Applications => "AP"
  end.

Definition fresh_sid (k : kind) (r : remote) : string :=
  sid_prefix k ++ string_of_nat (counter r).

Definition new_instance (k : kind) (name url : value) (r : remote) : instance :=
  mkInstance (fresh_sid k r) name
             (match k with Applications => url | _ => VUndefined end)
             (match k with
              | Keys => VStr ("secret" ++ string_of_nat (counter r))
              | _ => VUndefined
              end).

Definition has_sid (s : string) (i : instance) : bool := String.eqb (sid i) s.

(* ================================================================== *)
(** ** The command object *)

(** [reformatTwilioPns] keeps four properties of each phone number. *)
Record pn_view : Type := mkPnView {
  view_phoneNumber : string;
  view_friendlyName : value;
  view_smsUrl : value;
  view_voiceUrl : value
}.

Definition reformatTwilioPns (twilioResponse : list phone) : list pn_view :=
  map (fun p => mkPnView (phoneNumber p) (pn_friendlyName p) (smsUrl p) (pn_voiceUrl p))
      twilioResponse.

Record settings : Type := mkSettings {
  conversation : option instance;     (* [None]: the property is undefined *)
  sync : option instance;
  settings_phoneNumber : option pn_view
}.

Record profile : Type := mkProfile {
  apiKey : string;
  apiSecret : value
}.

Record apikey_t : Type := mkApikey {
  key_sid : value;
  key_secret : value
}.

(** The SDK's access token and its grants. *)
Inductive grant : Type :=
| ChatGrant (serviceSid : value)
| VoiceGrant (incomingAllow : value) (outgoingApplicationSid : value)
| SyncGrant (serviceSid : value).

Record AccessToken : Type := mkAccessToken {
  tok_accountSid : value;
  tok_keySid : value;
  tok_secret : value;
  tok_identity : value;
  tok_ttl : N;                        (* validity window, in seconds *)
  tok_grants : list grant
}.

Record server : Type := mkServer {
  cliSettings : settings;
  pns : list phone;
  jwt : option AccessToken;           (* [None]: null *)
  apikey : apikey_t;
  twimlApp : option instance;         (* [None]: the empty object [{}] *)
  devPhoneName : string;
  currentProfile : profile;
  configProfile : profile;            (* the profile of the CLI configuration *)
  accountSid : value                  (* [this.twilioClient.accountSid] *)
}.

(** [generateRandomPhoneName], given the characters drawn from
    [Math.random().toString().substr(2, 6)]. *)
Definition generateRandomPhoneName (rand : string) : string := "dev-phone-" ++ rand.

(** The command object as the constructor leaves it, for a profile and
    an account sid supplied by the CLI.  ([currentProfile] is assigned by
    [super.run()], see [super_run], before anything reads it.) *)
Definition constructor (rand : string) (p : profile) (account : value) : server :=
  mkServer (mkSettings None None None) [] None (mkApikey VUndefined VUndefined)
           None (generateRandomPhoneName rand) p p account.

Record world : Type := mkWorld {
  this : server;
  cloud : remote;
  console : list string
}.

(* ================================================================== *)
(** ** The state-and-exception monad *)

Definition M (A : Type) : Type := world -> result A * world.

Definition ret {A} (a : A) : M A := fun w => (Ok a, w).
Definition throw {A} (e : error) : M A := fun w => (Throw e, w).
Definition bind {A B} (m : M A) (k : A -> M B) : M B :=
  fun w => match m w with
           | (Ok a, w') => k a w'
           | (Throw e, w') => (Throw e, w')
           end.

Declare Scope js_scope.
Delimit Scope js_scope with js.
Notation "x <- m ;; k" := (bind m (fun x => k))
  (at level 61, m at next level, right associativity) : js_scope.
Notation "m ;; k" := (bind m (fun _ => k))
  (at level 61, right associativity) : js_scope.
Local Open Scope js_scope.

Definition get_this : M server := fun w => (Ok (this w), w).
Definition get_cloud : M remote := fun w => (Ok (cloud w), w).
Definition modify_this (f : server -> server) : M unit :=
  fun w => (Ok tt, mkWorld (f (this w)) (cloud w) (console w)).
Definition modify_cloud (f : remote -> remote) : M unit :=
  fun w => (Ok tt, mkWorld (this w) (f (cloud w)) (console w)).
Definition console_log (line : string) : M unit :=
  fun w => (Ok tt, mkWorld (this w) (cloud w) (console w ++ [line])).

(** [for (var item of items) { await body(item) }] *)
Fixpoint for_of {A} (items : list A) (body : A -> M unit) : M unit :=
  match items with
  | [] => ret tt
  | item :: rest => body item ;; for_of rest body
  end.

(** [items.filter(pred)] where the predicate may throw. *)
Fixpoint filterM {A} (pred : A -> result bool) (items : list A) : result (list A) :=
  match items with
  | [] => Ok []
  | item :: rest =>
      match pred item with
      | Throw e => Throw e
      | Ok b =>
          match filterM pred rest with
          | Throw e => Throw e
          | Ok kept => Ok (if b then item :: kept else kept)
          end
      end
  end.

Definition lift {A} (r : result A) : M A := fun w => (r, w).

(* ================================================================== *)
(** ** The SDK's client operations

    Every operation is one request.  A request the remote fails rejects
    with a [RestException] and changes nothing on the account; a served
    request is appended to [calls]. *)

Definition server_error : error := RestException 500 "Internal Server Error".

Definition request (c : call) : M unit :=
  r <- get_cloud ;;
  modify_cloud attempt ;;
  if next_fails r then throw server_error else modify_cloud (record_call c).

(** [this.twilioClient.<kind>.list()] *)
Definition client_list (k : kind) : M (list instance) :=
  request (CallList k) ;;
  r <- get_cloud ;;
  ret (resources k r).

(** [this.twilioClient.<kind>.create({ friendlyName, voiceUrl })] *)
Definition client_create (k : kind) (name url : value) : M instance :=
  request (CallCreate k name url) ;;
  r <- get_cloud ;;
  let item := new_instance k name url r in
  modify_cloud (fun r => bump (set_resources k (resources k r ++ [item]) r)) ;;
  ret item.

(** [this.twilioClient.<kind>(sid).remove()]; an unknown sid is answered
    with HTTP 404. *)
Definition client_remove (k : kind) (s : string) : M unit :=
  r <- get_cloud ;;
  if existsb (has_sid s) (resources k r)
  then request (CallRemove k s) ;;
       modify_cloud
         (fun r => set_resources k (filter (fun i => negb (has_sid s i)) (resources k r)) r)
  else modify_cloud attempt ;;
       throw (RestException 404 "The requested resource was not found").

(** [this.twilioClient.incomingPhoneNumbers.list({ phoneNumber })] *)
Definition client_list_phone_numbers (number : option string) : M (list phone) :=
  request (CallListPhoneNumbers number) ;;
  r <- get_cloud ;;
  ret (match number with
       | None => incomingPhoneNumbers r
       | Some n => filter (fun p => String.eqb (phoneNumber p) n)
                          (incomingPhoneNumbers r)
       end).

(** The SDK's [new AccessToken(accountSid, keySid, secret, options)]
    (twilio-node): the three positional arguments are required, and the
    validity window is [options.ttl || 3600]. *)
Definition AccessToken_default_ttl : N := 3600.

Record token_options : Type := mkTokenOptions {
  opt_identity : value;
  opt_ttl : option N                   (* [None]: the option is not passed *)
}.

Definition new_AccessToken (account keySid sec : value) (options : token_options)
  : result AccessToken :=
  if negb (truthy account) then Throw (SdkError "accountSid is required")
  else if negb (truthy keySid) then Throw (SdkError "keySid is required")
  else if negb (truthy sec) then Throw (SdkError "secret is required")
  else Ok (mkAccessToken account keySid sec (opt_identity options)
             (match opt_ttl options with
              | Some (Npos t) => Npos t
              | _ => AccessToken_default_ttl
              end)
             []).

(** [token.addGrant(g)] *)
Definition addGrant (g : grant) (t : AccessToken) : AccessToken :=
  mkAccessToken (tok_accountSid t) (tok_keySid t) (tok_secret t)
                (tok_identity t) (tok_ttl t) (tok_grants t ++ [g]).

(** [token.toJwt()]: the signed string is represented by the token whose
    claims it serialises. *)
Definition toJwt (t : AccessToken) : AccessToken := t.

(* ================================================================== *)
(** ** Field updates of the command object *)

Definition set_conversation (c : instance) (s : server) : server :=
  mkServer (mkSettings (Some c) (sync (cliSettings s))
                       (settings_phoneNumber (cliSettings s)))
           (pns s) (jwt s) (apikey s) (twimlApp s) (devPhoneName s)
           (currentProfile s) (configProfile s) (accountSid s).

Definition set_sync (c : instance) (s : server) : server :=
  mkServer (mkSettings (conversation (cliSettings s)) (Some c)
                       (settings_phoneNumber (cliSettings s)))
           (pns s) (jwt s) (apikey s) (twimlApp s) (devPhoneName s)
           (currentProfile s) (configProfile s) (accountSid s).

Definition set_phoneNumber (v : option pn_view) (s : server) : server :=
  mkServer (mkSettings (conversation (cliSettings s)) (sync (cliSettings s)) v)
           (pns s) (jwt s) (apikey s) (twimlApp s) (devPhoneName s)
           (currentProfile s) (configProfile s) (accountSid s).

Definition set_pns (l : list phone) (s : server) : server :=
  mkServer (cliSettings s) l (jwt s) (apikey s) (twimlApp s) (devPhoneName s)
           (currentProfile s) (configProfile s) (accountSid s).

Definition set_jwt (t : AccessToken) (s : server) : server :=
  mkServer (cliSettings s) (pns s) (Some t) (apikey s) (twimlApp s)
           (devPhoneName s) (currentProfile s) (configProfile s) (accountSid s).

Definition set_apikey (k : apikey_t) (s : server) : server :=
  mkServer (cliSettings s) (pns s) (jwt s) k (twimlApp s) (devPhoneName s)
           (currentProfile s) (configProfile s) (accountSid s).

Definition set_twimlApp (a : instance) (s : server) : server :=
  mkServer (cliSettings s) (pns s) (jwt s) (apikey s) (Some a) (devPhoneName s)
           (currentProfile s) (configProfile s) (accountSid s).

Definition set_currentProfile (p : profile) (s : server) : server :=
  mkServer (cliSettings s) (pns s) (jwt s) (apikey s) (twimlApp s)
           (devPhoneName s) p (configProfile s) (accountSid s).

(* ================================================================== *)
(** ** The methods of [DevPhoneServer]

    Console lines are kept without their emoji and trailing newline. *)

(** The predicate of the four destroy methods:
    [item => item.friendlyname && item.friendlyName.startsWith('dev-phone')].
    The first conjunct reads the property [friendlyname]. *)
Definition is_dev_phone_item (item : instance) : result bool :=
  if truthy (prop item "friendlyname") then
    match prop item "friendlyName" with
    | VStr s => Ok (startsWith s "dev-phone")
    | VBool _ => Throw (TypeError "item.friendlyName.startsWith is not a function")
    | VUndefined | VNull =>
        Throw (TypeError "Cannot read property 'startsWith' of undefined")
    end
  else Ok false.

(** The body shared by the destroy methods: list, filter, remove each. *)
Definition list_filter_remove (k : kind) : M unit :=
  items <- client_list k ;;
  items <- lift (filterM is_dev_phone_item items) ;;
  for_of items (fun item => client_remove k (sid item)).

Definition twilioCliIsConfiguredWithApiKey (s : server) : bool :=
  startsWith (apiKey (currentProfile s)) "SK".

Definition destroyApiKeys : M unit :=
  s <- get_this ;;
  if twilioCliIsConfiguredWithApiKey s
  then ret tt                                   (* "we never created one" *)
  else list_filter_remove Keys.

Definition destroyTwimlApps : M unit :=
  console_log "Removing existing TwiML apps" ;;
  list_filter_remove Applications.

Definition destroySyncs : M unit := list_filter_remove SyncServices.

Definition destroyConversations : M unit := list_filter_remove Conversations.

Definition reuseOrCreateApiKey : M apikey_t :=
  s <- get_this ;;
  if twilioCliIsConfiguredWithApiKey s then
    console_log "I'm using your profile API key." ;;
    ret (mkApikey (VStr (apiKey (currentProfile s))) (apiSecret (currentProfile s)))
  else
    console_log "I'm creating a new API key..." ;;
    destroyApiKeys ;;
    key <- client_create Keys (VStr (devPhoneName s)) VUndefined ;;
    console_log ("I'm using the API Key " ++ sid key) ;;
    modify_this (set_currentProfile (mkProfile (sid key) (secret key))) ;;
    s' <- get_this ;;
    ret (mkApikey (VStr (apiKey (currentProfile s'))) (apiSecret (currentProfile s'))).

Definition outbound_call_url : string :=
  "https://dev-phone-6880.twil.io/outbound-call".

Definition createTwimlApp : M instance :=
  console_log "Creating a new TwiMl App to allow Voip calls from your browser..." ;;
  destroyTwimlApps ;;
  s <- get_this ;;
  item <- client_create Applications (VStr (devPhoneName s)) (VStr outbound_call_url) ;;
  console_log ("I'm using the TwiMl App " ++ sid item) ;;
  ret item.

Definition createSync : M instance :=
  console_log "Creating a new sync list for call history..." ;;
  destroySyncs ;;
  s <- get_this ;;
  item <- client_create SyncServices (VStr (devPhoneName s)) VUndefined ;;
  console_log ("I'm using the sync list " ++ sid item) ;;
  ret item.

Definition createConversation : M instance :=
  destroyConversations ;;
  console_log "Creating a new conversation..." ;;
  s <- get_this ;;
  item <- client_create Conversations (VStr (devPhoneName s)) VUndefined ;;
  console_log ("I'm using the conversation " ++ sid item) ;;
  ret item.

(** [x.sid] where [x] may be undefined. *)
Definition sid_of (x : option instance) : M value :=
  match x with
  | Some i => ret (VStr (sid i))
  | None => throw (TypeError "Cannot read property 'sid' of undefined")
  end.

Definition createJwt : M AccessToken :=
  s <- get_this ;;
  conversationSid <- sid_of (conversation (cliSettings s)) ;;
  let chatGrant := ChatGrant conversationSid in
  let voiceGrant :=
    VoiceGrant (VBool true)
               (match twimlApp s with
                | Some app => VStr (sid app)
                | None => VUndefined            (* [{}.sid] *)
                end) in
  syncSid <- sid_of (sync (cliSettings s)) ;;
  let syncGrant := SyncGrant syncSid in
  token <- lift (new_AccessToken (accountSid s) (key_sid (apikey s))
                                 (key_secret (apikey s))
                                 (mkTokenOptions (VStr (devPhoneName s)) None)) ;;
  ret (toJwt (addGrant syncGrant (addGrant voiceGrant (addGrant chatGrant token)))).

(** [await super.run()]: [TwilioClientCommand.run] of the CLI framework
    loads the active profile from the CLI configuration into
    [this.currentProfile], replacing whatever an earlier run has written
    there. *)
Definition super_run : M unit :=
  modify_this (fun s => set_currentProfile (configProfile s) s).

(** The command's flags object, read as [flags[name]]. *)
Definition flags_t : Type := list (string * value).

Definition flag (flags : flags_t) (name : string) : value :=
  match find (fun kv => String.eqb (fst kv) name) flags with
  | Some kv => snd kv
  | None => VUndefined
  end.

Section Command.

(** [isSmsUrlSet] and [isVoiceUrlSet] are imported from
    [../phone-number-utils], which is not part of the sources at hand:
    they are parameters of the development. *)
Variable isSmsUrlSet : value -> bool.
Variable isVoiceUrlSet : value -> bool.

(** The array [pnConfigAlreadySet], before and after [.filter(x => x)]. *)
Definition pnConfigAlreadySet (first : phone) : list value :=
  filter truthy
    [ (if isSmsUrlSet (smsUrl first) then VStr "SMS webhook URL" else VNull);
      (if isVoiceUrlSet (pn_voiceUrl first) then VStr "Voice webhook URL" else VNull) ].

Definition not_associated_message (number : string) : string :=
  "The phone number " ++ number ++ " is not associated with your Twilio account".

Definition overwrite_message (number : string) (already : list value) : string :=
  "Cannot use " ++ number ++
  " because the following config for that phone number would be overwritten: " ++
  join ", " (map to_string already).

Definition validatePropsAndFlags (flags : flags_t) : M unit :=
  let number := flag flags "phone-number" in
  if truthy number then
    found <- client_list_phone_numbers (Some (to_string number)) ;;
    modify_this (set_pns found) ;;
    match found with
    | [] => throw (TwilioCliError (not_associated_message (to_string number)))
    | first :: _ =>
        let already := pnConfigAlreadySet first in
        if (0 <? length already)%nat
        then throw (TwilioCliError (overwrite_message (to_string number) already))
        else modify_this (set_phoneNumber (hd_error (reformatTwilioPns found)))
    end
  else ret tt.

(** [run], up to the issue of the token.  [parseProperties()] yields
    the unused [props]; what follows the token, the registration of the
    [SIGINT] handler and the express routes, is modelled by [process] and
    [client_token] below. *)
Definition run (flags : flags_t) : M unit :=
  super_run ;;
  validatePropsAndFlags flags ;;
  s <- get_this ;;
  console_log ("Hello I'm your dev-phone and my name is " ++ devPhoneName s) ;;
  c <- createConversation ;;
  modify_this (set_conversation c) ;;
  sy <- createSync ;;
  modify_this (set_sync sy) ;;
  k <- reuseOrCreateApiKey ;;
  modify_this (set_apikey k) ;;
  app <- createTwimlApp ;;
  modify_this (set_twimlApp app) ;;
  t <- createJwt ;;
  modify_this (set_jwt t).

End Command.

(** The handler of [GET /client-token]: issue on first request. *)
Definition client_token : M AccessToken :=
  s <- get_this ;;
  match jwt s with
  | Some t => ret t
  | None => t <- createJwt ;; modify_this (set_jwt t) ;; ret t
  end.

(* ================================================================== *)
(** ** The process and its [SIGINT] handler

    [run] ends by registering a handler for [SIGINT] and starting the
    express application.  The handler is an [async function]: it runs
    synchronously up to the first [await] whose operand evaluates without
    throwing, is parked there until the awaited promise settles, and is
    then resumed.  Between two such segments the event loop may dispatch
    other events, among them a further signal.

    The handler calls its four teardown steps as unqualified identifiers
    ([destroyConversations()], not [this.destroyConversations()]).  The
    scope [sc] says what such an identifier is bound to, if anything; an
    unbound identifier throws a [ReferenceError] when it is evaluated,
    before anything is awaited. *)

Inductive signal : Type := SIGINT | SIGTERM.

Definition scope : Type := string -> option (M unit).

(** The operands of the four [await]s of the handler's [try] block. *)
Definition teardown_steps : list string :=
  [ "destroyConversations"; "destroyTwimlApps"; "destroyApiKeys"; "destroySyncs" ].

Record process : Type := mkProcess {
  pworld : world;
  exit_code : option nat;            (* [Some c]: the process has exited *)
  sigint_handler : bool;             (* [process.on('SIGINT', ...)] was executed *)
  listening : bool;                  (* [app.listen] was executed *)
  parked : list nat;                 (* handlers parked at their n-th [await] *)
  entered : nat;                     (* handler invocations started *)
  completed : nat                    (* handler invocations that reached [process.exit()] *)
}.

Definition with_world (w : world) (p : process) : process :=
  mkProcess w (exit_code p) (sigint_handler p) (listening p) (parked p)
            (entered p) (completed p).

Definition p_log (line : string) (p : process) : process :=
  with_world (mkWorld (this (pworld p)) (cloud (pworld p))
                      (console (pworld p) ++ [line])) p.

(** Death by a signal without handler: exit code 128 + signal number. *)
Definition killed (s : signal) (p : process) : process :=
  mkProcess (pworld p)
            (Some (match s with SIGINT => 130 | SIGTERM => 143 end))
            (sigint_handler p) (listening p) (parked p) (entered p) (completed p).

(** [process.exit()] at the end of the handler: no code is passed and
    [process.exitCode] is never assigned, so the status is 0. *)
Definition handler_exit (p : process) : process :=
  mkProcess (pworld p) (Some 0) (sigint_handler p) (listening p) (parked p)
            (entered p) (S (completed p)).

Definition park (n : nat) (p : process) : process :=
  mkProcess (pworld p) (exit_code p) (sigint_handler p) (listening p)
            (parked p ++ [n]) (entered p) (completed p).

Definition unpark (i : nat) (p : process) : process :=
  mkProcess (pworld p) (exit_code p) (sigint_handler p) (listening p)
            (firstn i (parked p) ++ skipn (S i) (parked p))
            (entered p) (completed p).

Definition enter (p : process) : process :=
  mkProcess (pworld p) (exit_code p) (sigint_handler p) (listening p)
            (parked p) (S (entered p)) (completed p).

(** [catch (e) { console.error(e.message) }] followed by
    [process.exit()].  When the value caught is [null] or [undefined],
    reading [e.message] throws inside the [catch] block: the handler ends
    there and [process.exit()] is not reached. *)
Definition handler_catch (e : error) (p : process) : process :=
  match e with
  | Thrown VUndefined | Thrown VNull => p
  | _ => handler_exit (p_log (error_message e) p)
  end.

(** The handler from its [n]-th [await] on, up to the next suspension. *)
Definition handler_from (sc : scope) (n : nat) (p : process) : process :=
  match nth_error teardown_steps n with
  | None => handler_exit p                      (* the [try] block is done *)
  | Some f =>
      match sc f with
      | None => handler_catch (ReferenceError (f ++ " is not defined")) p
      | Some _ => park n p                      (* the call returned a promise *)
      end
  end.

Definition handler (sc : scope) (p : process) : process :=
  handler_from sc 0 (p_log "Caught interrupt signal" (enter p)).

(** The promise awaited by the [i]-th parked handler settles; the effects
    of the awaited call are taken to happen at that moment. *)
Definition settle (sc : scope) (i : nat) (p : process) : process :=
  match nth_error (parked p) i with
  | None => p
  | Some n =>
      let p := unpark i p in
      match nth_error teardown_steps n with
      | None => p
      | Some f =>
          match sc f with
          | None => p
          | Some m =>
              match m (pworld p) with
              | (Ok _, w) => handler_from sc (S n) (with_world w p)
              | (Throw e, w) => handler_catch e (with_world w p)
              end
          end
      end
  end.

Inductive event : Type :=
| Signal (s : signal)
| Settle (i : nat).

(** One turn of the event loop.  Nothing runs in an exited process, and
    only [SIGINT] has a handler. *)
Definition deliver (sc : scope) (p : process) (ev : event) : process :=
  match exit_code p with
  | Some _ => p
  | None =>
      match ev with
      | Signal SIGINT => if sigint_handler p then handler sc p else killed SIGINT p
      | Signal SIGTERM => killed SIGTERM p
      | Settle i => settle sc i p
      end
  end.

(** The identifiers bound at the top level of [dev-phone.js]. *)
Definition module_identifiers : list string :=
  [ "flags"; "TwilioClientCommand"; "TwilioCliError"; "AccessToken"; "ChatGrant";
    "VoiceGrant"; "SyncGrant"; "isSmsUrlSet"; "isVoiceUrlSet"; "express"; "PORT";
    "reformatTwilioPns"; "generateRandomPhoneName"; "DevPhoneServer" ].

(** The scope of the handler as the module is written: the handler is a
    [function] inside [run], whose enclosing scopes bind [props], [app]
    and the module-level identifiers; none of them is a teardown step.
    (Calls of the module-level identifiers do not occur in the handler and
    are not modelled.) *)
Definition module_scope : scope :=
  fun f => if existsb (String.eqb f) module_identifiers then Some (ret tt) else None.

(** The process once [run] is through: handler registered, server
    listening. *)
Definition serving (w : world) : process :=
  mkProcess w None true true [] 0 0.

(** The teardown sweep of the session as a plain sequence of the four
    methods, in the handler's order. *)
Definition destroySession : M unit :=
  destroyConversations ;;
  destroyTwimlApps ;;
  destroyApiKeys ;;
  destroySyncs.

(* ================================================================== *)
(** ** Observations on the remote *)

Definition labelled_with (name : string) (item : instance) : bool :=
  match friendlyName item with
  | VStr s => startsWith s name
  | _ => false
  end.

(** The remote resources of a kind whose label starts with [name]. *)
Definition session_resources (name : string) (k : kind) (r : remote) : list instance :=
  filter (labelled_with name) (resources k r).

Definition all_kinds : list kind := [Conversations; SyncServices; Keys; Applications].

Definition all_session_resources (name : string) (r : remote) : list instance :=
  flat_map (fun k => session_resources name k r) all_kinds.

(** The calls issued since the remote was [before]. *)
Definition new_calls (before after : remote) : list call :=
  skipn (length (calls before)) (calls after).

Definition created_kind (c : call) : option kind :=
  match c with CallCreate k _ _ => Some k | _ => None end.

Definition removed_kind (c : call) : option kind :=
  match c with CallRemove k _ => Some k | _ => None end.

Fixpoint filter_map {A B} (f : A -> option B) (l : list A) : list B :=
  match l with
  | [] => []
  | x :: rest =>
      match f x with
      | Some y => y :: filter_map f rest
      | None => filter_map f rest
      end
  end.

Definition creations (cs : list call) : list call :=
  filter (fun c => match c with CallCreate _ _ _ => true | _ => false end) cs.
Arguments creations : simpl never.

(* ================================================================== *)
(** ** Concrete worlds used by the examples *)

(** An account without resources that serves every request. *)
Definition no_faults : nat -> bool := fun _ => false.

Definition empty_remote : remote := mkRemote [] [] [] [] [] 0 [] 0 no_faults.

(** A profile holding account credentials (environment variables)... *)
Definition account_profile : profile := mkProfile "AC0" (VStr "auth-token").
(** ... and one holding an API key. *)
Definition apikey_profile : profile := mkProfile "SK0" (VStr "key-secret").

Definition world0 : world :=
  mkWorld (constructor "123456" account_profile (VStr "AC0")) empty_remote [].

Definition world1 : world :=
  mkWorld (constructor "123456" apikey_profile (VStr "AC0")) empty_remote [].

(** Modelled from the spec: [isSmsUrlSet] and [isVoiceUrlSet] of
    [../phone-number-utils] are missing; a webhook counts as already
    configured when the number "has an existing SMS or voice URL", that
    is, when the URL is a non-empty string.  Used only to instantiate the
    parameters of [validatePropsAndFlags] and [run] at concrete inputs. *)
Definition url_is_set (url : value) : bool :=
  match url with
  | VStr s => negb (String.eqb s "")
  | _ => false
  end.

(* ================================================================== *)
(** ** Notions used by the statements *)

(** A property of the remote that a computation leaves alone. *)
Definition preserves {A B} (obs : remote -> B) (m : M A) : Prop :=
  forall w, obs (cloud (snd (m w))) = obs (cloud w).

(** What a create method does: either it returns the new instance,
    labelled with the session name and appended to the account's
    resources of its kind, after a served list call and a served create
    call; or it throws and has created nothing. *)
Definition creation_step (k : kind) (url : value) (m : M instance) : Prop :=
  forall w,
    match m w with
    | (Ok item, w') =>
        this w' = this w /\
        friendlyName item = VStr (devPhoneName (this w)) /\
        resources k (cloud w') = resources k (cloud w) ++ [item] /\
        calls (cloud w') = calls (cloud w) ++
          [ CallList k; CallCreate k (VStr (devPhoneName (this w))) url ]
    | (Throw _, w') =>
        this w' = this w /\
        resources k (cloud w') = resources k (cloud w) /\
        exists cs, calls (cloud w') = calls (cloud w) ++ cs /\ creations cs = []
    end.

(** [this.twimlApp.sid], where [twimlApp] starts as the empty object. *)
Definition twimlApp_sid (s : server) : value :=
  match twimlApp s with
  | Some app => VStr (sid app)
  | None => VUndefined
  end.

(** The world after a full provisioning run on a fresh account. *)
Definition provisioned0 : world := snd (run url_is_set url_is_set [] world0).






(* ================================================================== *)
(** ** The express routes *)

(** [try { m } catch (err) { h err }], and likewise a promise chain
    [m.then(...).catch(h)]. *)
Definition try_catch {A} (m : M A) (h : error -> M A) : M A :=
  fun w => match m w with
           | (Ok a, w') => (Ok a, w')
           | (Throw e, w') => h e w'
           end.

(** What a route sends back. *)
Inductive http_body : Type :=
| PhoneNumbersBody (numbers : list pn_view)       (* [{ "phone-numbers": [...] }] *)
| ErrorBody (err : error).                        (* [{ error: err }] *)

Record http_response : Type := mkHttp {
  http_status : nat;
  http_body_of : http_body
}.

(** The object [GET /plugin-settings] sends:
    [{ ...this.cliSettings, devPhoneName: this.devPhoneName }]. *)
Record plugin_settings_t : Type := mkPluginSettings {
  ps_conversation : option instance;
  ps_sync : option instance;
  ps_phoneNumber : option pn_view;
  ps_devPhoneName : string
}.

Definition plugin_settings : M plugin_settings_t :=
  s <- get_this ;;
  ret (mkPluginSettings (conversation (cliSettings s)) (sync (cliSettings s))
                        (settings_phoneNumber (cliSettings s)) (devPhoneName s)).

(** What an error carries under [err.data]: nothing, or an object whose
    [status] is a number or is missing. *)
Inductive err_data_t : Type :=
| NoData
| Data (status : option nat).

(** [res.status(code).send(body)].  The response is written under
    [code], which Node accepts only if it is a number from 100 to 999;
    otherwise writing the head throws a [RangeError] and nothing is
    sent. *)
Definition respond (code : option nat) (body : http_body) : result http_response :=
  match code with
  | Some c =>
      if ((100 <=? c) && (c <=? 999))%nat then Ok (mkHttp c body)
      else Throw (RangeError ("Invalid status code: " ++ string_of_nat c))
  | None => Throw (RangeError "Invalid status code: undefined")
  end.

Section Routes.

(** What the errors of the SDK and of the CLI's client carry under
    [data] is left open. *)
Variable err_data : error -> err_data_t.

(** [err.data ? err.data.status : 400] *)
Definition error_status (err : error) : option nat :=
  match err_data err with
  | NoData => Some 400
  | Data st => st
  end.

(** The handler of [GET /phone-numbers]. *)
Definition phone_numbers : M http_response :=
  s <- get_this ;;
  if (length (pns s) =? 0)%nat then
    try_catch
      (found <- client_list_phone_numbers None ;;
       modify_this (set_pns found) ;;
       ret (mkHttp 200 (PhoneNumbersBody (reformatTwilioPns found))))
      (fun err =>
         console_log ("APIs throwed an error " ++ error_message err) ;;
         lift (respond (error_status err) (ErrorBody err)))
  else ret (mkHttp 200 (PhoneNumbersBody (reformatTwilioPns (pns s)))).

End Routes.

(** A computation that removes nothing: the requests it has served hold
    no removal, and every resource list of the account has only grown at
    its end. *)
Definition only_adds {A} (m : M A) : Prop :=
  forall w,
    (exists cs, calls (cloud (snd (m w))) = calls (cloud w) ++ cs /\
                filter_map removed_kind cs = []) /\
    (forall k, exists added,
        resources k (cloud (snd (m w))) = resources k (cloud w) ++ added).

(** The command object after a run that filled every field: its
    resources, each labelled with the session name and present on the
    account, and the token issued on them. *)
Definition fully_provisioned (name : string) (w : world) : Prop :=
  exists conv sy app t,
    conversation (cliSettings (this w)) = Some conv /\
    sync (cliSettings (this w)) = Some sy /\
    twimlApp (this w) = Some app /\
    jwt (this w) = Some t /\
    friendlyName conv = VStr name /\
    friendlyName sy = VStr name /\
    friendlyName app = VStr name /\
    In conv (conversations (cloud w)) /\
    In sy (syncServices (cloud w)) /\
    In app (applications (cloud w)) /\
    tok_identity t = VStr name /\
    tok_keySid t = key_sid (apikey (this w)) /\
    tok_grants t =
      [ ChatGrant (VStr (sid conv)); VoiceGrant (VBool true) (VStr (sid app));
        SyncGrant (VStr (sid sy)) ].

(** An account with two numbers, both free of webhooks. *)
Definition free_number (n : string) (s : string) : phone :=
  mkPhone n (VStr "line") (VStr "") (VStr "") s.

Definition world_two_numbers : world :=
  mkWorld (constructor "123456" account_profile (VStr "AC0"))
          (mkRemote [] [] [] [] [free_number "+15550000001" "PN1";
                                 free_number "+15550000002" "PN2"]
                    0 [] 0 no_faults) [].

Definition flags_second : flags_t := [ ("phone-number", VStr "+15550000002") ].

Definition flags_unknown : flags_t := [ ("phone-number", VStr "+15559999999") ].

(** No [data] on any error. *)
Definition no_data : error -> err_data_t := fun _ => NoData.

(** An account with two numbers whose remote fails every request. *)
Definition world_down : world :=
  mkWorld (constructor "123456" account_profile (VStr "AC0"))
          (mkRemote [] [] [] [] [free_number "+15550000001" "PN1";
                                 free_number "+15550000002" "PN2"]
                    0 [] 0 (fun _ => true)) [].

(* ================================================================== *)
(** * The TypeScript command, [dev-phone.ts]

    The current implementation of the command (it is held in
    [packages/plugin-dev-phone/package.json], after the package manifest)
    is embedded in the module [Ts].  It differs from [dev-phone.js] in
    what it provisions (a conversation service with a conversation and a
    participant, a sync service with its call-log map, a serverless
    webhook backend, a TwiML app pointing at that backend, the binding of
    a phone number), in how it tears down (sweeps on the session name,
    each in a [try]/[catch]; handlers for [SIGINT] and [SIGTERM]), and in
    its routes.

    The helpers it imports from [../utils] are not part of the sources:
    the pure ones and the opaque deployment are the fields of [utils];
    the two that update a phone number are modelled from the
    specification. *)

Module Ts.

(** ** The remote account *)

Inductive kind : Type :=
| ConversationServices | SyncServices | Keys | Applications | ServerlessServices.

(** An incoming phone number of the account. *)
Record number : Type := mkNumber {
  num_phoneNumber : string;
  num_friendlyName : value;
  num_smsUrl : value;
  num_voiceUrl : value;
  num_statusCallback : value;
  num_sid : string
}.

(** [{ voiceUrl, smsUrl, statusCallback }], the webhook properties of a
    phone number. *)
Record webhooks : Type := mkWebhooks {
  wh_voiceUrl : value;
  wh_smsUrl : value;
  wh_statusCallback : value
}.

Definition CALL_LOG_MAP_NAME : string := "CallLog".

(** The environment bindings [createFunction] deploys the backend with. *)
Record deploy_env : Type := mkEnv {
  SYNC_SERVICE_SID : string;
  CONVERSATION_SID : string;
  CONVERSATION_SERVICE_SID : string;
  DEV_PHONE_NAME : string;
  DEV_PHONE_VERSION : string;
  ENV_CALL_LOG_MAP_NAME : string
}.

(** What the deployment returns. *)
Record deployed : Type := mkDeployed {
  dep_serviceSid : string;
  dep_domain : string
}.

(** The requests the command makes. *)
Inductive call : Type :=
| CallList (k : kind)
| CallCreate (k : kind) (name : value) (url : value)
| CallRemove (k : kind) (s : string)
| CallCreateConversation (service : string) (name : value)
| CallCreateParticipant (service conversation : string) (identity : string)
| CallCreateSyncMap (service : string) (uniqueName : string)
| CallDeploy (env : deploy_env)
| CallListPhoneNumbers (phoneNumber : value) (limit : option nat)
| CallUpdatePhoneNumber (s : string) (props : webhooks).

(** The account as the command sees it.  The conversations, participants
    and sync maps inside a service are read nowhere in the command; their
    creation shows in [calls] only.  [faults n] says whether the [n]-th
    request made is answered with an error. *)
Record remote : Type := mkRemote {
  conversationServices : list instance;
  syncServices : list instance;
  keys : list instance;
  applications : list instance;
  serverlessServices : list instance;
  incomingPhoneNumbers : list number;
  counter : nat;             (* source of fresh sids *)
  calls : list call;         (* the requests served so far, most recent last *)
  attempts : nat;            (* the number of requests made so far *)
  faults : nat -> bool
}.

Definition resources (k : kind) (r : remote) : list instance :=
  match k with
  | ConversationServices => conversationServices r
  | SyncServices => syncServices r
  | Keys => keys r
  | Applications => applications r
  | ServerlessServices => serverlessServices r
  end.

Definition set_resources (k : kind) (l : list instance) (r : remote) : remote :=
  mkRemote
    (match k with ConversationServices => l | _ => conversationServices r end)
    (match k with SyncServices => l | _ => syncServices r end)
    (match k with Keys => l | _ => keys r end)
    (match k with Applications => l | _ => applications r end)
    (match k with ServerlessServices => l | _ => serverlessServices r end)
    (incomingPhoneNumbers r) (counter r) (calls r) (attempts r) (faults r).

Definition set_numbers (l : list number) (r : remote) : remote :=
  mkRemote (conversationServices r) (syncServices r) (keys r) (applications r)
           (serverlessServices r) l (counter r) (calls r) (attempts r) (faults r).

Definition record_call (c : call) (r : remote) : remote :=
  mkRemote (conversationServices r) (syncServices r) (keys r) (applications r)
           (serverlessServices r) (incomingPhoneNumbers r) (counter r)
           (calls r ++ [c]) (attempts r) (faults r).

Definition bump (r : remote) : remote :=
  mkRemote (conversationServices r) (syncServices r) (keys r) (applications r)
           (serverlessServices r) (incomingPhoneNumbers r) (S (counter r))
           (calls r) (attempts r) (faults r).

Definition attempt (r : remote) : remote :=
  mkRemote (conversationServices r) (syncServices r) (keys r) (applications r)
           (serverlessServices r) (incomingPhoneNumbers r) (counter r)
           (calls r) (S (attempts r)) (faults r).

(** Whether the next request will be answered with an error. *)
Definition next_fails (r : remote) : bool := faults r (attempts r).

Definition sid_prefix (k : kind) : string :=
  match k with
  | ConversationServices => "IS"
  | SyncServices => "IS"
  | Keys => "SK"
  | Applications => "AP"
  | ServerlessServices => "ZS"
  end.

Definition fresh_sid (k : kind) (r : remote) : string :=
  sid_prefix k ++ string_of_nat (counter r).

Definition new_instance (k : kind) (name url : value) (r : remote) : instance :=
  mkInstance (fresh_sid k r) name
             (match k with Applications => url | _ => VUndefined end)
             (match k with
              | Keys => VStr ("secret" ++ string_of_nat (counter r))
              | _ => VUndefined
              end).

(** ** The helpers of [../utils] and of [package.json] *)

(** [isSmsUrlSet], [isVoiceUrlSet] (phone-number-utils), [isValidPort],
    [getAvailablePort] (helpers), the [constants] and [deployServerless]
    (create-serverless-util) and the package's [version] are not part of
    the sources: they are parameters of the development, as is the
    built-in [parseInt] on the strings [isValidPort] accepts.  The
    deployment is opaque: [deploy env n services] is what a served
    deployment returns and what it leaves as the account's serverless
    services, given the bindings, a number for fresh names and the
    services before. *)
Record utils : Type := mkUtils {
  isSmsUrlSet : value -> bool;
  isVoiceUrlSet : value -> bool;
  isValidPort : string -> bool;
  parseInt : string -> nat;
  getAvailablePort : nat;
  INCOMING_CALL_HANDLER : string;
  OUTBOUND_CALL_HANDLER : string;
  INCOMING_MESSAGE_HANDLER : string;
  SYNC_CALL_HISTORY : string;
  version : string;
  deploy : deploy_env -> nat -> list instance -> deployed * list instance
}.

(** ** The command object *)

(** [reformatTwilioPns] keeps five properties of each phone number. *)
Record view : Type := mkView {
  view_phoneNumber : string;
  view_friendlyName : value;
  view_smsUrl : value;
  view_voiceUrl : value;
  view_sid : string
}.

Definition view_of (n : number) : view :=
  mkView (num_phoneNumber n) (num_friendlyName n) (num_smsUrl n) (num_voiceUrl n)
         (num_sid n).

Definition reformatTwilioPns (twilioResponse : list number) : list view :=
  map view_of twilioResponse.

Record settings : Type := mkSettings {
  forceMode : value;
  phoneNumber : option view            (* [None]: the property is undefined *)
}.

(** A property that starts as the empty object [{}], and is later
    assigned the result of a method that returns an object or, when it
    has caught an error, [undefined]. *)
Inductive slot (A : Type) : Type :=
| Empty
| Undefined
| Has (a : A).
Arguments Empty {A}.
Arguments Undefined {A}.
Arguments Has {A} a.

(** What [createConversation] returns: [{ serviceSid, sid }]. *)
Record conversation_ref : Type := mkConversationRef {
  serviceSid : string;
  conv_sid : string
}.

(** [this.port]: a number, or the string of the environment variable. *)
Inductive port_t : Type :=
| PortNumber (n : nat)
| PortString (s : string).

Record server : Type := mkServer {
  cliSettings : settings;
  pns : list number;
  port : port_t;
  jwt : option AccessToken;            (* [None]: null *)
  apikey : slot apikey_t;
  twimlApp : slot instance;
  devPhoneName : string;
  this_voiceUrl : value;
  this_smsUrl : value;
  this_voiceOutboundUrl : value;
  this_statusCallback : value;
  conversation : option conversation_ref;   (* [None]: undefined *)
  sync : option instance;
  serverless : option deployed;
  currentProfile : profile;
  configProfile : profile;             (* the profile of the CLI configuration *)
  accountSid : value;                  (* [this.twilioClient.accountSid] *)
  TWILIO_DEV_PHONE_PORT : value        (* [process.env.TWILIO_DEV_PHONE_PORT] *)
}.

(** [generateRandomPhoneName], given the characters drawn from
    [Math.random().toString().substring(2, 6)]. *)
Definition generateRandomPhoneName (rand : string) : string := "dev-phone-" ++ rand.

(** The command object as the constructor leaves it, for a profile, an
    account sid and an environment supplied from outside.
    ([currentProfile] is assigned by [super.run()], see [super_run],
    before anything reads it.) *)
Definition constructor (rand : string) (p : profile) (account env_port : value)
  : server :=
  mkServer (mkSettings VUndefined None) [] (PortNumber 1337) None Empty Empty
           (generateRandomPhoneName rand) VNull VNull VNull VUndefined
           None None None p p account env_port.

(** The state of the world: the command object, the account, the console
    and the answer the operator gives to a confirmation prompt. *)
Record world : Type := mkWorld {
  this : server;
  cloud : remote;
  console : list string;
  confirms : bool
}.

(** ** The state-and-exception monad *)

Definition M (A : Type) : Type := world -> result A * world.

Definition ret {A} (a : A) : M A := fun w => (Ok a, w).
Definition throw {A} (e : error) : M A := fun w => (Throw e, w).
Definition bind {A B} (m : M A) (k : A -> M B) : M B :=
  fun w => match m w with
           | (Ok a, w') => k a w'
           | (Throw e, w') => (Throw e, w')
           end.

Declare Scope ts_scope.
Delimit Scope ts_scope with ts.
Notation "x <- m ;; k" := (bind m (fun x => k))
  (at level 61, m at next level, right associativity) : ts_scope.
Notation "m ;; k" := (bind m (fun _ => k))
  (at level 61, right associativity) : ts_scope.
Local Open Scope ts_scope.

Definition get_this : M server := fun w => (Ok (this w), w).
Definition get_cloud : M remote := fun w => (Ok (cloud w), w).
Definition get_confirmation : M bool := fun w => (Ok (confirms w), w).
Definition modify_this (f : server -> server) : M unit :=
  fun w => (Ok tt, mkWorld (f (this w)) (cloud w) (console w) (confirms w)).
Definition modify_cloud (f : remote -> remote) : M unit :=
  fun w => (Ok tt, mkWorld (this w) (f (cloud w)) (console w) (confirms w)).
Definition console_log (line : string) : M unit :=
  fun w => (Ok tt, mkWorld (this w) (cloud w) (console w ++ [line]) (confirms w)).

(** [console.error(err)] *)
Definition console_error (err : error) : M unit := console_log (error_message err).

Definition lift {A} (r : result A) : M A := fun w => (r, w).

(** [for (const item of items) { await body(item) }] *)
Fixpoint for_of {A} (items : list A) (body : A -> M unit) : M unit :=
  match items with
  | [] => ret tt
  | item :: rest => body item ;; for_of rest body
  end.

(** [try { m } catch (err) { h err }] *)
Definition try_catch {A} (m : M A) (h : error -> M A) : M A :=
  fun w => match m w with
           | (Ok a, w') => (Ok a, w')
           | (Throw e, w') => h e w'
           end.

(** [m.finally(f)] *)
Definition finally {A} (m : M A) (f : M unit) : M A :=
  fun w => match m w with
           | (Ok a, w') => match f w' with
                           | (Ok _, w'') => (Ok a, w'')
                           | (Throw e, w'') => (Throw e, w'')
                           end
           | (Throw e, w') => match f w' with
                              | (Ok _, w'') => (Throw e, w'')
                              | (Throw e', w'') => (Throw e', w'')
                              end
           end.

(** ** The SDK's client operations

    Every operation is one request.  A request the remote fails rejects
    with a [RestException] and changes nothing on the account; a served
    request is appended to [calls]; a request on a sid the account does
    not hold is answered with HTTP 404. *)

Definition not_found : error := RestException 404 "The requested resource was not found".

Definition request (c : call) : M unit :=
  r <- get_cloud ;;
  modify_cloud attempt ;;
  if next_fails r then throw server_error else modify_cloud (record_call c).

(** A request that is refused because its target does not exist. *)
Definition refused {A} : M A := modify_cloud attempt ;; throw not_found.

(** [this.twilioClient.<kind>.list()] *)
Definition client_list (k : kind) : M (list instance) :=
  request (CallList k) ;;
  r <- get_cloud ;;
  ret (resources k r).

(** [this.twilioClient.<kind>.create({ friendlyName, voiceUrl })] *)
Definition client_create (k : kind) (name url : value) : M instance :=
  request (CallCreate k name url) ;;
  r <- get_cloud ;;
  let item := new_instance k name url r in
  modify_cloud (fun r => bump (set_resources k (resources k r ++ [item]) r)) ;;
  ret item.

(** [this.twilioClient.<kind>(sid).remove()] *)
Definition client_remove (k : kind) (s : string) : M unit :=
  r <- get_cloud ;;
  if existsb (has_sid s) (resources k r)
  then request (CallRemove k s) ;;
       modify_cloud
         (fun r => set_resources k (filter (fun i => negb (has_sid s i)) (resources k r)) r)
  else refused.

(** [conversations.services(service).conversations.create({ friendlyName })];
    the sid of the new conversation is returned. *)
Definition client_create_conversation (service : string) (name : value) : M string :=
  r <- get_cloud ;;
  if existsb (has_sid service) (conversationServices r)
  then request (CallCreateConversation service name) ;;
       r <- get_cloud ;;
       modify_cloud bump ;;
       ret ("CH" ++ string_of_nat (counter r))%string
  else refused.

(** [conversations.services(service).conversations(conversation)
      .participants.create({ identity })] *)
Definition client_create_participant (service conversation identity : string) : M unit :=
  r <- get_cloud ;;
  if existsb (has_sid service) (conversationServices r)
  then request (CallCreateParticipant service conversation identity) ;;
       modify_cloud bump
  else refused.

(** [sync.services(service).syncMaps.create({ uniqueName })] *)
Definition client_create_sync_map (service uniqueName : string) : M unit :=
  r <- get_cloud ;;
  if existsb (has_sid service) (syncServices r)
  then request (CallCreateSyncMap service uniqueName) ;;
       modify_cloud bump
  else refused.

(** What a lookup of phone numbers answers: the numbers equal to the
    [phoneNumber] asked for, or all of them when none is asked for, cut
    at [limit]. *)
Definition phone_lookup (phoneNumber : value) (limit : option nat) (l : list number)
  : list number :=
  let found :=
    match phoneNumber with
    | VStr n => filter (fun p => String.eqb (num_phoneNumber p) n) l
    | _ => l
    end in
  match limit with
  | Some n => firstn n found
  | None => found
  end.

(** [this.twilioClient.incomingPhoneNumbers.list({ phoneNumber, limit })] *)
Definition client_list_phone_numbers (phoneNumber : value) (limit : option nat)
  : M (list number) :=
  request (CallListPhoneNumbers phoneNumber limit) ;;
  r <- get_cloud ;;
  ret (phone_lookup phoneNumber limit (incomingPhoneNumbers r)).

Definition number_has_sid (s : string) (n : number) : bool := String.eqb (num_sid n) s.

Definition with_webhooks (props : webhooks) (n : number) : number :=
  mkNumber (num_phoneNumber n) (num_friendlyName n) (wh_smsUrl props)
           (wh_voiceUrl props) (wh_statusCallback props) (num_sid n).

(** [incomingPhoneNumbers(sid).update({ voiceUrl, smsUrl, statusCallback })];
    the updated number is returned. *)
Definition client_update_phone_number (s : string) (props : webhooks) : M number :=
  r <- get_cloud ;;
  match find (number_has_sid s) (incomingPhoneNumbers r) with
  | Some n =>
      request (CallUpdatePhoneNumber s props) ;;
      modify_cloud
        (fun r => set_numbers
                    (map (fun n => if number_has_sid s n then with_webhooks props n else n)
                         (incomingPhoneNumbers r)) r) ;;
      ret (with_webhooks props n)
  | None => refused
  end.

(** ** The helpers that talk to the account *)

Definition no_webhooks : webhooks := mkWebhooks (VStr "") (VStr "") (VStr "").

(** Modelled from the spec: [updatePhoneWebhooks] of
    [../utils/phone-number-utils], which is not part of the sources.
    "[bind]: attaches the webhook backend's URLs to a chosen phone
    number"; [run] calls it with "the phone number, if there is one
    passed by CLI flag", and stores what it returns as the chosen phone
    number. *)
Definition updatePhoneWebhooks (pn : option view) (props : webhooks) : M (option view) :=
  match pn with
  | None => ret None
  | Some v =>
      updated <- client_update_phone_number (view_sid v) props ;;
      ret (Some (view_of updated))
  end.

(** Modelled from the spec: [removePhoneWebhooks] of
    [../utils/phone-number-utils], which is not part of the sources.
    "[unbind]: resets SMS/voice/status-callback fields to empty; safe to
    call on an already-unbound number". *)
Definition removePhoneWebhooks (pn : option view) : M unit :=
  match pn with
  | None => ret tt
  | Some v => client_update_phone_number (view_sid v) no_webhooks ;; ret tt
  end.

(** [deployServerless({ username, password, env, onUpdate })]: one
    request, whose outcome on the account is the parameter [deploy].  The
    status events passed to [onUpdate] are only printed and are left
    out. *)
Definition deployServerless (U : utils) (env : deploy_env) : M deployed :=
  request (CallDeploy env) ;;
  r <- get_cloud ;;
  let result := deploy U env (counter r) (serverlessServices r) in
  modify_cloud (fun r => bump (set_resources ServerlessServices (snd result) r)) ;;
  ret (fst result).

(** ** Field updates of the command object *)

Definition set_cliSettings (c : settings) (s : server) : server :=
  mkServer c (pns s) (port s) (jwt s) (apikey s) (twimlApp s) (devPhoneName s)
           (this_voiceUrl s) (this_smsUrl s) (this_voiceOutboundUrl s)
           (this_statusCallback s) (conversation s) (sync s) (serverless s)
           (currentProfile s) (configProfile s) (accountSid s)
           (TWILIO_DEV_PHONE_PORT s).

Definition set_forceMode (v : value) (s : server) : server :=
  set_cliSettings (mkSettings v (phoneNumber (cliSettings s))) s.

Definition set_phoneNumber (v : option view) (s : server) : server :=
  set_cliSettings (mkSettings (forceMode (cliSettings s)) v) s.

Definition set_pns (l : list number) (s : server) : server :=
  mkServer (cliSettings s) l (port s) (jwt s) (apikey s) (twimlApp s) (devPhoneName s)
           (this_voiceUrl s) (this_smsUrl s) (this_voiceOutboundUrl s)
           (this_statusCallback s) (conversation s) (sync s) (serverless s)
           (currentProfile s) (configProfile s) (accountSid s)
           (TWILIO_DEV_PHONE_PORT s).

Definition set_port (p : port_t) (s : server) : server :=
  mkServer (cliSettings s) (pns s) p (jwt s) (apikey s) (twimlApp s) (devPhoneName s)
           (this_voiceUrl s) (this_smsUrl s) (this_voiceOutboundUrl s)
           (this_statusCallback s) (conversation s) (sync s) (serverless s)
           (currentProfile s) (configProfile s) (accountSid s)
           (TWILIO_DEV_PHONE_PORT s).

Definition set_jwt (t : AccessToken) (s : server) : server :=
  mkServer (cliSettings s) (pns s) (port s) (Some t) (apikey s) (twimlApp s)
           (devPhoneName s)
           (this_voiceUrl s) (this_smsUrl s) (this_voiceOutboundUrl s)
           (this_statusCallback s) (conversation s) (sync s) (serverless s)
           (currentProfile s) (configProfile s) (accountSid s)
           (TWILIO_DEV_PHONE_PORT s).

Definition set_apikey (k : slot apikey_t) (s : server) : server :=
  mkServer (cliSettings s) (pns s) (port s) (jwt s) k (twimlApp s) (devPhoneName s)
           (this_voiceUrl s) (this_smsUrl s) (this_voiceOutboundUrl s)
           (this_statusCallback s) (conversation s) (sync s) (serverless s)
           (currentProfile s) (configProfile s) (accountSid s)
           (TWILIO_DEV_PHONE_PORT s).

Definition set_twimlApp (a : slot instance) (s : server) : server :=
  mkServer (cliSettings s) (pns s) (port s) (jwt s) (apikey s) a (devPhoneName s)
           (this_voiceUrl s) (this_smsUrl s) (this_voiceOutboundUrl s)
           (this_statusCallback s) (conversation s) (sync s) (serverless s)
           (currentProfile s) (configProfile s) (accountSid s)
           (TWILIO_DEV_PHONE_PORT s).

Definition set_urls (voice sms outbound status : value) (s : server) : server :=
  mkServer (cliSettings s) (pns s) (port s) (jwt s) (apikey s) (twimlApp s)
           (devPhoneName s) voice sms outbound status
           (conversation s) (sync s) (serverless s)
           (currentProfile s) (configProfile s) (accountSid s)
           (TWILIO_DEV_PHONE_PORT s).

Definition set_conversation (c : option conversation_ref) (s : server) : server :=
  mkServer (cliSettings s) (pns s) (port s) (jwt s) (apikey s) (twimlApp s)
           (devPhoneName s)
           (this_voiceUrl s) (this_smsUrl s) (this_voiceOutboundUrl s)
           (this_statusCallback s) c (sync s) (serverless s)
           (currentProfile s) (configProfile s) (accountSid s)
           (TWILIO_DEV_PHONE_PORT s).

Definition set_sync (c : option instance) (s : server) : server :=
  mkServer (cliSettings s) (pns s) (port s) (jwt s) (apikey s) (twimlApp s)
           (devPhoneName s)
           (this_voiceUrl s) (this_smsUrl s) (this_voiceOutboundUrl s)
           (this_statusCallback s) (conversation s) c (serverless s)
           (currentProfile s) (configProfile s) (accountSid s)
           (TWILIO_DEV_PHONE_PORT s).

Definition set_serverless (d : option deployed) (s : server) : server :=
  mkServer (cliSettings s) (pns s) (port s) (jwt s) (apikey s) (twimlApp s)
           (devPhoneName s)
           (this_voiceUrl s) (this_smsUrl s) (this_voiceOutboundUrl s)
           (this_statusCallback s) (conversation s) (sync s) d
           (currentProfile s) (configProfile s) (accountSid s)
           (TWILIO_DEV_PHONE_PORT s).

Definition set_currentProfile (p : profile) (s : server) : server :=
  mkServer (cliSettings s) (pns s) (port s) (jwt s) (apikey s) (twimlApp s)
           (devPhoneName s)
           (this_voiceUrl s) (this_smsUrl s) (this_voiceOutboundUrl s)
           (this_statusCallback s) (conversation s) (sync s) (serverless s)
           p (configProfile s) (accountSid s)
           (TWILIO_DEV_PHONE_PORT s).

(** ** The methods of [DevPhoneServer]

    Console lines are kept without their emoji and trailing newline. *)

(** The predicate of the sweeps:
    [x => x.friendlyName !== null && x.friendlyName.startsWith(prefix)]. *)
Definition has_prefix (prefix : string) (item : instance) : result bool :=
  match friendlyName item with
  | VNull => Ok false
  | VStr s => Ok (startsWith s prefix)
  | VUndefined =>
      Throw (TypeError "Cannot read properties of undefined (reading 'startsWith')")
  | VBool _ => Throw (TypeError "x.friendlyName.startsWith is not a function")
  end.

(** The body shared by the destroy methods: inside a [try], list, keep
    the items whose label starts with [prefix], and, if there are any,
    log and remove each; an error is caught and printed. *)
Definition sweep (k : kind) (prefix line : string) : M unit :=
  try_catch
    (items <- client_list k ;;
     mine <- lift (filterM (has_prefix prefix) items) ;;
     if (0 <? length mine)%nat
     then console_log line ;;
          for_of mine (fun item => client_remove k (sid item))
     else ret tt)
    (fun err => console_error err).

Definition twilioCliIsConfiguredWithApiKey (s : server) : bool :=
  startsWith (apiKey (currentProfile s)) "SK".

Definition destroyConversations : M unit :=
  s <- get_this ;;
  sweep ConversationServices (devPhoneName s)
        ("Removing Conversation Service for " ++ devPhoneName s).

Definition destroyAllConversations : M unit :=
  sweep ConversationServices "dev-phone"
        "Removing All Conversation Service for existing dev phone".

Definition destroyTwimlApps : M unit :=
  s <- get_this ;;
  sweep Applications (devPhoneName s) ("Removing TwiML app for " ++ devPhoneName s).

Definition destroyAllTwimlApps : M unit :=
  sweep Applications "dev-phone" "Removing All TwiML app for existing dev phone".

Definition destroyApiKeys : M unit :=
  s <- get_this ;;
  if twilioCliIsConfiguredWithApiKey s
  then ret tt                                   (* "we never created one" *)
  else sweep Keys (devPhoneName s) ("Removing API Keys for " ++ devPhoneName s).

Definition destroyAllApiKeys : M unit :=
  s <- get_this ;;
  if twilioCliIsConfiguredWithApiKey s
  then ret tt
  else sweep Keys "dev-phone" "Removing All API Keys for existing dev phone".

Definition destroySyncs : M unit :=
  s <- get_this ;;
  sweep SyncServices (devPhoneName s) ("Removing Sync Service for " ++ devPhoneName s).

Definition destroyAllSyncs : M unit :=
  sweep SyncServices "dev-phone" "Removing All Sync Service for existing dev phone".

Definition destroyFunction : M unit :=
  s <- get_this ;;
  sweep ServerlessServices (devPhoneName s)
        ("Removing Serverless Functions for " ++ devPhoneName s).

Definition destroyAllFunctions : M unit :=
  sweep ServerlessServices "dev-phone"
        "Removing All Serverless Functions for existing dev phone".

(** [s.startsWith(p)] on a property that should hold a string. *)
Definition url_startsWith (url : value) (p : string) : result bool :=
  match url with
  | VStr s => Ok (startsWith s p)
  | VBool _ => Throw (TypeError "startsWith is not a function")
  | VUndefined | VNull =>
      Throw (TypeError "Cannot read properties of null (reading 'startsWith')")
  end.

(** [pn => pn.smsUrl.startsWith('https://dev-phone')
           && pn.voiceUrl.startsWith('https://dev-phone')] *)
Definition is_dev_phone_number (pn : number) : result bool :=
  match url_startsWith (num_smsUrl pn) "https://dev-phone" with
  | Throw e => Throw e
  | Ok false => Ok false
  | Ok true => url_startsWith (num_voiceUrl pn) "https://dev-phone"
  end.

Definition removeAllPhoneWebhooks : M unit :=
  try_catch
    (pns <- client_list_phone_numbers VUndefined None ;;
     numbersDevPhone <- lift (filterM is_dev_phone_number pns) ;;
     if (0 <? length numbersDevPhone)%nat
     then console_log "Removing All number webhooks for dev phone" ;;
          for_of numbersDevPhone
            (fun pn => removePhoneWebhooks
                         (Some (mkView (num_phoneNumber pn) VUndefined (VStr "") (VStr "")
                                       (num_sid pn))))
     else ret tt)
    (fun err => console_error err).

(** [reuseOrCreateApiKey]; [None] stands for the [undefined] it returns
    after it has caught an error. *)
Definition reuseOrCreateApiKey : M (option apikey_t) :=
  s <- get_this ;;
  if twilioCliIsConfiguredWithApiKey s then
    console_log "I'm using your profile API key." ;;
    ret (Some (mkApikey (VStr (apiKey (currentProfile s))) (apiSecret (currentProfile s))))
  else
    console_log "I'm creating a new API Key..." ;;
    destroyApiKeys ;;
    try_catch
      (key <- client_create Keys (VStr (devPhoneName s)) VUndefined ;;
       console_log ("I'm using the API Key " ++ sid key) ;;
       modify_this (set_currentProfile (mkProfile (sid key) (secret key))) ;;
       s' <- get_this ;;
       ret (Some (mkApikey (VStr (apiKey (currentProfile s')))
                           (apiSecret (currentProfile s')))))
      (fun err => console_error err ;; ret None).

Definition createTwimlApp : M (option instance) :=
  console_log "Creating a new TwiMl App to allow voice calls from your browser..." ;;
  destroyTwimlApps ;;
  try_catch
    (s <- get_this ;;
     app <- client_create Applications (VStr (devPhoneName s)) (this_voiceOutboundUrl s) ;;
     console_log ("I'm using the TwiMl App " ++ sid app) ;;
     ret (Some app))
    (fun err => console_error err ;; ret None).

Definition createSync : M (option instance) :=
  console_log "Creating a new sync list for call history..." ;;
  destroySyncs ;;
  try_catch
    (s <- get_this ;;
     syncService <- client_create SyncServices (VStr (devPhoneName s)) VUndefined ;;
     console_log ("I'm using the sync service " ++ sid syncService) ;;
     client_create_sync_map (sid syncService) CALL_LOG_MAP_NAME ;;
     ret (Some syncService))
    (fun err => console_error err ;; ret None).

(** "Creates a new conversation service, a conversation, and makes the
    dev phone a participant." *)
Definition createConversation : M (option conversation_ref) :=
  destroyConversations ;;
  console_log "Creating a new conversation..." ;;
  try_catch
    (s <- get_this ;;
     service <- client_create ConversationServices (VStr (devPhoneName s)) VUndefined ;;
     newConversation <- client_create_conversation (sid service) (VStr (devPhoneName s)) ;;
     client_create_participant (sid service) newConversation (devPhoneName s) ;;
     console_log ("I'm using the conversation " ++ newConversation ++
                  " from service " ++ sid service) ;;
     ret (Some (mkConversationRef (sid service) newConversation)))
    (fun err => console_error err ;; ret None).

(** [x.p] where [x] may be undefined. *)
Definition read {A B} (x : option A) (p : A -> B) (name : string) : M B :=
  match x with
  | Some a => ret (p a)
  | None => throw (TypeError ("Cannot read properties of undefined (reading '" ++
                              name ++ "')"))
  end.

Definition backend_url (domain handler : string) : value :=
  VStr ("https://" ++ domain ++ "/" ++ handler).

Definition createFunction (U : utils) : M deployed :=
  console_log "Deploying a Functions Service to handle incoming calls and SMS..." ;;
  s <- get_this ;;
  syncSid <- read (sync s) sid "sid" ;;
  conversationSid <- read (conversation s) conv_sid "sid" ;;
  conversationServiceSid <- read (conversation s) serviceSid "serviceSid" ;;
  deployedFunctions <-
    deployServerless U
      (mkEnv syncSid conversationSid conversationServiceSid (devPhoneName s)
             (version U) CALL_LOG_MAP_NAME) ;;
  console_log ("I'm using the Serverless Service " ++ dep_serviceSid deployedFunctions) ;;
  modify_this
    (set_urls (backend_url (dep_domain deployedFunctions) (INCOMING_CALL_HANDLER U))
              (backend_url (dep_domain deployedFunctions) (INCOMING_MESSAGE_HANDLER U))
              (backend_url (dep_domain deployedFunctions) (OUTBOUND_CALL_HANDLER U))
              (backend_url (dep_domain deployedFunctions) (SYNC_CALL_HISTORY U))) ;;
  ret deployedFunctions.

(** [x.p] where [x] may be the empty object or undefined. *)
Definition read_slot {A} (x : slot A) (p : A -> value) (name : string) : M value :=
  match x with
  | Has a => ret (p a)
  | Empty => ret VUndefined
  | Undefined => throw (TypeError ("Cannot read properties of undefined (reading '" ++
                                   name ++ "')"))
  end.

Definition createJwt : M AccessToken :=
  s <- get_this ;;
  conversationServiceSid <- read (conversation s) serviceSid "serviceSid" ;;
  let chatGrant := ChatGrant (VStr conversationServiceSid) in
  appSid <- read_slot (twimlApp s) (fun app => VStr (sid app)) "sid" ;;
  let voiceGrant := VoiceGrant (VBool true) appSid in
  syncSid <- read (sync s) sid "sid" ;;
  let syncGrant := SyncGrant (VStr syncSid) in
  keySid <- read_slot (apikey s) key_sid "sid" ;;
  keySecret <- read_slot (apikey s) key_secret "secret" ;;
  token <- lift (new_AccessToken (accountSid s) keySid keySecret
                                 (mkTokenOptions (VStr (devPhoneName s))
                                                 (Some (24 * 60 * 60)%N))) ;;
  ret (toJwt (addGrant syncGrant (addGrant voiceGrant (addGrant chatGrant token)))).

(** The array [pnConfigAlreadySet], after [.filter(x => x)]. *)
Definition pnConfigAlreadySet (U : utils) (first : number) : list value :=
  filter truthy
    [ (if isSmsUrlSet U (num_smsUrl first) then VStr "SMS webhook URL" else VNull);
      (if isVoiceUrlSet U (num_voiceUrl first) then VStr "Voice webhook URL" else VNull) ].

Definition not_associated_message (number : string) : string :=
  "The phone number " ++ number ++ " is not associated with your Twilio account".

Definition overwrite_message (number : string) (already : list value) : string :=
  "Cannot use " ++ number ++
  " because the following config for that phone number would be overwritten: " ++
  join ", " (map to_string already).

Definition port_to_string (p : port_t) : string :=
  match p with
  | PortNumber n => string_of_nat n
  | PortString s => s
  end.

Definition invalid_port_message (port : string) (current : port_t) : string :=
  "'" ++ port ++ "' is not a valid port. I'll try to get set up with " ++
  port_to_string current ++ " instead.".

Definition validatePropsAndFlags (U : utils) (flags : flags_t) : M unit :=
  modify_this (set_forceMode (flag flags "force")) ;;
  s <- get_this ;;
  modify_this (set_port (if truthy (TWILIO_DEV_PHONE_PORT s)
                         then PortString (to_string (TWILIO_DEV_PHONE_PORT s))
                         else PortNumber (getAvailablePort U))) ;;
  (if truthy (flag flags "phone-number") then
     let number := flag flags "phone-number" in
     found <- client_list_phone_numbers number None ;;
     modify_this (set_pns found) ;;
     match found with
     | [] => throw (TwilioCliError (not_associated_message (to_string number)))
     | first :: _ =>
         let already := pnConfigAlreadySet U first in
         s <- get_this ;;
         if (0 <? length already)%nat && negb (truthy (forceMode (cliSettings s)))
         then throw (TwilioCliError (overwrite_message (to_string number) already))
         else modify_this (set_phoneNumber (hd_error (reformatTwilioPns found)))
     end
   else ret tt) ;;
  (if truthy (flag flags "port") then
     let given := to_string (flag flags "port") in
     s <- get_this ;;
     try_catch
       (if isValidPort U given
        then modify_this (set_port (PortNumber (parseInt U given)))
        else throw (TwilioCliError (invalid_port_message given (port s))))
       (fun err => console_error err)
   else ret tt).

(** [await super.run()]: [TwilioClientCommand.run] of the CLI framework
    loads the active profile from the CLI configuration into
    [this.currentProfile]. *)
Definition super_run : M unit :=
  modify_this (fun s => set_currentProfile (configProfile s) s).

(** [{ voiceUrl: this.voiceUrl, smsUrl: this.smsUrl,
       statusCallback: this.statusCallback }] *)
Definition phoneNumberProps (s : server) : webhooks :=
  mkWebhooks (this_voiceUrl s) (this_smsUrl s) (this_statusCallback s).

(** The [deleteAll] of [run]. *)
Definition deleteAll : M unit :=
  destroyAllConversations ;;
  destroyAllTwimlApps ;;
  destroyAllApiKeys ;;
  destroyAllSyncs ;;
  destroyAllFunctions ;;
  removeAllPhoneWebhooks.

(** The block of [run] guarded by [isDeletingAll()], that is, by the
    flag [clear]; the answer to the [confirm] prompt is [confirms]. *)
Definition deleteAll_on_clear (flags : flags_t) : M unit :=
  if truthy (flag flags "clear") then
    deleteAllConfirmation <- get_confirmation ;;
    if deleteAllConfirmation then
      console_log "Deleting all dev-phone resources from your account before starting..." ;;
      finally deleteAll (console_log "All resources have been deleted.")
    else ret tt
  else ret tt.

Definition as_slot {A} (x : option A) : slot A :=
  match x with
  | Some a => Has a
  | None => Undefined
  end.

(** [run], up to the binding of the phone number.  [parseProperties()]
    yields the unused [props], and the user-agent header set on the client
    is left out.  What
    follows the binding, the registration of the signal handlers and of
    the express routes, is modelled by [process] and the route handlers
    below. *)
Definition run (U : utils) (flags : flags_t) : M unit :=
  super_run ;;
  validatePropsAndFlags U flags ;;
  s <- get_this ;;
  console_log ("Hello I'm your dev-phone and my name is " ++ devPhoneName s) ;;
  k <- reuseOrCreateApiKey ;;
  modify_this (set_apikey (as_slot k)) ;;
  deleteAll_on_clear flags ;;
  c <- createConversation ;;
  modify_this (set_conversation c) ;;
  sy <- createSync ;;
  modify_this (set_sync sy) ;;
  d <- createFunction U ;;
  modify_this (set_serverless (Some d)) ;;
  app <- createTwimlApp ;;
  modify_this (set_twimlApp (as_slot app)) ;;
  t <- createJwt ;;
  modify_this (set_jwt t) ;;
  s <- get_this ;;
  pn <- updatePhoneWebhooks (phoneNumber (cliSettings s)) (phoneNumberProps s) ;;
  modify_this (set_phoneNumber pn).

(** [removePhoneWebhooks(this.cliSettings.phoneNumber, ...)] *)
Definition removeChosenPhoneWebhooks : M unit :=
  s <- get_this ;;
  removePhoneWebhooks (phoneNumber (cliSettings s)).

(** The steps [onShutdown] awaits, in its order. *)
Definition shutdown_steps : list (M unit) :=
  [ destroyConversations;
    destroyTwimlApps;
    destroyApiKeys;
    destroySyncs;
    destroyFunction;
    removeChosenPhoneWebhooks ].

(** [onShutdown], run without interruption. *)
Definition onShutdown : M unit :=
  fold_right (fun step rest => step ;; rest) (ret tt) shutdown_steps.

(** ** The express routes *)

Inductive body : Type :=
| ChosenBody (phoneNumber : option view) (message : string)
| MessageBody (message : string)
| TokenBody (token : AccessToken)
| ErrorBody (err : error).

Record response : Type := mkResponse {
  status : nat;
  body_of : body
}.

(** The handler of [/choose-phone-number], for a request whose body has
    [requested] as [phoneNumber]. *)
Definition choose_phone_number (requested : value) : M response :=
  try_catch
    (rawNumbers <- client_list_phone_numbers requested (Some 20) ;;
     let selectedNumber := reformatTwilioPns rawNumbers in
     match selectedNumber with
     | [selected] =>
         s <- get_this ;;
         removePhoneWebhooks (phoneNumber (cliSettings s)) ;;
         modify_this (set_phoneNumber (Some selected)) ;;
         s <- get_this ;;
         updated <- updatePhoneWebhooks (phoneNumber (cliSettings s))
                                        (phoneNumberProps s) ;;
         modify_this (set_phoneNumber updated) ;;
         ret (mkResponse 200 (ChosenBody updated "Phone number updated!"))
     | _ =>
         console_log "Phone number not found!" ;;
         ret (mkResponse 400 (MessageBody "Phone number not found!"))
     end)
    (fun err => console_error err ;; ret (mkResponse 400 (ErrorBody err))).

(** The handler of [GET /client-token]: issue on first request. *)
Definition client_token : M response :=
  try_catch
    (s <- get_this ;;
     t <- match jwt s with
          | Some t => ret t
          | None => t <- createJwt ;; modify_this (set_jwt t) ;; ret t
          end ;;
     ret (mkResponse 200 (TokenBody t)))
    (fun err => ret (mkResponse 400 (ErrorBody err))).

(** ** The process and its signal handlers

    [run] ends by registering one handler for [SIGTERM] and one for
    [SIGINT], both

      [console.log("Shutting down");
       await onShutdown().finally(() => process.exit(0));]

    A handler runs up to the first [await] of [onShutdown], the list
    request of the first sweep, and is parked there; it is resumed when
    what it awaits has settled, runs to the next step, and so on.  The
    steps of [onShutdown] are taken one at a time: the effects of a step
    happen when the handler parked at it is resumed.  Between two steps
    the event loop may dispatch other events, among them a further
    signal.  Once [onShutdown] is through, or has thrown, the [finally]
    callback ends the process with status 0. *)

Record process : Type := mkProcess {
  pworld : world;
  exit_code : option nat;            (* [Some c]: the process has exited *)
  parked : list nat;                 (* the step each pending handler waits for *)
  entered : nat;                     (* handler invocations started *)
  completed : nat                    (* invocations whose [onShutdown] has settled *)
}.

Definition with_world (w : world) (p : process) : process :=
  mkProcess w (exit_code p) (parked p) (entered p) (completed p).

Definition p_log (line : string) (p : process) : process :=
  with_world (mkWorld (this (pworld p)) (cloud (pworld p))
                      (console (pworld p) ++ [line]) (confirms (pworld p))) p.

Definition park (n : nat) (p : process) : process :=
  mkProcess (pworld p) (exit_code p) (parked p ++ [n]) (entered p) (completed p).

Definition unpark (i : nat) (p : process) : process :=
  mkProcess (pworld p) (exit_code p)
            (firstn i (parked p) ++ skipn (S i) (parked p))
            (entered p) (completed p).

Definition enter (p : process) : process :=
  mkProcess (pworld p) (exit_code p) (parked p) (S (entered p)) (completed p).

(** [.finally(() => process.exit(0))] *)
Definition finish (p : process) : process :=
  mkProcess (pworld p) (Some 0) (parked p) (entered p) (S (completed p)).

(** The handler of either signal, up to its first suspension. *)
Definition handler (p : process) : process :=
  park 0 (p_log "Shutting down" (enter p)).

(** The handler parked at position [i] is resumed: the step it waits for
    takes effect; then it is parked at the next step or, after the last
    step or an error, ends the process. *)
Definition settle (i : nat) (p : process) : process :=
  match nth_error (parked p) i with
  | None => p
  | Some n =>
      let p := unpark i p in
      match nth_error shutdown_steps n with
      | None => p
      | Some step =>
          match step (pworld p) with
          | (Ok _, w) =>
              if (S n <? length shutdown_steps)%nat
              then park (S n) (with_world w p)
              else finish (with_world w p)
          | (Throw _, w) => finish (with_world w p)
          end
      end
  end.

(** One turn of the event loop.  Nothing runs in an exited process. *)
Definition deliver (p : process) (ev : event) : process :=
  match exit_code p with
  | Some _ => p
  | None =>
      match ev with
      | Signal _ => handler p
      | Settle i => settle i p
      end
  end.

Definition deliver_all (p : process) (evs : list event) : process :=
  fold_left deliver evs p.

(** The process once [run] is through: handlers registered, server
    listening, nothing pending. *)
Definition serving (w : world) : process := mkProcess w None [] 0 0.

(** ** Observations on the remote *)

(** The remote resources of a kind whose label starts with [name]. *)
Definition session_resources (name : string) (k : kind) (r : remote) : list instance :=
  filter (labelled_with name) (resources k r).

(** The calls issued since the remote was [before]. *)
Definition new_calls (before after : remote) : list call :=
  skipn (length (calls before)) (calls after).

Definition is_unbind (c : call) : bool :=
  match c with
  | CallUpdatePhoneNumber _ props =>
      value_eqb (wh_voiceUrl props) (VStr "") && value_eqb (wh_smsUrl props) (VStr "") &&
      value_eqb (wh_statusCallback props) (VStr "")
  | _ => false
  end.

(** The calls that provision: everything but the listings, the removals
    and the unbinding of a phone number. *)
Definition is_provisioning (c : call) : bool :=
  match c with
  | CallList _ | CallRemove _ _ | CallListPhoneNumbers _ _ => false
  | CallUpdatePhoneNumber _ _ => negb (is_unbind c)
  | _ => true
  end.

Definition provisioning (cs : list call) : list call := filter is_provisioning cs.
Arguments provisioning : simpl never.

Definition removed_kind (c : call) : option kind :=
  match c with CallRemove k _ => Some k | _ => None end.

(** A call of the sweep of kind [k]: its listing or one of its removals. *)
Definition sweep_call (k : kind) (c : call) : Prop :=
  c = CallList k \/ exists s, c = CallRemove k s.

(** The calls of a sweep all of whose requests are served. *)
Definition sweep_calls (k : kind) (prefix : string) (r : remote) : list call :=
  CallList k ::
  map (fun item => CallRemove k (sid item)) (filter (labelled_with prefix) (resources k r)).

(** ** Concrete worlds used by the examples *)

Definition no_faults : nat -> bool := fun _ => false.

Definition empty_remote : remote := mkRemote [] [] [] [] [] [] 0 [] 0 no_faults.

(** A deployment that redeploys to the service of the same name when
    there is one, and creates the service otherwise; the domain carries
    the service's name.  Used only to instantiate [deploy] at concrete
    inputs. *)
Definition deploy0 (env : deploy_env) (n : nat) (services : list instance)
  : deployed * list instance :=
  match find (fun i => value_eqb (friendlyName i) (VStr (DEV_PHONE_NAME env))) services with
  | Some i =>
      (mkDeployed (sid i) (DEV_PHONE_NAME env ++ "-" ++ sid i ++ ".twil.io")%string,
       services)
  | None =>
      let s := ("ZS" ++ string_of_nat n)%string in
      (mkDeployed s (DEV_PHONE_NAME env ++ "-" ++ s ++ ".twil.io")%string,
       services ++ [mkInstance s (VStr (DEV_PHONE_NAME env)) VUndefined VUndefined])
  end.

(** Instances of the parameters: a URL counts as set when it is a
    non-empty string, every string is taken for a valid port, and the
    handlers have the names of their functions. *)
Definition utils0 : utils :=
  mkUtils url_is_set url_is_set (fun _ => true) (fun _ => 3000) 1337
          "incoming-call" "outbound-call" "incoming-message" "sync-call-history"
          "1.0.0" deploy0.

(** A number whose SMS webhook is set by someone else, and a free one. *)
Definition busy_number : number :=
  mkNumber "+15551234567" (VStr "main line") (VStr "https://example.com/sms")
           (VStr "") VNull "PN1".

Definition free_number : number :=
  mkNumber "+15557654321" (VStr "spare line") (VStr "") (VStr "") VNull "PN2".

Definition remote0 : remote :=
  mkRemote [] [] [] [] [] [busy_number; free_number] 0 [] 0 no_faults.

(** A fresh command object on an account with these two numbers, the CLI
    holding account credentials. *)
Definition world0 : world :=
  mkWorld (constructor "1234" account_profile (VStr "AC0") VUndefined) remote0 [] false.

Definition flags_free : flags_t := [ ("phone-number", VStr "+15557654321") ].


Definition flags_force : flags_t :=
  [ ("phone-number", VStr "+15551234567"); ("force", VBool true) ].

(** The world after a full provisioning run that binds the free number,
    and the token that run issues. *)
Definition provisioned0 : world := snd (run utils0 flags_free world0).

Definition token0 : AccessToken :=
  mkAccessToken (VStr "AC0") (VStr "SK0") (VStr "secret0") (VStr "dev-phone-1234")
                (24 * 60 * 60)%N
                [ ChatGrant (VStr "IS1"); VoiceGrant (VBool true) (VStr "AP7");
                  SyncGrant (VStr "IS4") ].

(** ** Notions used by the statements *)

(** The world after a request that was made and failed, and after one
    that was served. *)
Definition attempted (w : world) : world :=
  mkWorld (this w) (attempt (cloud w)) (console w) (confirms w).

Definition served (c : call) (w : world) : world :=
  mkWorld (this w) (record_call c (attempt (cloud w))) (console w) (confirms w).

(** A computation that changes the command object within [R], leaves the
    operator's answer alone, and is served calls satisfying [P] only. *)
Definition framed (R : server -> server -> Prop) (P : call -> Prop) {A} (m : M A)
  : Prop :=
  forall w,
    R (this w) (this (snd (m w))) /\
    confirms (snd (m w)) = confirms w /\
    exists cs, calls (cloud (snd (m w))) = calls (cloud w) ++ cs /\ Forall P cs.

(** A computation that never throws. *)
Definition total {A} (m : M A) : Prop := forall w, is_ok (fst (m w)) = true.

(** A computation that is one request: when it returns, exactly the call
    [c] has been served; when it throws, none has.  The command object is
    left alone. *)
Definition atomic {A} (c : call) (m : M A) : Prop :=
  forall w,
    this (snd (m w)) = this w /\ confirms (snd (m w)) = confirms w /\
    calls (cloud (snd (m w))) =
    calls (cloud w) ++ (if is_ok (fst (m w)) then [c] else []).

(** A call that provisions nothing. *)
Definition quiet (c : call) : Prop := is_provisioning c = false.

(** [this.twimlApp.sid] *)
Definition twimlApp_sid (s : server) : value :=
  match twimlApp s with
  | Has app => VStr (sid app)
  | _ => VUndefined
  end.

(** The token the specification describes: the session name as identity,
    a validity window of 24 hours, and exactly three grants: messaging on
    the conversation service, voice on the TwiML app with incoming calls
    allowed, call history on the sync service. *)
Definition token_as_specified (s : server) (t : AccessToken) : Prop :=
  tok_identity t = VStr (devPhoneName s) /\
  tok_ttl t = (24 * 60 * 60)%N /\
  exists ref app sy,
    conversation s = Some ref /\
    twimlApp s = Has app /\
    sync s = Some sy /\
    tok_grants t =
      [ ChatGrant (VStr (serviceSid ref));
        VoiceGrant (VBool true) (VStr (sid app));
        SyncGrant (VStr (sid sy)) ].

(** The URLs [createFunction] derives from a deployment. *)
Definition backend_urls (U : utils) (d : deployed) (s : server) : server :=
  set_urls (backend_url (dep_domain d) (INCOMING_CALL_HANDLER U))
           (backend_url (dep_domain d) (INCOMING_MESSAGE_HANDLER U))
           (backend_url (dep_domain d) (OUTBOUND_CALL_HANDLER U))
           (backend_url (dep_domain d) (SYNC_CALL_HISTORY U)) s.

(** The webhooks [run] binds the chosen number to. *)
Definition binding_props (U : utils) (d : deployed) : webhooks :=
  mkWebhooks (backend_url (dep_domain d) (INCOMING_CALL_HANDLER U))
             (backend_url (dep_domain d) (INCOMING_MESSAGE_HANDLER U))
             (backend_url (dep_domain d) (SYNC_CALL_HISTORY U)).

(** The provisioning calls of a run, in the order of [run]: the API key
    (unless the profile of the CLI holds one), the conversation service
    with its conversation and participant, the sync service with its
    call-log map, the deployment of the backend, the TwiML app, and the
    binding of the phone number (if one is chosen). *)
Definition provisioning_sequence (U : utils) (name : string) (keyFromProfile : bool)
    (ref : conversation_ref) (sy : instance) (d : deployed) (bound : option view)
  : list call :=
  (if keyFromProfile then [] else [ CallCreate Keys (VStr name) VUndefined ]) ++
  [ CallCreate ConversationServices (VStr name) VUndefined;
    CallCreateConversation (serviceSid ref) (VStr name);
    CallCreateParticipant (serviceSid ref) (conv_sid ref) name;
    CallCreate SyncServices (VStr name) VUndefined;
    CallCreateSyncMap (sid sy) CALL_LOG_MAP_NAME;
    CallDeploy (mkEnv (sid sy) (conv_sid ref) (serviceSid ref) name (version U)
                      CALL_LOG_MAP_NAME);
    CallCreate Applications (VStr name)
               (backend_url (dep_domain d) (OUTBOUND_CALL_HANDLER U)) ] ++
  match bound with
  | Some v => [ CallUpdatePhoneNumber (view_sid v) (binding_props U d) ]
  | None => []
  end.




Definition kind_eq_dec (a b : kind) : {a = b} + {a <> b}.
Proof. decide equality. Defined.

(** An account in good order: it serves every request, the sids of its
    resources of a kind are distinct, and every label is a string or
    null. *)
Definition healthy (r : remote) : Prop :=
  (forall n, faults r n = false) /\
  (forall k, NoDup (map sid (resources k r))) /\
  (forall k item, In item (resources k r) ->
     friendlyName item = VNull \/ exists s, friendlyName item = VStr s).

(** The same, as far as the resources of the kind [k] go. *)
Definition healthy_at (k : kind) (r : remote) : Prop :=
  (forall n, faults r n = false) /\
  NoDup (map sid (resources k r)) /\
  (forall item, In item (resources k r) ->
     friendlyName item = VNull \/ exists s, friendlyName item = VStr s).

(** A computation that leaves alone which requests the account fails and
    changes each of its resource lists within [Q]. *)
Definition bounded (Q : kind -> list instance -> list instance -> Prop) {A} (m : M A)
  : Prop :=
  forall w,
    faults (cloud (snd (m w))) = faults (cloud w) /\
    forall k, Q k (resources k (cloud w)) (resources k (cloud (snd (m w)))).

(** The list of a kind outside [ks] is left as it is. *)
Definition confined (ks : list kind) (k : kind) (l l' : list instance) : Prop :=
  ~ In k ks -> l' = l.

(** Resources are removed, none is added or changed. *)
Definition shrunk (k : kind) (l l' : list instance) : Prop :=
  exists p, l' = filter p l.

(** The account [r'] is [r] after a sweep of kind [k] on [prefix] all of
    whose requests were served. *)
Definition swept (k : kind) (prefix : string) (r r' : remote) : Prop :=
  resources k r' = filter (fun i => negb (labelled_with prefix i)) (resources k r) /\
  (forall k', k' <> k -> resources k' r' = resources k' r) /\
  incomingPhoneNumbers r' = incomingPhoneNumbers r /\
  faults r' = faults r /\
  calls r' = calls r ++ sweep_calls k prefix r.

(** The number of signals among the events. *)
Definition count_signals (evs : list event) : nat :=
  length (filter (fun ev => match ev with Signal _ => true | Settle _ => false end) evs).

(** C9 as the specification has it: whatever is delivered, the drain is
    entered at most once. *)
Definition drains_at_most_once (w : world) (evs : list event) : Prop :=
  entered (deliver_all (serving w) evs) <= 1.

(** What the event loop maintains: a running process has completed no
    drain and every drain entered is pending at one of the steps; an
    exited process has exited with status 0 on the completion of one
    drain. *)
Definition loop_invariant (p : process) : Prop :=
  match exit_code p with
  | None =>
      completed p = 0 /\ length (parked p) = entered p /\
      Forall (fun n => n < length shutdown_steps) (parked p)
  | Some c => c = 0 /\ completed p = 1
  end.

(** The world with the line the handler prints first. *)
Definition shutting_down (w : world) : world :=
  mkWorld (this w) (cloud w) (console w ++ ["Shutting down"]) (confirms w).

(** The unbinding call of a drain on a served account: none without a
    chosen number, and none for a number the account does not hold. *)
Definition unbind_calls (s : server) (r : remote) : list call :=
  match phoneNumber (cliSettings s) with
  | Some v =>
      if existsb (number_has_sid (view_sid v)) (incomingPhoneNumbers r)
      then [ CallUpdatePhoneNumber (view_sid v) no_webhooks ]
      else []
  | None => []
  end.

(** The calls of a drain on an account in good order. *)
Definition drain_calls (s : server) (r : remote) : list call :=
  sweep_calls ConversationServices (devPhoneName s) r ++
  sweep_calls Applications (devPhoneName s) r ++
  (if twilioCliIsConfiguredWithApiKey s then []
   else sweep_calls Keys (devPhoneName s) r) ++
  sweep_calls SyncServices (devPhoneName s) r ++
  sweep_calls ServerlessServices (devPhoneName s) r ++
  unbind_calls s r.

(** The kinds in the order in which [run] creates them. *)
Definition creation_order : list kind :=
  [ Keys; ConversationServices; SyncServices; ServerlessServices; Applications ].

(** C2 as the specification has it: the drain first unbinds, then removes
    the session's resources in reverse order of creation, then exits with
    status 0. *)
Definition drain_as_specified (before : remote) (after : process) : Prop :=
  exists unbind sweeps,
    new_calls before (cloud (pworld after)) = unbind :: sweeps /\
    is_unbind unbind = true /\
    filter_map removed_kind sweeps = rev creation_order /\
    exit_code after = Some 0.

(** The kinds a drain sweeps whatever the profile holds. *)
Definition swept_kinds : list kind :=
  [ ConversationServices; Applications; SyncServices; ServerlessServices ].

(** A number without webhooks. *)
Definition unbound (n : number) : Prop :=
  num_smsUrl n = VStr "" /\ num_voiceUrl n = VStr "" /\ num_statusCallback n = VStr "".

(** The removals among the calls, as pairs of kind and sid. *)
Fixpoint removals (cs : list call) : list (kind * string) :=
  match cs with
  | [] => []
  | CallRemove k s :: rest => (k, s) :: removals rest
  | _ :: rest => removals rest
  end.

(** C4 as the specification has it: of two runs in a row under the same
    session name, the second removes every resource the first has left
    under that name, of every kind but the credential. *)
Definition replaces_on_rerun (U : utils) (flags : flags_t) (w : world) : Prop :=
  let w1 := snd (run U flags w) in
  let w2 := snd (run U flags w1) in
  forall k item,
    k <> Keys ->
    In item (session_resources (devPhoneName (this w)) k (cloud w1)) ->
    In (CallRemove k (sid item)) (new_calls (cloud w1) (cloud w2)).

(** What identifies the session in the command object. *)
Definition same_session (s s' : server) : Prop :=
  devPhoneName s' = devPhoneName s /\
  currentProfile s' = currentProfile s /\
  configProfile s' = configProfile s /\
  accountSid s' = accountSid s.

End Ts.

(* ================================================================== *)
(** * Properties *)

(** ** The destroy methods *)

(** No SDK instance has a property spelled [friendlyname]. *)
Lemma prop_friendlyname_undefined (item : instance) :
  prop item "friendlyname" = VUndefined.
Proof. reflexivity. Qed.

Lemma is_dev_phone_item_false (item : instance) :
  is_dev_phone_item item = Ok false.
Proof.
  unfold is_dev_phone_item. now rewrite prop_friendlyname_undefined.
Qed.

(** Hence the filter of the destroy methods keeps nothing. *)
Lemma filter_keeps_nothing (items : list instance) :
  filterM is_dev_phone_item items = Ok [].
Proof.
  induction items as [|item rest IH]; [reflexivity|].
  cbn [filterM]. now rewrite is_dev_phone_item_false, IH.
Qed.

(** A request either fails and leaves the account as it is, or is
    served and recorded. *)
Lemma request_run (c : call) (w : world) :
  request c w =
  if next_fails (cloud w)
  then (Throw server_error, mkWorld (this w) (attempt (cloud w)) (console w))
  else (Ok tt, mkWorld (this w) (record_call c (attempt (cloud w))) (console w)).
Proof.
  unfold request, bind, get_cloud, modify_cloud, throw.
  now destruct (next_fails (cloud w)).
Qed.

(** The shared body only lists: when the list call is served, its one
    effect is the recorded call. *)
Lemma list_filter_remove_run (k : kind) (w : world) :
  list_filter_remove k w =
  if next_fails (cloud w)
  then (Throw server_error, mkWorld (this w) (attempt (cloud w)) (console w))
  else (Ok tt,
        mkWorld (this w) (record_call (CallList k) (attempt (cloud w))) (console w)).
Proof.
  unfold list_filter_remove, client_list, bind. rewrite request_run.
  destruct (next_fails (cloud w)); [reflexivity|].
  unfold get_cloud, ret, lift. cbn [fst snd cloud].
  now rewrite filter_keeps_nothing.
Qed.

Lemma resources_record_call (k : kind) (c : call) (r : remote) :
  resources k (record_call c r) = resources k r.
Proof. now destruct k. Qed.

Lemma resources_attempt (k : kind) (r : remote) :
  resources k (attempt r) = resources k r.
Proof. now destruct k. Qed.

Lemma preserves_bind {A B C} (obs : remote -> C) (m : M A) (k : M B) :
  preserves obs m -> preserves obs k -> preserves obs (m ;; k).
Proof.
  intros Hm Hk w. unfold bind. specialize (Hm w).
  destruct (m w) as [[a|e] w1]; cbn in *; [|exact Hm].
  now rewrite (Hk w1).
Qed.

Lemma list_filter_remove_preserves (k k' : kind) :
  preserves (resources k') (list_filter_remove k).
Proof.
  intro w. rewrite list_filter_remove_run.
  destruct (next_fails (cloud w)); cbn [snd cloud];
    now rewrite ?resources_record_call, resources_attempt.
Qed.

Lemma destroyConversations_preserves (k : kind) :
  preserves (resources k) destroyConversations.
Proof. apply list_filter_remove_preserves. Qed.

Lemma destroySyncs_preserves (k : kind) :
  preserves (resources k) destroySyncs.
Proof. apply list_filter_remove_preserves. Qed.

Lemma destroyTwimlApps_preserves (k : kind) :
  preserves (resources k) destroyTwimlApps.
Proof.
  unfold destroyTwimlApps. apply preserves_bind; [easy|].
  apply list_filter_remove_preserves.
Qed.

Lemma destroyApiKeys_preserves (k : kind) :
  preserves (resources k) destroyApiKeys.
Proof.
  intro w. unfold destroyApiKeys, bind, get_this.
  destruct (twilioCliIsConfiguredWithApiKey (this w)); [reflexivity|].
  apply list_filter_remove_preserves.
Qed.

(** The whole sweep removes nothing, whatever the remote holds and
    whichever of its requests fail. *)
Lemma destroySession_removes_nothing (k : kind) :
  preserves (resources k) destroySession.
Proof.
  unfold destroySession.
  apply preserves_bind; [apply destroyConversations_preserves|].
  apply preserves_bind; [apply destroyTwimlApps_preserves|].
  apply preserves_bind; [apply destroyApiKeys_preserves|].
  apply destroySyncs_preserves.
Qed.

(** ** Provisioning *)

Lemma skipn_length_app {A} (l l' : list A) : skipn (length l) (l ++ l') = l'.
Proof. induction l as [|x l IH]; [reflexivity|exact IH]. Qed.

Lemma new_calls_app (r r' : remote) (cs : list call) :
  calls r' = calls r ++ cs -> new_calls r r' = cs.
Proof. intro H. unfold new_calls. rewrite H. apply skipn_length_app. Qed.

Lemma creations_app (l l' : list call) :
  creations (l ++ l') = creations l ++ creations l'.
Proof. apply filter_app. Qed.

Lemma client_create_run (k : kind) (name url : value) (w : world) :
  client_create k name url w =
  if next_fails (cloud w)
  then (Throw server_error, mkWorld (this w) (attempt (cloud w)) (console w))
  else
    let r := record_call (CallCreate k name url) (attempt (cloud w)) in
    let item := new_instance k name url r in
    (Ok item,
     mkWorld (this w) (bump (set_resources k (resources k r ++ [item]) r)) (console w)).
Proof.
  unfold client_create, bind. rewrite request_run.
  now destruct (next_fails (cloud w)).
Qed.

(** Closes the cases of a create method: nothing created on a failure,
    one instance appended on success. *)
Ltac close_creation_step :=
  cbn; rewrite <- ?app_assoc;
  repeat match goal with
         | |- _ /\ _ => split
         | |- exists cs, _ ++ ?l = _ ++ cs /\ _ => exists l
         | |- exists cs, ?l = ?l ++ cs /\ _ => exists []; rewrite app_nil_r
         end; reflexivity.

Lemma createConversation_step :
  creation_step Conversations VUndefined createConversation.
Proof.
  intro w. unfold createConversation, destroyConversations, bind, console_log, get_this, ret.
  rewrite list_filter_remove_run.
  destruct (next_fails (cloud w)); [close_creation_step|].
  cbn [this cloud console]. rewrite client_create_run. cbn [this cloud console].
  destruct (next_fails _); close_creation_step.
Qed.

Lemma createSync_step : creation_step SyncServices VUndefined createSync.
Proof.
  intro w. unfold createSync, destroySyncs, bind, console_log, get_this, ret.
  rewrite list_filter_remove_run. cbn [this cloud console].
  destruct (next_fails (cloud w)); [close_creation_step|].
  cbn [this cloud console]. rewrite client_create_run. cbn [this cloud console].
  destruct (next_fails _); close_creation_step.
Qed.

Lemma createTwimlApp_step :
  creation_step Applications (VStr outbound_call_url) createTwimlApp.
Proof.
  intro w. unfold createTwimlApp, destroyTwimlApps, bind, console_log, get_this, ret.
  rewrite list_filter_remove_run. cbn [this cloud console].
  destruct (next_fails (cloud w)); [close_creation_step|].
  cbn [this cloud console]. rewrite client_create_run. cbn [this cloud console].
  destruct (next_fails _); close_creation_step.
Qed.

(** The API-key step: nothing is requested when the profile holds an API
    key; otherwise it behaves as a create method, and stores the new key
    in the profile. *)
Lemma reuseOrCreateApiKey_step (w : world) :
  match reuseOrCreateApiKey w with
  | (Ok _, w') =>
      devPhoneName (this w') = devPhoneName (this w) /\
      calls (cloud w') = calls (cloud w) ++
        (if twilioCliIsConfiguredWithApiKey (this w) then []
         else [ CallList Keys;
                CallCreate Keys (VStr (devPhoneName (this w))) VUndefined ])
  | (Throw _, w') =>
      devPhoneName (this w') = devPhoneName (this w) /\
      exists cs, calls (cloud w') = calls (cloud w) ++ cs /\ creations cs = []
  end.
Proof.
  unfold reuseOrCreateApiKey, destroyApiKeys, bind, get_this, console_log, ret.
  destruct (twilioCliIsConfiguredWithApiKey (this w)) eqn:E.
  - cbn. now rewrite app_nil_r.
  - cbn [this cloud console]. rewrite E. rewrite list_filter_remove_run.
    cbn [this cloud console].
    destruct (next_fails (cloud w)); [close_creation_step|].
    cbn [this cloud console]. rewrite client_create_run. cbn [this cloud console].
    destruct (next_fails _); close_creation_step.
Qed.

(** [createJwt] reads the state and leaves it as it is. *)
Lemma createJwt_pure (w : world) : snd (createJwt w) = w.
Proof.
  unfold createJwt, bind, get_this, sid_of, lift, ret, throw.
  destruct (conversation (cliSettings (this w))); [|reflexivity].
  destruct (sync (cliSettings (this w))); [|reflexivity].
  now destruct (new_AccessToken _ _ _ _).
Qed.

(** The validation only looks phone numbers up and caches the answer. *)
Lemma validatePropsAndFlags_effect (isSmsUrlSet isVoiceUrlSet : value -> bool)
    (flags : flags_t) (w : world) :
  let w1 := snd (validatePropsAndFlags isSmsUrlSet isVoiceUrlSet flags w) in
  devPhoneName (this w1) = devPhoneName (this w) /\
  currentProfile (this w1) = currentProfile (this w) /\
  (forall k, resources k (cloud w1) = resources k (cloud w)) /\
  exists cs, calls (cloud w1) = calls (cloud w) ++ cs /\ creations cs = [].
Proof.
  unfold validatePropsAndFlags.
  destruct (truthy (flag flags "phone-number")).
  - unfold client_list_phone_numbers, bind. rewrite request_run.
    destruct (next_fails (cloud w)).
    + cbn. split; [reflexivity|]. split; [reflexivity|].
      split; [intro k; now destruct k|]. exists []. now rewrite app_nil_r.
    + cbv beta iota delta [get_cloud ret modify_this throw fst snd].
      cbn [this cloud console].
      destruct (filter _ _) as [|first rest].
      * cbn. split; [reflexivity|]. split; [reflexivity|].
        split; [intro k; now destruct k|]. eexists; split; reflexivity.
      * destruct (0 <? length (pnConfigAlreadySet isSmsUrlSet isVoiceUrlSet first))%nat;
          cbn; (split; [reflexivity|]; split; [reflexivity|];
                split; [intro k; now destruct k|]; eexists; split; reflexivity).
  - cbn. split; [reflexivity|]. split; [reflexivity|]. split; [reflexivity|].
    exists []. now rewrite app_nil_r.
Qed.

(** ** Teardown *)

(** C1 (defect of the code): the teardown sweep removes nothing.  On
    every remote, whichever requests it fails, the four sweeps leave the
    resources of every kind as they were, and so does the [SIGINT]
    handler, which leaves the whole account untouched.  In particular, on
    a fresh account a full provisioning run followed at once by the sweep
    returns normally and leaves all four resources of the session behind.
    The filter of the sweeps reads the property [friendlyname], which no
    instance has. *)
Theorem C1_teardown_leaves_session_resources :
  (forall (w : world) (k : kind),
     resources k (cloud (snd (destroySession w))) = resources k (cloud w)) /\
  (forall w : world,
     cloud (pworld (deliver module_scope (serving w) (Signal SIGINT))) = cloud w) /\
  fst (run url_is_set url_is_set [] world0) = Ok tt /\
  fst (destroySession provisioned0) = Ok tt /\
  map sid (all_session_resources "dev-phone-123456"
             (cloud (snd (destroySession provisioned0)))) =
    ["CH0"; "IS1"; "SK2"; "AP3"].
Proof.
  split; [intros w k; apply destroySession_removes_nothing|].
  split; [reflexivity|].
  vm_compute. repeat split.
Qed.

(** The same on every remote: whenever two calls of [createConversation]
    in a row return, the first one's conversation is still there next to
    the second one's, both labelled with the session name. *)
Lemma createConversation_twice (w : world) :
  match (createConversation ;; createConversation) w with
  | (Ok second, w') =>
      exists first,
        friendlyName first = VStr (devPhoneName (this w)) /\
        friendlyName second = VStr (devPhoneName (this w)) /\
        conversations (cloud w') = conversations (cloud w) ++ [first; second]
  | (Throw _, _) => True
  end.
Proof.
  unfold bind. pose proof (createConversation_step w) as S1.
  destruct (createConversation w) as [[first|e] w1]; [|exact I].
  destruct S1 as (T1 & F1 & R1 & _).
  pose proof (createConversation_step w1) as S2.
  destruct (createConversation w1) as [[second|e] w2]; [|exact I].
  destruct S2 as (_ & F2 & R2 & _). cbn [resources] in R1, R2.
  exists first. rewrite T1 in F2. rewrite R2, R1, <- app_assoc. now repeat split.
Qed.

(** Two runs in a row of [dev-phone.js] on a fresh account, the profile
    holding account credentials: the second run removes nothing and every
    kind ends with two resources under the session name. *)
Example legacy_second_run_duplicates :
  let w1 := snd (run url_is_set url_is_set [] world0) in
  let w2 := snd (run url_is_set url_is_set [] w1) in
  fst (run url_is_set url_is_set [] w1) = Ok tt /\
  map (fun k => map sid (session_resources "dev-phone-123456" k (cloud w2))) all_kinds =
    [ ["CH0"; "CH4"]; ["IS1"; "IS5"]; ["SK2"; "SK6"]; ["AP3"; "AP7"] ] /\
  filter_map removed_kind (new_calls (cloud w1) (cloud w2)) = [].
Proof. vm_compute. repeat split. Qed.

Lemma module_scope_unbound (f : string) :
  In f teardown_steps -> module_scope f = None.
Proof.
  intros [<-|[<-|[<-|[<-|[]]]]]; reflexivity.
Qed.

(** With the module's scope, the handler runs in one piece: it throws at
    its first teardown step, logs, and exits. *)
Lemma handler_module_scope (p : process) :
  handler module_scope p =
  handler_exit
    (p_log "destroyConversations is not defined"
           (p_log "Caught interrupt signal" (enter p))).
Proof. reflexivity. Qed.

(** ** Validation of the chosen phone number *)

Lemma already_set_nonempty isSmsUrlSet isVoiceUrlSet (first : phone) :
  (0 <? length (pnConfigAlreadySet isSmsUrlSet isVoiceUrlSet first))%nat =
  isSmsUrlSet (smsUrl first) || isVoiceUrlSet (pn_voiceUrl first).
Proof.
  unfold pnConfigAlreadySet.
  now destruct (isSmsUrlSet (smsUrl first)), (isVoiceUrlSet (pn_voiceUrl first)).
Qed.

(** How the validation runs once a number is given, the lookup is
    served, and the number is found. *)
Lemma validatePropsAndFlags_found isSmsUrlSet isVoiceUrlSet
    (flags : flags_t) (w : world) (number : string) (first : phone) (rest : list phone) :
  flag flags "phone-number" = VStr number ->
  number <> "" ->
  next_fails (cloud w) = false ->
  filter (fun p => String.eqb (phoneNumber p) number)
         (incomingPhoneNumbers (cloud w)) = first :: rest ->
  validatePropsAndFlags isSmsUrlSet isVoiceUrlSet flags w =
  let w1 := mkWorld (set_pns (first :: rest) (this w))
                    (record_call (CallListPhoneNumbers (Some number))
                                 (attempt (cloud w)))
                    (console w) in
  if isSmsUrlSet (smsUrl first) || isVoiceUrlSet (pn_voiceUrl first)
  then (Throw (TwilioCliError
                 (overwrite_message number
                    (pnConfigAlreadySet isSmsUrlSet isVoiceUrlSet first))), w1)
  else (Ok tt,
        mkWorld (set_phoneNumber (hd_error (reformatTwilioPns (first :: rest)))
                                 (this w1))
                (cloud w1) (console w1)).
Proof.
  intros Hflag Hne Hserved Hfound. unfold validatePropsAndFlags. rewrite Hflag.
  assert (Ht : truthy (VStr number) = true).
  { cbn. destruct (String.eqb_spec number ""); [contradiction|reflexivity]. }
  rewrite Ht.
  unfold client_list_phone_numbers, bind. rewrite request_run, Hserved.
  cbv beta iota delta [get_cloud ret modify_this throw to_string].
  cbn [this cloud fst snd].
  change (incomingPhoneNumbers
            (record_call (CallListPhoneNumbers (Some number)) (attempt (cloud w))))
    with (incomingPhoneNumbers (cloud w)).
  rewrite Hfound. rewrite already_set_nonempty.
  now destruct (isSmsUrlSet (smsUrl first) || isVoiceUrlSet (pn_voiceUrl first)).
Qed.

(** A number without configured webhooks passes and is cached. *)
Lemma validatePropsAndFlags_accepts isSmsUrlSet isVoiceUrlSet
    (flags : flags_t) (w : world) (number : string) (first : phone) (rest : list phone) :
  flag flags "phone-number" = VStr number ->
  number <> "" ->
  next_fails (cloud w) = false ->
  filter (fun p => String.eqb (phoneNumber p) number)
         (incomingPhoneNumbers (cloud w)) = first :: rest ->
  isSmsUrlSet (smsUrl first) || isVoiceUrlSet (pn_voiceUrl first) = false ->
  fst (validatePropsAndFlags isSmsUrlSet isVoiceUrlSet flags w) = Ok tt /\
  settings_phoneNumber
    (cliSettings (this (snd (validatePropsAndFlags isSmsUrlSet isVoiceUrlSet flags w)))) =
  Some (mkPnView (phoneNumber first) (pn_friendlyName first) (smsUrl first)
                 (pn_voiceUrl first)).
Proof.
  intros Hflag Hne Hserved Hfound Hset.
  rewrite (validatePropsAndFlags_found _ _ _ _ _ _ _ Hflag Hne Hserved Hfound).
  cbv zeta. rewrite Hset. split; reflexivity.
Qed.

(** ** The access token *)



(* ================================================================== *)
(** * Further properties of the command *)

(** ** Nothing is ever removed *)

Lemma filter_map_app {A B} (f : A -> option B) (l l' : list A) :
  filter_map f (l ++ l') = filter_map f l ++ filter_map f l'.
Proof.
  induction l as [|x l IH]; [reflexivity|].
  cbn. destruct (f x); cbn; now rewrite IH.
Qed.

Lemma only_adds_bind {A B} (m : M A) (k : A -> M B) :
  only_adds m -> (forall a, only_adds (k a)) -> only_adds (bind m k).
Proof.
  intros Hm Hk w. unfold bind. specialize (Hm w).
  destruct (m w) as [[a|e] w1]; cbn [snd] in *; [|exact Hm].
  destruct Hm as ((cs & Hc & Hr) & Hres).
  destruct (Hk a w1) as ((cs' & Hc' & Hr') & Hres').
  split.
  - exists (cs ++ cs'). rewrite Hc', Hc, <- app_assoc, filter_map_app, Hr, Hr'.
    now split.
  - intro k0. destruct (Hres k0) as (l & Hl). destruct (Hres' k0) as (l' & Hl').
    exists (l ++ l'). now rewrite Hl', Hl, <- app_assoc.
Qed.

(** A computation that leaves the account alone adds nothing at all. *)
Lemma only_adds_offline {A} (m : M A) :
  (forall w, cloud (snd (m w)) = cloud w) -> only_adds m.
Proof.
  intros H w. rewrite H. split.
  - exists []. now rewrite app_nil_r.
  - intro k. exists []. now rewrite app_nil_r.
Qed.

Lemma only_adds_try_catch {A} (m : M A) (h : error -> M A) :
  only_adds m -> (forall e, only_adds (h e)) -> only_adds (try_catch m h).
Proof.
  intros Hm Hh w. unfold try_catch. specialize (Hm w).
  destruct (m w) as [[a|e] w1]; cbn [snd] in *; [exact Hm|].
  destruct Hm as ((cs & Hc & Hr) & Hres).
  destruct (Hh e w1) as ((cs' & Hc' & Hr') & Hres').
  split.
  - exists (cs ++ cs'). rewrite Hc', Hc, <- app_assoc, filter_map_app, Hr, Hr'.
    now split.
  - intro k0. destruct (Hres k0) as (l & Hl). destruct (Hres' k0) as (l' & Hl').
    exists (l ++ l'). now rewrite Hl', Hl, <- app_assoc.
Qed.

Lemma only_adds_request (c : call) :
  removed_kind c = None -> only_adds (request c).
Proof.
  intros Hc w. rewrite request_run. destruct (next_fails (cloud w)); cbn [snd cloud].
  - split; [exists []; now rewrite app_nil_r|].
    intro k. exists []. now rewrite resources_attempt, app_nil_r.
  - split; [exists [c]; cbn; now rewrite Hc|].
    intro k. exists []. now rewrite resources_record_call, resources_attempt, app_nil_r.
Qed.

Lemma only_adds_list_filter_remove (k : kind) : only_adds (list_filter_remove k).
Proof.
  intro w. rewrite list_filter_remove_run.
  destruct (next_fails (cloud w)); cbn [snd cloud].
  - split; [exists []; now rewrite app_nil_r|].
    intro k0. exists []. now rewrite resources_attempt, app_nil_r.
  - split; [now exists [CallList k]|].
    intro k0. exists []. now rewrite resources_record_call, resources_attempt, app_nil_r.
Qed.

Lemma only_adds_client_create (k : kind) (name url : value) :
  only_adds (client_create k name url).
Proof.
  intro w. rewrite client_create_run.
  destruct (next_fails (cloud w)); cbn [snd cloud].
  - split; [exists []; now rewrite app_nil_r|].
    intro k0. exists []. now rewrite resources_attempt, app_nil_r.
  - split.
    + exists [CallCreate k name url]. split; [|reflexivity]. now destruct k.
    + intro k0. destruct k, k0; cbn; eexists; try reflexivity;
        now rewrite app_nil_r.
Qed.

Lemma only_adds_client_list_phone_numbers (number : option string) :
  only_adds (client_list_phone_numbers number).
Proof.
  unfold client_list_phone_numbers.
  apply only_adds_bind; [now apply only_adds_request|intros _].
  now apply only_adds_offline.
Qed.

(** Decomposes a monadic program into its requests. *)
Ltac only_adds_step :=
  match goal with
  | |- only_adds (bind _ _) => apply only_adds_bind; [|intro]
  | |- only_adds (try_catch _ _) => apply only_adds_try_catch; [|intro]
  | |- only_adds (list_filter_remove _) => apply only_adds_list_filter_remove
  | |- only_adds (client_create _ _ _) => apply only_adds_client_create
  | |- only_adds (client_list_phone_numbers _) =>
      apply only_adds_client_list_phone_numbers
  | |- only_adds (if ?b then _ else _) => destruct b
  | |- only_adds (match ?x with _ => _ end) => destruct x
  | |- only_adds _ => now apply only_adds_offline
  end.

Lemma only_adds_destroyApiKeys : only_adds destroyApiKeys.
Proof. unfold destroyApiKeys. repeat only_adds_step. Qed.

Lemma only_adds_destroyTwimlApps : only_adds destroyTwimlApps.
Proof. unfold destroyTwimlApps. repeat only_adds_step. Qed.

Lemma only_adds_createConversation : only_adds createConversation.
Proof. unfold createConversation, destroyConversations. repeat only_adds_step. Qed.

Lemma only_adds_createSync : only_adds createSync.
Proof. unfold createSync, destroySyncs. repeat only_adds_step. Qed.

Lemma only_adds_createTwimlApp : only_adds createTwimlApp.
Proof.
  unfold createTwimlApp.
  apply only_adds_bind; [now apply only_adds_offline|intros _].
  apply only_adds_bind; [apply only_adds_destroyTwimlApps|intros _].
  repeat only_adds_step.
Qed.

Lemma only_adds_reuseOrCreateApiKey : only_adds reuseOrCreateApiKey.
Proof.
  unfold reuseOrCreateApiKey.
  apply only_adds_bind; [now apply only_adds_offline|intro s].
  destruct (twilioCliIsConfiguredWithApiKey s); [repeat only_adds_step|].
  apply only_adds_bind; [now apply only_adds_offline|intros _].
  apply only_adds_bind; [apply only_adds_destroyApiKeys|intros _].
  repeat only_adds_step.
Qed.

Lemma only_adds_createJwt : only_adds createJwt.
Proof. apply only_adds_offline. intro w. now rewrite createJwt_pure. Qed.

Lemma only_adds_validatePropsAndFlags isSmsUrlSet isVoiceUrlSet (flags : flags_t) :
  only_adds (validatePropsAndFlags isSmsUrlSet isVoiceUrlSet flags).
Proof. unfold validatePropsAndFlags. cbv zeta. repeat only_adds_step. Qed.

Lemma only_adds_run isSmsUrlSet isVoiceUrlSet (flags : flags_t) :
  only_adds (run isSmsUrlSet isVoiceUrlSet flags).
Proof.
  unfold run.
  apply only_adds_bind; [now apply only_adds_offline|intros _].
  apply only_adds_bind; [apply only_adds_validatePropsAndFlags|intros _].
  apply only_adds_bind; [now apply only_adds_offline|intro s].
  apply only_adds_bind; [now apply only_adds_offline|intros _].
  apply only_adds_bind; [apply only_adds_createConversation|intro c].
  apply only_adds_bind; [now apply only_adds_offline|intros _].
  apply only_adds_bind; [apply only_adds_createSync|intro sy].
  apply only_adds_bind; [now apply only_adds_offline|intros _].
  apply only_adds_bind; [apply only_adds_reuseOrCreateApiKey|intro k].
  apply only_adds_bind; [now apply only_adds_offline|intros _].
  apply only_adds_bind; [apply only_adds_createTwimlApp|intro app].
  apply only_adds_bind; [now apply only_adds_offline|intros _].
  apply only_adds_bind; [apply only_adds_createJwt|intro t].
  now apply only_adds_offline.
Qed.

(** X1: provisioning never removes anything.  Whatever the flags, the
    account and the requests the remote fails, [run] is served no removal
    request, and every resource list of the account at its end is the
    list at its start with instances appended: although each create
    method sweeps first, no resource of this or of an earlier session is
    ever taken away. *)
Theorem run_never_removes isSmsUrlSet isVoiceUrlSet (flags : flags_t) (w : world) :
  let w' := snd (run isSmsUrlSet isVoiceUrlSet flags w) in
  filter_map removed_kind (new_calls (cloud w) (cloud w')) = [] /\
  forall k, exists added, resources k (cloud w') = resources k (cloud w) ++ added.
Proof.
  destruct (only_adds_run isSmsUrlSet isVoiceUrlSet flags w) as ((cs & Hc & Hr) & Hres).
  cbv zeta. split; [|exact Hres].
  now rewrite (new_calls_app _ _ _ Hc).
Qed.

(** ** What a run that returns leaves behind *)

Lemma createJwt_returns (w w' : world) (t : AccessToken) :
  createJwt w = (Ok t, w') ->
  exists conv sy,
    conversation (cliSettings (this w)) = Some conv /\
    sync (cliSettings (this w)) = Some sy /\
    tok_identity t = VStr (devPhoneName (this w)) /\
    tok_keySid t = key_sid (apikey (this w)) /\
    tok_grants t =
      [ ChatGrant (VStr (sid conv)); VoiceGrant (VBool true) (twimlApp_sid (this w));
        SyncGrant (VStr (sid sy)) ].
Proof.
  unfold createJwt, bind, get_this, sid_of, lift, ret, throw, toJwt, twimlApp_sid.
  destruct (conversation (cliSettings (this w))) as [conv|]; [|discriminate].
  destruct (sync (cliSettings (this w))) as [sy|]; [|discriminate].
  unfold new_AccessToken.
  destruct (truthy (accountSid (this w))); [|discriminate].
  destruct (truthy (key_sid (apikey (this w)))); [|discriminate].
  destruct (truthy (key_secret (apikey (this w)))); [|discriminate].
  cbn. intro H. injection H as <- _. exists conv, sy. now repeat split.
Qed.

(** The API-key step touches the profile and nothing else of [this]. *)
Lemma reuseOrCreateApiKey_this (w w' : world) (k : apikey_t) :
  reuseOrCreateApiKey w = (Ok k, w') ->
  exists p, this w' = set_currentProfile p (this w).
Proof.
  unfold reuseOrCreateApiKey, destroyApiKeys, bind, get_this, console_log, ret.
  destruct (twilioCliIsConfiguredWithApiKey (this w)) eqn:E.
  - intro H. injection H as _ <-. exists (currentProfile (this w)).
    cbn. now destruct (this w).
  - cbn [this cloud console]. rewrite E, list_filter_remove_run.
    cbn [this cloud console].
    destruct (next_fails (cloud w)); [discriminate|].
    cbn [this cloud console]. rewrite client_create_run. cbn [this cloud console].
    destruct (next_fails _); [discriminate|].
    cbn. intro H. injection H as _ <-. eexists. reflexivity.
Qed.

Lemma grown_In {A} (m : M A) (w : world) (k : kind) (item : instance) :
  only_adds m -> In item (resources k (cloud w)) ->
  In item (resources k (cloud (snd (m w)))).
Proof.
  intros Hm Hin. destruct (Hm w) as (_ & Hres). destruct (Hres k) as (l & ->).
  apply in_or_app. now left.
Qed.

(** X2: a run that returns has filled the command object, consistently
    with the account.  The conversation, the sync service and the TwiML
    app it stores are labelled with the session name and are on the
    account at the end of the run; the stored token has the session name
    as identity, is signed with the stored API key, and its three grants
    name exactly the stored conversation, TwiML app and sync service; and
    [GET /plugin-settings] then shows that conversation and sync service
    under the session name. *)
Theorem run_fully_provisions isSmsUrlSet isVoiceUrlSet (flags : flags_t) (w : world) :
  is_ok (fst (run isSmsUrlSet isVoiceUrlSet flags w)) = true ->
  let w' := snd (run isSmsUrlSet isVoiceUrlSet flags w) in
  fully_provisioned (devPhoneName (this w)) w' /\
  exists ps,
    fst (plugin_settings w') = Ok ps /\
    ps_conversation ps = conversation (cliSettings (this w')) /\
    ps_sync ps = sync (cliSettings (this w')) /\
    ps_devPhoneName ps = devPhoneName (this w).
Proof.
  cbv zeta. unfold run, super_run.
  cbv beta iota delta [bind get_this console_log modify_this].
  match goal with |- context [validatePropsAndFlags _ _ _ ?W] =>
    pose proof (validatePropsAndFlags_effect isSmsUrlSet isVoiceUrlSet flags W) as H;
    destruct (validatePropsAndFlags isSmsUrlSet isVoiceUrlSet flags W) as [[u|e] w1] end;
    cbn [fst snd is_ok this devPhoneName set_currentProfile] in *; [|discriminate].
  destruct H as (N1 & _).
  (* the conversation *)
  match goal with |- context [createConversation ?W] =>
    pose proof (createConversation_step W) as S2;
    destruct (createConversation W) as [[c|e] w2] end;
    cbn [this cloud console fst snd is_ok] in *; [|discriminate].
  destruct S2 as (T2 & F2 & R2 & _).
  assert (I2 : In c (resources Conversations (cloud w2)))
    by (rewrite R2; apply in_or_app; right; now left).
  (* the sync service *)
  match goal with |- context [createSync ?W] =>
    pose proof (createSync_step W) as S3;
    pose proof (grown_In createSync W Conversations c only_adds_createSync I2) as I3;
    destruct (createSync W) as [[sy|e] w3] end;
    cbn [this cloud console fst snd is_ok devPhoneName set_conversation] in *;
    [|discriminate].
  destruct S3 as (T3 & F3 & R3 & _).
  assert (J3 : In sy (resources SyncServices (cloud w3)))
    by (rewrite R3; apply in_or_app; right; now left).
  (* the API key *)
  match goal with |- context [reuseOrCreateApiKey ?W] =>
    pose proof (fun k w' => reuseOrCreateApiKey_this W w' k) as T4;
    pose proof (grown_In reuseOrCreateApiKey W Conversations c
                  only_adds_reuseOrCreateApiKey I3) as I4;
    pose proof (grown_In reuseOrCreateApiKey W SyncServices sy
                  only_adds_reuseOrCreateApiKey J3) as J4;
    destruct (reuseOrCreateApiKey W) as [[k|e] w4] end;
    cbn [this cloud console fst snd is_ok] in *; [|discriminate].
  destruct (T4 k w4 eq_refl) as (p & T4'). clear T4.
  (* the TwiML app *)
  match goal with |- context [createTwimlApp ?W] =>
    pose proof (createTwimlApp_step W) as S5;
    pose proof (grown_In createTwimlApp W Conversations c
                  only_adds_createTwimlApp I4) as I5;
    pose proof (grown_In createTwimlApp W SyncServices sy
                  only_adds_createTwimlApp J4) as J5;
    destruct (createTwimlApp W) as [[app|e] w5] end;
    cbn [this cloud console fst snd is_ok] in *; [|discriminate].
  destruct S5 as (T5 & F5 & R5 & _).
  assert (K5 : In app (resources Applications (cloud w5)))
    by (rewrite R5; apply in_or_app; right; now left).
  (* the token *)
  match goal with |- context [createJwt ?W] =>
    pose proof (createJwt_pure W) as E6;
    pose proof (fun t w' => createJwt_returns W w' t) as S6;
    destruct (createJwt W) as [[t|e] w6] end;
    cbn [fst snd is_ok] in *; [|discriminate].
  subst w6. intros _.
  destruct (S6 t _ eq_refl) as (conv & sy' & Ec & Es & Hid & Hkey & Hgr). clear S6.
  rewrite T5, T4', T3, T2 in Ec, Es, Hid, Hkey, Hgr.
  unfold twimlApp_sid in Hgr.
  cbn in Ec, Es, Hid, Hkey, Hgr. injection Ec as <-. injection Es as <-.
  repeat (cbn in F5; rewrite ?T4', ?T3, ?T2, ?N1 in F5).
  repeat (cbn in F3; rewrite ?T2, ?N1 in F3).
  rewrite N1 in F2, Hid.
  assert (Hthis : this w5 =
                  set_apikey k (set_currentProfile p
                                  (set_sync sy (set_conversation c (this w1)))))
    by (now rewrite T5, T4', T3, T2).
  split.
  - exists c, sy, app, t. cbn [this cloud]. rewrite Hthis. cbn.
    repeat split; assumption.
  - eexists. unfold plugin_settings, bind, get_this, ret. cbn [this fst].
    rewrite Hthis. cbn. now rewrite N1.
Qed.

Lemma run_fully_provisions_witness :
  fully_provisioned "dev-phone-123456" provisioned0.
Proof.
  apply (run_fully_provisions url_is_set url_is_set [] world0).
  vm_compute. reflexivity.
Defined.

(** ** The API key *)

(** X3: the state in which [reuseOrCreateApiKey] returns a key.  In the
    world [w'] it returns in, the profile counts as configured with an
    API key and the returned key is the one the profile holds; called in
    that world, [destroyApiKeys] returns at once and changes nothing, and
    [reuseOrCreateApiKey] hands out the same key again, leaving the
    command object and the account as they are.  This is a statement
    about [w'] only: the [super.run()] at the start of a later [run]
    reloads the profile, after which a further key is created
    ([legacy_second_run_duplicates]). *)
Theorem reuseOrCreateApiKey_once (w w' : world) (k : apikey_t) :
  reuseOrCreateApiKey w = (Ok k, w') ->
  twilioCliIsConfiguredWithApiKey (this w') = true /\
  k = mkApikey (VStr (apiKey (currentProfile (this w'))))
               (apiSecret (currentProfile (this w'))) /\
  destroyApiKeys w' = (Ok tt, w') /\
  fst (reuseOrCreateApiKey w') = Ok k /\
  this (snd (reuseOrCreateApiKey w')) = this w' /\
  cloud (snd (reuseOrCreateApiKey w')) = cloud w'.
Proof.
  intro H.
  assert (Hk : twilioCliIsConfiguredWithApiKey (this w') = true /\
               k = mkApikey (VStr (apiKey (currentProfile (this w'))))
                            (apiSecret (currentProfile (this w')))).
  { revert H.
    unfold reuseOrCreateApiKey, destroyApiKeys, bind, get_this, console_log, ret.
    destruct (twilioCliIsConfiguredWithApiKey (this w)) eqn:E.
    - intro H. injection H as <- <-. now split.
    - cbn [this cloud console]. rewrite E, list_filter_remove_run.
      cbn [this cloud console].
      destruct (next_fails (cloud w)); [discriminate|].
      cbn [this cloud console]. rewrite client_create_run. cbn [this cloud console].
      destruct (next_fails _); [discriminate|].
      cbn. intro H. injection H as <- <-.
      split; [unfold twilioCliIsConfiguredWithApiKey, startsWith; cbn|reflexivity].
      now destruct (NilEmpty.string_of_uint _). }
  destruct Hk as (Hconf & ->).
  split; [exact Hconf|]. split; [reflexivity|].
  unfold reuseOrCreateApiKey, destroyApiKeys, bind, get_this, console_log, ret.
  rewrite Hconf. cbn. repeat split.
Qed.

Lemma reuseOrCreateApiKey_once_witness :
  twilioCliIsConfiguredWithApiKey
    (this (snd (reuseOrCreateApiKey world0))) = true /\
  mkApikey (VStr "SK0") (VStr "secret0") =
  mkApikey (VStr (apiKey (currentProfile (this (snd (reuseOrCreateApiKey world0))))))
           (apiSecret (currentProfile (this (snd (reuseOrCreateApiKey world0))))) /\
  destroyApiKeys (snd (reuseOrCreateApiKey world0)) =
    (Ok tt, snd (reuseOrCreateApiKey world0)) /\
  fst (reuseOrCreateApiKey (snd (reuseOrCreateApiKey world0))) =
    Ok (mkApikey (VStr "SK0") (VStr "secret0")) /\
  this (snd (reuseOrCreateApiKey (snd (reuseOrCreateApiKey world0)))) =
    this (snd (reuseOrCreateApiKey world0)) /\
  cloud (snd (reuseOrCreateApiKey (snd (reuseOrCreateApiKey world0)))) =
    cloud (snd (reuseOrCreateApiKey world0)).
Proof.
  apply (reuseOrCreateApiKey_once world0).
  vm_compute. reflexivity.
Defined.

(** ** The token route *)

(** X4: [GET /client-token] issues once and then repeats itself.  A
    request that is answered stores the token it sends, never touches the
    account, and every later request is answered with the same token
    without changing anything; a request that fails has changed nothing
    either, so it can simply be repeated. *)
Theorem client_token_cached (w : world) :
  match client_token w with
  | (Ok t, w') =>
      jwt (this w') = Some t /\ cloud w' = cloud w /\
      client_token w' = (Ok t, w')
  | (Throw _, w') => w' = w
  end.
Proof.
  unfold client_token, bind, get_this, ret.
  destruct (jwt (this w)) as [t|] eqn:E.
  - rewrite E. now repeat split.
  - pose proof (createJwt_pure w) as P.
    destruct (createJwt w) as [[t|e] w1]; cbn [snd] in P; subst w1; [|reflexivity].
    unfold modify_this. cbn. now repeat split.
Qed.

(** ** The phone-number route *)

(** The three ways [GET /phone-numbers] runs: from the cache, by a served
    lookup, by a failed one. *)
Lemma phone_numbers_run (err_data : error -> err_data_t) (w : world) :
  phone_numbers err_data w =
  match pns (this w) with
  | _ :: _ =>
      (Ok (mkHttp 200 (PhoneNumbersBody (reformatTwilioPns (pns (this w))))), w)
  | [] =>
      if next_fails (cloud w)
      then (respond (error_status err_data server_error) (ErrorBody server_error),
            mkWorld (this w) (attempt (cloud w))
                    (console w ++ ["APIs throwed an error Internal Server Error"]))
      else (Ok (mkHttp 200 (PhoneNumbersBody
                              (reformatTwilioPns (incomingPhoneNumbers (cloud w))))),
            mkWorld (set_pns (incomingPhoneNumbers (cloud w)) (this w))
                    (record_call (CallListPhoneNumbers None) (attempt (cloud w)))
                    (console w))
  end.
Proof.
  unfold phone_numbers. unfold bind at 1. unfold get_this at 1. cbv beta iota.
  destruct (pns (this w)) as [|first rest] eqn:E; cbn [length Nat.eqb].
  - unfold try_catch, client_list_phone_numbers, bind. rewrite request_run.
    destruct (next_fails (cloud w)); reflexivity.
  - unfold ret. now destruct w.
Qed.

(** X5: what [GET /phone-numbers] answers.  With numbers in the cache
    it answers 200 from the cache; with an empty cache and a served
    lookup it answers 200 with what the lookup found.  When the lookup
    throws [e], nothing is cached, and the answer depends on what [e]
    carries under [data]: without [data] the route sends [{ error: e }]
    under status 400; with a [data.status] that is a valid HTTP status it
    sends [{ error: e }] under that status; and with a [data] whose
    [status] is missing or is no valid HTTP status the route itself throws
    and sends nothing. *)
Theorem phone_numbers_outcome (err_data : error -> err_data_t) (w : world) :
  let out := phone_numbers err_data w in
  match pns (this w), client_list_phone_numbers None w with
  | _ :: _, _ =>
      out = (Ok (mkHttp 200 (PhoneNumbersBody (reformatTwilioPns (pns (this w))))), w)
  | [], (Ok found, _) =>
      fst out = Ok (mkHttp 200 (PhoneNumbersBody (reformatTwilioPns found))) /\
      pns (this (snd out)) = found
  | [], (Throw e, _) =>
      pns (this (snd out)) = [] /\
      match err_data e with
      | NoData => fst out = Ok (mkHttp 400 (ErrorBody e))
      | Data (Some st) =>
          if ((100 <=? st) && (st <=? 999))%nat
          then fst out = Ok (mkHttp st (ErrorBody e))
          else is_ok (fst out) = false
      | Data None => is_ok (fst out) = false
      end
  end.
Proof.
  cbv zeta. rewrite phone_numbers_run.
  destruct (pns (this w)) as [|first rest] eqn:E; [|reflexivity].
  unfold client_list_phone_numbers, bind. rewrite request_run.
  destruct (next_fails (cloud w)); cbn [fst snd this cloud pns set_pns].
  - split; [exact E|]. unfold error_status, respond.
    destruct (err_data server_error) as [|[st|]]; [reflexivity| |reflexivity].
    now destruct ((100 <=? st) && (st <=? 999))%nat.
  - split; reflexivity.
Qed.

(** X6: the list of phone numbers is fetched once.  After an answer that
    lists at least one number, every later request gets the same answer
    from the cache without any request to the account, whatever the
    account holds by then. *)
Theorem phone_numbers_cached (err_data : error -> err_data_t)
    (w w' : world) (r : http_response) (first : pn_view) (rest : list pn_view) :
  phone_numbers err_data w = (Ok r, w') ->
  http_body_of r = PhoneNumbersBody (first :: rest) ->
  forall (later : remote) (out : list string),
    phone_numbers err_data (mkWorld (this w') later out) =
    (Ok r, mkWorld (this w') later out).
Proof.
  rewrite phone_numbers_run. intros H Hbody later out. rewrite phone_numbers_run.
  cbn [this cloud console].
  destruct (pns (this w)) as [|p ps] eqn:E.
  - destruct (next_fails (cloud w)).
    { injection H as H _. unfold respond in H.
      destruct (error_status err_data server_error) as [st|]; [|discriminate H].
      destruct ((100 <=? st) && (st <=? 999))%nat; [|discriminate H].
      injection H as <-. discriminate Hbody. }
    injection H as <- <-.
    cbn in Hbody |- *.
    destruct (incomingPhoneNumbers (cloud w)) as [|q qs]; [discriminate Hbody|].
    reflexivity.
  - injection H as <- <-. now rewrite E.
Qed.

Lemma phone_numbers_cached_witness :
  phone_numbers no_data
    (mkWorld (this (snd (phone_numbers no_data world_two_numbers))) empty_remote []) =
  (Ok (mkHttp 200
         (PhoneNumbersBody
            (reformatTwilioPns (incomingPhoneNumbers (cloud world_two_numbers))))),
   mkWorld (this (snd (phone_numbers no_data world_two_numbers))) empty_remote []).
Proof.
  apply (phone_numbers_cached no_data world_two_numbers
           (snd (phone_numbers no_data world_two_numbers)) _
           (mkPnView "+15550000001" (VStr "line") (VStr "") (VStr ""))
           [mkPnView "+15550000002" (VStr "line") (VStr "") (VStr "")]).
  - vm_compute. reflexivity.
  - vm_compute. reflexivity.
Defined.

(** X7: an account without phone numbers is looked up again on every
    request.  The cache marks "not fetched yet" by being empty, so with
    no number on the account each request to the route makes one more
    request to the remote and leaves the cache empty. *)
Theorem phone_numbers_empty_account (err_data : error -> err_data_t) (w : world) :
  pns (this w) = [] ->
  incomingPhoneNumbers (cloud w) = [] ->
  let w' := snd (phone_numbers err_data w) in
  attempts (cloud w') = S (attempts (cloud w)) /\
  pns (this w') = [] /\
  incomingPhoneNumbers (cloud w') = [].
Proof.
  intros Hc Ha. cbv zeta. rewrite phone_numbers_run, Hc.
  destruct (next_fails (cloud w)); cbn; rewrite ?Ha; now repeat split.
Qed.

Lemma phone_numbers_empty_account_witness :
  attempts (cloud (snd (phone_numbers no_data world0))) = 1 /\
  pns (this (snd (phone_numbers no_data world0))) = [] /\
  incomingPhoneNumbers (cloud (snd (phone_numbers no_data world0))) = [].
Proof.
  apply (phone_numbers_empty_account no_data world0); reflexivity.
Defined.

(** ** The phone-number flag *)

(** X8: a number chosen by flag narrows the phone-number route.  When the
    validation accepts the flag, it caches the first match as the chosen
    number and keeps the matches of the lookup in [pns]; [GET
    /phone-numbers] then answers from these, so it lists the matches of
    the flag only, not the numbers of the account, and asks the remote
    nothing. *)
Theorem flag_narrows_phone_numbers isSmsUrlSet isVoiceUrlSet
    (err_data : error -> err_data_t)
    (flags : flags_t) (w : world) (number : string) (first : phone) (rest : list phone) :
  flag flags "phone-number" = VStr number ->
  number <> "" ->
  next_fails (cloud w) = false ->
  filter (fun p => String.eqb (phoneNumber p) number)
         (incomingPhoneNumbers (cloud w)) = first :: rest ->
  isSmsUrlSet (smsUrl first) || isVoiceUrlSet (pn_voiceUrl first) = false ->
  let w' := snd (validatePropsAndFlags isSmsUrlSet isVoiceUrlSet flags w) in
  settings_phoneNumber (cliSettings (this w')) =
    hd_error (reformatTwilioPns (first :: rest)) /\
  phone_numbers err_data w' =
    (Ok (mkHttp 200 (PhoneNumbersBody (reformatTwilioPns (first :: rest)))), w').
Proof.
  intros Hflag Hne Hserved Hfound Hset. cbv zeta.
  rewrite (validatePropsAndFlags_found _ _ _ _ _ _ _ Hflag Hne Hserved Hfound).
  cbv zeta. rewrite Hset. cbn [snd]. split; [reflexivity|].
  rewrite phone_numbers_run. reflexivity.
Qed.

Lemma flag_narrows_phone_numbers_witness :
  let w' := snd (validatePropsAndFlags url_is_set url_is_set flags_second
                   world_two_numbers) in
  settings_phoneNumber (cliSettings (this w')) =
    hd_error (reformatTwilioPns [free_number "+15550000002" "PN2"]) /\
  phone_numbers no_data w' =
    (Ok (mkHttp 200 (PhoneNumbersBody
                       (reformatTwilioPns [free_number "+15550000002" "PN2"]))), w').
Proof.
  apply (flag_narrows_phone_numbers url_is_set url_is_set no_data flags_second
           world_two_numbers "+15550000002" (free_number "+15550000002" "PN2") []).
  - reflexivity.
  - discriminate.
  - reflexivity.
  - reflexivity.
  - reflexivity.
Defined.

(** X9: a number that is not on the account is refused.  When the lookup
    is served and finds nothing, the validation throws the CLI error that
    names the number; the chosen number stays as it was, no resource has
    been touched, and the list [pns] has been emptied. *)
Theorem unknown_number_is_refused isSmsUrlSet isVoiceUrlSet
    (flags : flags_t) (w : world) (number : string) :
  flag flags "phone-number" = VStr number ->
  number <> "" ->
  next_fails (cloud w) = false ->
  filter (fun p => String.eqb (phoneNumber p) number)
         (incomingPhoneNumbers (cloud w)) = [] ->
  let out := validatePropsAndFlags isSmsUrlSet isVoiceUrlSet flags w in
  fst out =
    Throw (TwilioCliError
             ("The phone number " ++ number ++
              " is not associated with your Twilio account")) /\
  pns (this (snd out)) = [] /\
  settings_phoneNumber (cliSettings (this (snd out))) =
    settings_phoneNumber (cliSettings (this w)) /\
  forall k, resources k (cloud (snd out)) = resources k (cloud w).
Proof.
  intros Hflag Hne Hserved Hfound. cbv zeta. unfold validatePropsAndFlags.
  rewrite Hflag.
  assert (Ht : truthy (VStr number) = true).
  { cbn. destruct (String.eqb_spec number ""); [contradiction|reflexivity]. }
  rewrite Ht.
  unfold client_list_phone_numbers, bind. rewrite request_run, Hserved.
  cbv beta iota delta [get_cloud ret modify_this throw to_string].
  cbn [this cloud fst snd].
  change (incomingPhoneNumbers
            (record_call (CallListPhoneNumbers (Some number)) (attempt (cloud w))))
    with (incomingPhoneNumbers (cloud w)).
  rewrite Hfound. cbn.
  split; [reflexivity|]. split; [reflexivity|]. split; [reflexivity|].
  intro k. now destruct k.
Qed.

Lemma unknown_number_is_refused_witness :
  let out := validatePropsAndFlags url_is_set url_is_set flags_unknown
               world_two_numbers in
  fst out =
    Throw (TwilioCliError
             ("The phone number " ++ "+15559999999" ++
              " is not associated with your Twilio account")) /\
  pns (this (snd out)) = [] /\
  settings_phoneNumber (cliSettings (this (snd out))) =
    settings_phoneNumber (cliSettings (this world_two_numbers)) /\
  forall k, resources k (cloud (snd out)) = resources k (cloud world_two_numbers).
Proof.
  apply (unknown_number_is_refused url_is_set url_is_set flags_unknown
           world_two_numbers "+15559999999").
  - reflexivity.
  - discriminate.
  - reflexivity.
  - reflexivity.
Defined.

(** ** Failures of the remote *)

(** X11: a failed lookup changes nothing.  When a number is given by
    flag and the remote fails the lookup, the validation throws the
    remote's error and leaves the command object and the account as they
    were; unlike a lookup that finds nothing, it does not empty [pns]. *)
Theorem failed_lookup_changes_nothing isSmsUrlSet isVoiceUrlSet
    (flags : flags_t) (w : world) :
  truthy (flag flags "phone-number") = true ->
  next_fails (cloud w) = true ->
  let out := validatePropsAndFlags isSmsUrlSet isVoiceUrlSet flags w in
  fst out = Throw server_error /\
  this (snd out) = this w /\
  calls (cloud (snd out)) = calls (cloud w) /\
  incomingPhoneNumbers (cloud (snd out)) = incomingPhoneNumbers (cloud w) /\
  forall k, resources k (cloud (snd out)) = resources k (cloud w).
Proof.
  intros Ht Hf. cbv zeta. unfold validatePropsAndFlags. rewrite Ht.
  unfold client_list_phone_numbers, bind. rewrite request_run, Hf. cbn.
  split; [reflexivity|]. split; [reflexivity|]. split; [reflexivity|].
  split; [reflexivity|]. intro k. apply resources_attempt.
Qed.

Lemma failed_lookup_changes_nothing_witness :
  let out := validatePropsAndFlags url_is_set url_is_set flags_second world_down in
  fst out = Throw server_error /\
  this (snd out) = this world_down /\
  calls (cloud (snd out)) = calls (cloud world_down) /\
  incomingPhoneNumbers (cloud (snd out)) = incomingPhoneNumbers (cloud world_down) /\
  forall k, resources k (cloud (snd out)) = resources k (cloud world_down).
Proof.
  apply (failed_lookup_changes_nothing url_is_set url_is_set flags_second world_down);
    reflexivity.
Defined.

(** X12: the create methods are all or nothing.  Each of
    [createConversation], [createSync] and [createTwimlApp] either
    returns the new instance, labelled with the session name and appended
    to the account's list of its kind after exactly one served list call
    and one served create call, or throws and has added nothing to that
    list and sent no served create call; in both cases it leaves the
    command object as it was. *)
Theorem create_methods_all_or_nothing :
  creation_step Conversations VUndefined createConversation /\
  creation_step SyncServices VUndefined createSync /\
  creation_step Applications (VStr outbound_call_url) createTwimlApp.
Proof.
  split; [|split].
  - intro w. unfold createConversation, destroyConversations, bind, console_log,
      get_this, ret.
    rewrite list_filter_remove_run.
    destruct (next_fails (cloud w)); [close_creation_step|].
    cbn [this cloud console]. rewrite client_create_run. cbn [this cloud console].
    destruct (next_fails _); close_creation_step.
  - intro w. unfold createSync, destroySyncs, bind, console_log, get_this, ret.
    rewrite list_filter_remove_run. cbn [this cloud console].
    destruct (next_fails (cloud w)); [close_creation_step|].
    cbn [this cloud console]. rewrite client_create_run. cbn [this cloud console].
    destruct (next_fails _); close_creation_step.
  - intro w. unfold createTwimlApp, destroyTwimlApps, bind, console_log, get_this, ret.
    rewrite list_filter_remove_run. cbn [this cloud console].
    destruct (next_fails (cloud w)); [close_creation_step|].
    cbn [this cloud console]. rewrite client_create_run. cbn [this cloud console].
    destruct (next_fails _); close_creation_step.
Qed.

(* ================================================================== *)
(** * Properties of the TypeScript command *)

Module TsFacts.

Import Ts.
Local Open Scope ts_scope.

(** ** Requests *)

Lemma ts_request_run (c : call) (w : world) :
  request c w =
  if next_fails (cloud w) then (Throw server_error, attempted w) else (Ok tt, served c w).
Proof.
  unfold request, bind, get_cloud, modify_cloud, throw.
  now destruct (next_fails (cloud w)).
Qed.

Lemma ts_client_list_run (k : kind) (w : world) :
  client_list k w =
  if next_fails (cloud w)
  then (Throw server_error, attempted w)
  else (Ok (resources k (cloud w)), served (CallList k) w).
Proof.
  unfold client_list, bind. rewrite ts_request_run.
  destruct (next_fails (cloud w)); [reflexivity|].
  unfold get_cloud, ret, served. cbn. now destruct k.
Qed.

(** The account once the removal of [s] has been served. *)
Lemma ts_client_remove_run (k : kind) (s : string) (w : world) :
  client_remove k s w =
  if existsb (has_sid s) (resources k (cloud w)) then
    if next_fails (cloud w) then (Throw server_error, attempted w)
    else (Ok tt,
          mkWorld (this w)
                  (set_resources k
                     (filter (fun i => negb (has_sid s i)) (resources k (cloud w)))
                     (record_call (CallRemove k s) (attempt (cloud w))))
                  (console w) (confirms w))
  else (Throw not_found, attempted w).
Proof.
  unfold client_remove, bind, get_cloud, refused, modify_cloud, throw. cbn [fst snd].
  destruct (existsb (has_sid s) (resources k (cloud w))); [|reflexivity].
  rewrite ts_request_run. destruct (next_fails (cloud w)); [reflexivity|].
  unfold served. cbn. now destruct k.
Qed.

Lemma ts_client_create_run (k : kind) (name url : value) (w : world) :
  client_create k name url w =
  if next_fails (cloud w) then (Throw server_error, attempted w)
  else
    let r := record_call (CallCreate k name url) (attempt (cloud w)) in
    let item := new_instance k name url r in
    (Ok item,
     mkWorld (this w) (bump (set_resources k (resources k r ++ [item]) r))
             (console w) (confirms w)).
Proof.
  unfold client_create, bind. rewrite ts_request_run.
  now destruct (next_fails (cloud w)).
Qed.

Lemma ts_client_update_run (s : string) (props : webhooks) (w : world) :
  client_update_phone_number s props w =
  match find (number_has_sid s) (incomingPhoneNumbers (cloud w)) with
  | Some n =>
      if next_fails (cloud w) then (Throw server_error, attempted w)
      else (Ok (with_webhooks props n),
            mkWorld (this w)
                    (set_numbers
                       (map (fun n => if number_has_sid s n then with_webhooks props n
                                      else n)
                            (incomingPhoneNumbers (cloud w)))
                       (record_call (CallUpdatePhoneNumber s props) (attempt (cloud w))))
                    (console w) (confirms w))
  | None => (Throw not_found, attempted w)
  end.
Proof.
  unfold client_update_phone_number, bind, get_cloud, refused, modify_cloud, throw.
  cbn [fst snd].
  destruct (find (number_has_sid s) (incomingPhoneNumbers (cloud w))); [|reflexivity].
  rewrite ts_request_run. now destruct (next_fails (cloud w)).
Qed.

(** ** Frames *)

Section Frames.

Variable R : server -> server -> Prop.
Variable P : call -> Prop.
Hypothesis R_refl : forall s, R s s.
Hypothesis R_trans : forall s1 s2 s3, R s1 s2 -> R s2 s3 -> R s1 s3.

Lemma framed_offline {A} (m : M A) :
  (forall w, cloud (snd (m w)) = cloud w /\ this (snd (m w)) = this w /\
             confirms (snd (m w)) = confirms w) ->
  framed R P m.
Proof.
  intros H w. destruct (H w) as (Hc & Ht & Hf). rewrite Hc, Ht.
  split; [apply R_refl|]. split; [exact Hf|].
  exists []. now rewrite app_nil_r.
Qed.

Lemma framed_bind {A B} (m : M A) (k : A -> M B) :
  framed R P m -> (forall a, framed R P (k a)) -> framed R P (bind m k).
Proof.
  intros Hm Hk w. unfold bind. specialize (Hm w).
  destruct (m w) as [[a|e] w1]; cbn [snd] in *; [|exact Hm].
  destruct Hm as (Ht & Hf & cs & Hc & Hp).
  destruct (Hk a w1) as (Ht' & Hf' & cs' & Hc' & Hp').
  split; [eapply R_trans; eassumption|]. split; [congruence|].
  exists (cs ++ cs'). rewrite Hc', Hc, <- app_assoc. split; [reflexivity|].
  apply Forall_app. now split.
Qed.

Lemma framed_try_catch {A} (m : M A) (h : error -> M A) :
  framed R P m -> (forall e, framed R P (h e)) -> framed R P (try_catch m h).
Proof.
  intros Hm Hh w. unfold try_catch. specialize (Hm w).
  destruct (m w) as [[a|e] w1]; cbn [snd] in *; [exact Hm|].
  destruct Hm as (Ht & Hf & cs & Hc & Hp).
  destruct (Hh e w1) as (Ht' & Hf' & cs' & Hc' & Hp').
  split; [eapply R_trans; eassumption|]. split; [congruence|].
  exists (cs ++ cs'). rewrite Hc', Hc, <- app_assoc. split; [reflexivity|].
  apply Forall_app. now split.
Qed.

Lemma framed_finally {A} (m : M A) (f : M unit) :
  framed R P m -> framed R P f -> framed R P (finally m f).
Proof.
  intros Hm Hf w. unfold finally. specialize (Hm w).
  destruct (m w) as [[a|e] w1]; cbn [snd] in *;
    destruct Hm as (Ht & Hc0 & cs & Hc & Hp);
    specialize (Hf w1); destruct (f w1) as [[u|e'] w2]; cbn [snd] in *;
    destruct Hf as (Ht' & Hc0' & cs' & Hc' & Hp');
    (split; [eapply R_trans; eassumption|]; split; [congruence|];
     exists (cs ++ cs'); rewrite Hc', Hc, <- app_assoc; split; [reflexivity|];
     apply Forall_app; now split).
Qed.

Lemma framed_for_of {A} (items : list A) (body : A -> M unit) :
  (forall item, framed R P (body item)) -> framed R P (for_of items body).
Proof.
  intro H. induction items as [|item rest IH]; cbn [for_of].
  - now apply framed_offline.
  - apply framed_bind; [apply H|intros _; exact IH].
Qed.

Lemma framed_request (c : call) : P c -> framed R P (request c).
Proof.
  intros Hc w. rewrite ts_request_run.
  destruct (next_fails (cloud w)); cbn [snd this cloud confirms attempted served].
  - split; [apply R_refl|]. split; [reflexivity|]. exists []. now rewrite app_nil_r.
  - split; [apply R_refl|]. split; [reflexivity|]. exists [c]. split; [reflexivity|].
    now constructor.
Qed.

Lemma framed_client_list (k : kind) : P (CallList k) -> framed R P (client_list k).
Proof.
  intro H. unfold client_list.
  apply framed_bind; [now apply framed_request|intros _].
  now apply framed_offline.
Qed.

Lemma framed_client_remove (k : kind) (s : string) :
  P (CallRemove k s) -> framed R P (client_remove k s).
Proof.
  intros Hc w. rewrite ts_client_remove_run.
  destruct (existsb _ _); [destruct (next_fails (cloud w))|];
    cbn [snd this cloud confirms attempted].
  - split; [apply R_refl|]. split; [reflexivity|]. exists []. now rewrite app_nil_r.
  - split; [apply R_refl|]. split; [reflexivity|]. exists [CallRemove k s].
    split; [now destruct k|now constructor].
  - split; [apply R_refl|]. split; [reflexivity|]. exists []. now rewrite app_nil_r.
Qed.

Lemma framed_client_update (s : string) (props : webhooks) :
  P (CallUpdatePhoneNumber s props) -> framed R P (client_update_phone_number s props).
Proof.
  intros Hc w. rewrite ts_client_update_run.
  destruct (find _ _); [destruct (next_fails (cloud w))|];
    cbn [snd this cloud confirms attempted].
  - split; [apply R_refl|]. split; [reflexivity|]. exists []. now rewrite app_nil_r.
  - split; [apply R_refl|]. split; [reflexivity|]. exists [CallUpdatePhoneNumber s props].
    split; [reflexivity|now constructor].
  - split; [apply R_refl|]. split; [reflexivity|]. exists []. now rewrite app_nil_r.
Qed.

Lemma framed_client_list_phone_numbers (n : value) (limit : option nat) :
  P (CallListPhoneNumbers n limit) -> framed R P (client_list_phone_numbers n limit).
Proof.
  intro H. unfold client_list_phone_numbers.
  apply framed_bind; [now apply framed_request|intros _].
  now apply framed_offline.
Qed.

Lemma framed_modify_this (f : server -> server) :
  (forall s, R s (f s)) -> framed R P (modify_this f).
Proof.
  intros H w. cbn. split; [apply H|]. split; [reflexivity|].
  exists []. now rewrite app_nil_r.
Qed.

End Frames.

(** ** Composition *)

Lemma eq_server_trans (s1 s2 s3 : server) : s1 = s2 -> s2 = s3 -> s1 = s3.
Proof. congruence. Qed.

Lemma same_session_refl (s : server) : same_session s s.
Proof. now repeat split. Qed.

Lemma same_session_trans (s1 s2 s3 : server) :
  same_session s1 s2 -> same_session s2 s3 -> same_session s1 s3.
Proof. unfold same_session. intuition congruence. Qed.

Lemma total_try_catch {A} (m : M A) (h : error -> M A) :
  (forall e, total (h e)) -> total (try_catch m h).
Proof.
  intros H w. unfold try_catch. destruct (m w) as [[a|e] w1]; [reflexivity|apply H].
Qed.

Lemma total_bind {A B} (m : M A) (k : A -> M B) :
  total m -> (forall a, total (k a)) -> total (bind m k).
Proof.
  intros Hm Hk w. unfold bind. specialize (Hm w).
  destruct (m w) as [[a|e] w1]; [apply Hk|discriminate].
Qed.

Lemma total_finally {A} (m : M A) (f : M unit) : total m -> total f -> total (finally m f).
Proof.
  intros Hm Hf w. unfold finally. specialize (Hm w).
  destruct (m w) as [[a|e] w1]; [|discriminate].
  specialize (Hf w1). now destruct (f w1) as [[u|e] w2].
Qed.

(** Decomposes a program into its requests; the relation on the command
    object is equality or [same_session]. *)
Ltac frame_side :=
  match goal with
  | |- forall s : server, s = s => reflexivity
  | |- forall s : server, same_session s s => exact same_session_refl
  | |- forall s1 s2 s3 : server, s1 = s2 -> s2 = s3 -> s1 = s3 => exact eq_server_trans
  | |- forall s1 s2 s3 : server, same_session s1 s2 -> _ => exact same_session_trans
  end.

Ltac framed_leaf :=
  apply framed_offline; [frame_side|]; intro; cbn; repeat split; reflexivity.

Ltac framed_step :=
  match goal with
  | |- framed _ _ (bind _ _) => apply framed_bind; [frame_side| |intro]
  | |- framed _ _ (try_catch _ _) => apply framed_try_catch; [frame_side| |intro]
  | |- framed _ _ (finally _ _) => apply framed_finally; [frame_side| |]
  | |- framed _ _ (for_of _ _) => apply framed_for_of; try frame_side; intro
  | |- framed _ _ (client_list _) => apply framed_client_list; try frame_side
  | |- framed _ _ (client_remove _ _) => apply framed_client_remove; try frame_side
  | |- framed _ _ (client_update_phone_number _ _) =>
      apply framed_client_update; try frame_side
  | |- framed _ _ (client_list_phone_numbers _ _) =>
      apply framed_client_list_phone_numbers; try frame_side
  | |- framed _ _ (modify_this _) =>
      apply framed_modify_this; intro; now repeat split
  | |- framed _ _ (if ?b then _ else _) => destruct b
  | |- framed _ _ (match ?x with _ => _ end) => destruct x
  | |- framed _ _ _ => framed_leaf
  end.

(** ** The sweeps *)

Lemma ts_sweep_framed (P : call -> Prop) (k : kind) (prefix line : string) :
  P (CallList k) -> (forall s, P (CallRemove k s)) ->
  framed eq P (sweep k prefix line).
Proof.
  intros Hl Hr. unfold sweep, console_error.
  repeat framed_step; auto.
Qed.

Lemma ts_sweep_total (k : kind) (prefix line : string) : total (sweep k prefix line).
Proof. apply total_try_catch. intros e w. reflexivity. Qed.

Lemma sweep_call_list (k : kind) : sweep_call k (CallList k).
Proof. now left. Qed.

Lemma sweep_call_remove (k : kind) (s : string) : sweep_call k (CallRemove k s).
Proof. right. now exists s. Qed.

Lemma sweep_call_quiet (k : kind) (c : call) : sweep_call k c -> quiet c.
Proof. intros [->|(s & ->)]; reflexivity. Qed.

Lemma ts_destroyConversations_framed :
  framed eq (sweep_call ConversationServices) destroyConversations.
Proof.
  unfold destroyConversations. apply framed_bind; [frame_side|framed_leaf|intro s].
  apply ts_sweep_framed; [apply sweep_call_list|apply sweep_call_remove].
Qed.

Lemma ts_destroyTwimlApps_framed : framed eq (sweep_call Applications) destroyTwimlApps.
Proof.
  unfold destroyTwimlApps. apply framed_bind; [frame_side|framed_leaf|intro s].
  apply ts_sweep_framed; [apply sweep_call_list|apply sweep_call_remove].
Qed.

Lemma ts_destroyApiKeys_framed : framed eq (sweep_call Keys) destroyApiKeys.
Proof.
  unfold destroyApiKeys. apply framed_bind; [frame_side|framed_leaf|intro s].
  destruct (twilioCliIsConfiguredWithApiKey s); [framed_leaf|].
  apply ts_sweep_framed; [apply sweep_call_list|apply sweep_call_remove].
Qed.

Lemma ts_destroySyncs_framed : framed eq (sweep_call SyncServices) destroySyncs.
Proof.
  unfold destroySyncs. apply framed_bind; [frame_side|framed_leaf|intro s].
  apply ts_sweep_framed; [apply sweep_call_list|apply sweep_call_remove].
Qed.

Lemma ts_destroyFunction_framed :
  framed eq (sweep_call ServerlessServices) destroyFunction.
Proof.
  unfold destroyFunction. apply framed_bind; [frame_side|framed_leaf|intro s].
  apply ts_sweep_framed; [apply sweep_call_list|apply sweep_call_remove].
Qed.

Lemma ts_destroyConversations_total : total destroyConversations.
Proof. intro w. apply ts_sweep_total. Qed.

Lemma ts_destroyTwimlApps_total : total destroyTwimlApps.
Proof. intro w. apply ts_sweep_total. Qed.

Lemma ts_destroyApiKeys_total : total destroyApiKeys.
Proof.
  intro w. unfold destroyApiKeys, bind, get_this.
  destruct (twilioCliIsConfiguredWithApiKey (this w)); [reflexivity|apply ts_sweep_total].
Qed.

Lemma ts_destroySyncs_total : total destroySyncs.
Proof. intro w. apply ts_sweep_total. Qed.

Lemma ts_destroyFunction_total : total destroyFunction.
Proof. intro w. apply ts_sweep_total. Qed.

(** A framed computation under a weaker description of its calls. *)
Lemma framed_weaken {A} (R : server -> server -> Prop) (P Q : call -> Prop) (m : M A) :
  (forall c, P c -> Q c) -> framed R P m -> framed R Q m.
Proof.
  intros H Hm w. destruct (Hm w) as (Ht & Hf & cs & Hc & Hp).
  split; [exact Ht|]. split; [exact Hf|]. exists cs. split; [exact Hc|].
  eapply Forall_impl; eassumption.
Qed.

Lemma framed_eq_same_session {A} (P : call -> Prop) (m : M A) :
  framed eq P m -> framed same_session P m.
Proof.
  intros Hm w. destruct (Hm w) as (Ht & Hf & cs & Hc & Hp).
  split; [rewrite <- Ht; apply same_session_refl|]. split; [exact Hf|]. now exists cs.
Qed.

Lemma quiet_provisioning (cs : list call) : Forall quiet cs -> provisioning cs = [].
Proof.
  unfold provisioning. induction 1 as [|c cs Hc _ IH]; [reflexivity|].
  cbn. now rewrite Hc.
Qed.

Lemma provisioning_app (l l' : list call) :
  provisioning (l ++ l') = provisioning l ++ provisioning l'.
Proof. apply filter_app. Qed.

(** ** Unbinding and the clearing of the account *)

Lemma ts_removePhoneWebhooks_framed (pn : option view) :
  framed eq (fun c => is_unbind c = true) (removePhoneWebhooks pn).
Proof.
  unfold removePhoneWebhooks. destruct pn as [v|]; [|framed_leaf].
  repeat framed_step. reflexivity.
Qed.

Lemma unbind_quiet (c : call) : is_unbind c = true -> quiet c.
Proof.
  unfold quiet. destruct c; try discriminate. cbn [is_provisioning]. now intros ->.
Qed.

Lemma ts_removeAllPhoneWebhooks_framed : framed eq quiet removeAllPhoneWebhooks.
Proof.
  unfold removeAllPhoneWebhooks, console_error.
  apply framed_try_catch; [frame_side| |intro; framed_leaf].
  apply framed_bind; [frame_side| |intro pns].
  { repeat framed_step. reflexivity. }
  apply framed_bind; [frame_side|framed_leaf|intro mine].
  destruct (0 <? length mine)%nat; [|framed_leaf].
  apply framed_bind; [frame_side|framed_leaf|intros _].
  apply framed_for_of; try frame_side. intro pn.
  eapply framed_weaken; [exact unbind_quiet|apply ts_removePhoneWebhooks_framed].
Qed.

Lemma ts_sweep_quiet (k : kind) (prefix line : string) :
  framed eq quiet (sweep k prefix line).
Proof. apply ts_sweep_framed; reflexivity. Qed.

Lemma ts_deleteAll_framed : framed eq quiet deleteAll.
Proof.
  unfold deleteAll, destroyAllConversations, destroyAllTwimlApps, destroyAllApiKeys,
    destroyAllSyncs, destroyAllFunctions.
  repeat first [ apply ts_sweep_quiet | apply ts_removeAllPhoneWebhooks_framed
               | framed_step ].
Qed.

Lemma ts_deleteAll_total : total deleteAll.
Proof.
  unfold deleteAll, destroyAllConversations, destroyAllTwimlApps, destroyAllApiKeys,
    destroyAllSyncs, destroyAllFunctions.
  repeat (apply total_bind; [|intros _]);
    try apply ts_sweep_total.
  - intro w. unfold bind, get_this.
    destruct (twilioCliIsConfiguredWithApiKey (this w)); [reflexivity|apply ts_sweep_total].
  - apply total_try_catch. intros e w. reflexivity.
Qed.

Lemma ts_deleteAll_on_clear_framed (flags : flags_t) :
  framed eq quiet (deleteAll_on_clear flags).
Proof.
  unfold deleteAll_on_clear.
  repeat first [ apply ts_deleteAll_framed | framed_step ].
Qed.

Lemma ts_deleteAll_on_clear_total (flags : flags_t) : total (deleteAll_on_clear flags).
Proof.
  intro w. unfold deleteAll_on_clear.
  destruct (truthy (flag flags "clear")); [|reflexivity].
  unfold bind, get_confirmation. destruct (confirms w); [|reflexivity].
  cbn [console_log]. apply total_finally; [apply ts_deleteAll_total|].
  intro w'. reflexivity.
Qed.

(** ** The validation *)

Lemma ts_validatePropsAndFlags_framed (U : utils) (flags : flags_t) :
  framed same_session quiet (validatePropsAndFlags U flags).
Proof.
  unfold validatePropsAndFlags, console_error. cbv zeta.
  repeat framed_step; reflexivity.
Qed.

(** ** Single requests *)

Lemma ts_client_create_atomic (k : kind) (name url : value) :
  atomic (CallCreate k name url) (client_create k name url).
Proof.
  intro w. rewrite ts_client_create_run.
  destruct (next_fails (cloud w)); cbn; rewrite ?app_nil_r; now repeat split.
Qed.

(** What a served creation returns. *)
Lemma ts_client_create_item (k : kind) (name url : value) (w w' : world) (item : instance) :
  client_create k name url w = (Ok item, w') ->
  friendlyName item = name /\
  voiceUrl item = (match k with Applications => url | _ => VUndefined end) /\
  resources k (cloud w') = resources k (cloud w) ++ [item].
Proof.
  rewrite ts_client_create_run.
  destruct (next_fails (cloud w)); [discriminate|].
  cbv zeta. intro H. injection H as <- <-.
  split; [reflexivity|]. split; [reflexivity|]. now destruct k.
Qed.

Lemma ts_client_create_conversation_atomic (service : string) (name : value) :
  atomic (CallCreateConversation service name) (client_create_conversation service name).
Proof.
  intro w. unfold client_create_conversation, bind, get_cloud, refused, modify_cloud,
    throw, ret. cbn [fst snd].
  destruct (existsb _ _); [|cbn; now rewrite app_nil_r].
  rewrite ts_request_run.
  destruct (next_fails (cloud w)); cbn; rewrite ?app_nil_r; now repeat split.
Qed.

Lemma ts_client_create_participant_atomic (service conversation identity : string) :
  atomic (CallCreateParticipant service conversation identity)
         (client_create_participant service conversation identity).
Proof.
  intro w. unfold client_create_participant, bind, get_cloud, refused, modify_cloud,
    throw, ret. cbn [fst snd].
  destruct (existsb _ _); [|cbn; now rewrite app_nil_r].
  rewrite ts_request_run.
  destruct (next_fails (cloud w)); cbn; rewrite ?app_nil_r; now repeat split.
Qed.

Lemma ts_client_create_sync_map_atomic (service uniqueName : string) :
  atomic (CallCreateSyncMap service uniqueName)
         (client_create_sync_map service uniqueName).
Proof.
  intro w. unfold client_create_sync_map, bind, get_cloud, refused, modify_cloud,
    throw, ret. cbn [fst snd].
  destruct (existsb _ _); [|cbn; now rewrite app_nil_r].
  rewrite ts_request_run.
  destruct (next_fails (cloud w)); cbn; rewrite ?app_nil_r; now repeat split.
Qed.

Lemma ts_deployServerless_atomic (U : utils) (env : deploy_env) :
  atomic (CallDeploy env) (deployServerless U env).
Proof.
  intro w. unfold deployServerless, bind. rewrite ts_request_run.
  destruct (next_fails (cloud w)); cbn; rewrite ?app_nil_r; now repeat split.
Qed.

Lemma ts_client_update_atomic (s : string) (props : webhooks) :
  atomic (CallUpdatePhoneNumber s props) (client_update_phone_number s props).
Proof.
  intro w. rewrite ts_client_update_run.
  destruct (find _ _); [destruct (next_fails (cloud w))|];
    cbn; rewrite ?app_nil_r; now repeat split.
Qed.

(** ** The create methods *)

(** Runs the sweep that opens a create method. *)
Ltac run_sweep framed_lemma total_lemma :=
  match goal with
  | |- context [?m ?W] =>
      match type of (framed_lemma W) with
      | context [m W] =>
          let T := fresh "T" in let F := fresh "F" in let cs := fresh "cs" in
          let C := fresh "C" in let P := fresh "P" in let O := fresh "O" in
          let w1 := fresh "w" in let e := fresh "e" in
          destruct (framed_lemma W) as (T & F & cs & C & P);
          pose proof (total_lemma W) as O;
          destruct (m W) as [[[]|e] w1]; [|discriminate O];
          clear O; cbn [fst snd this cloud console confirms] in T, F, C;
          apply (Forall_impl _ (sweep_call_quiet _)) in P;
          apply quiet_provisioning in P
      end
  end.

(** Rewrites the calls of the goal's final world down to the initial one. *)
Ltac chain_calls :=
  repeat match goal with
         | H : calls (cloud _) = _ |- _ => rewrite H; clear H
         end;
  rewrite <- ?app_assoc; try reflexivity.

(** Runs one request of a create method. *)
Ltac run_atomic atomic_lemma :=
  match goal with
  | |- context [?m ?W] =>
      match type of (atomic_lemma W) with
      | context [m W] =>
          let T := fresh "T" in let F := fresh "F" in let C := fresh "C" in
          let a := fresh "a" in let e := fresh "e" in let w1 := fresh "w" in
          let E := fresh "E" in
          destruct (atomic_lemma W) as (T & F & C);
          destruct (m W) as [[a|e] w1] eqn:E;
          cbn [fst snd is_ok this cloud console confirms] in T, F, C
      end
  end.

Lemma ts_createTwimlApp_spec (w : world) :
  match createTwimlApp w with
  | (Ok r, w') =>
      this w' = this w /\ confirms w' = confirms w /\
      exists cs,
        calls (cloud w') = calls (cloud w) ++ cs /\
        match r with
        | Some app =>
            friendlyName app = VStr (devPhoneName (this w)) /\
            voiceUrl app = this_voiceOutboundUrl (this w) /\
            In app (applications (cloud w')) /\
            provisioning cs =
              [ CallCreate Applications (VStr (devPhoneName (this w)))
                           (this_voiceOutboundUrl (this w)) ]
        | None => provisioning cs = []
        end
  | (Throw _, _) => False
  end.
Proof.
  unfold createTwimlApp, bind, console_log.
  run_sweep ts_destroyTwimlApps_framed ts_destroyTwimlApps_total.
  unfold try_catch, get_this. cbn [fst snd this cloud console confirms].
  run_atomic (ts_client_create_atomic Applications (VStr (devPhoneName (this w0)))
                (this_voiceOutboundUrl (this w0))).
  - apply ts_client_create_item in E as (Hn & Hu & Hr).
    cbn. rewrite T0, <- T, F0. split; [reflexivity|]. split; [exact F|]. eexists.
    split; [chain_calls|].
    rewrite Hn, Hu, T. split; [reflexivity|]. split; [reflexivity|].
    split; [change (applications (cloud w1)) with (resources Applications (cloud w1));
            rewrite Hr; apply in_or_app; right; now left|].
    now rewrite provisioning_app, P.
  - cbn. rewrite T0, <- T, F0. split; [reflexivity|]. split; [exact F|]. exists cs.
    split; [chain_calls; now rewrite app_nil_r|exact P].
Qed.

Lemma ts_createSync_spec (w : world) :
  match createSync w with
  | (Ok r, w') =>
      this w' = this w /\ confirms w' = confirms w /\
      exists cs,
        calls (cloud w') = calls (cloud w) ++ cs /\
        match r with
        | Some sy =>
            friendlyName sy = VStr (devPhoneName (this w)) /\
            provisioning cs =
              [ CallCreate SyncServices (VStr (devPhoneName (this w))) VUndefined;
                CallCreateSyncMap (sid sy) CALL_LOG_MAP_NAME ]
        | None => True
        end
  | (Throw _, _) => False
  end.
Proof.
  unfold createSync, bind, console_log.
  run_sweep ts_destroySyncs_framed ts_destroySyncs_total.
  unfold try_catch, get_this. cbn [fst snd this cloud console confirms].
  run_atomic (ts_client_create_atomic SyncServices (VStr (devPhoneName (this w0)))
                VUndefined).
  2:{ cbn. rewrite T0, <- T, F0. split; [reflexivity|]. split; [exact F|]. eexists.
      split; [chain_calls|exact I]. }
  apply ts_client_create_item in E as (Hn & _ & _).
  cbn [fst snd this cloud console confirms].
  run_atomic (ts_client_create_sync_map_atomic (sid a) CALL_LOG_MAP_NAME).
  2:{ cbn. rewrite T1, T0, <- T, F1, F0. split; [reflexivity|]. split; [exact F|]. eexists.
      split; [chain_calls|exact I]. }
  cbn. rewrite T1, T0, <- T, F1, F0. split; [reflexivity|]. split; [exact F|]. eexists.
  split; [chain_calls|].
  rewrite Hn, T. split; [reflexivity|]. now rewrite provisioning_app, P.
Qed.

Lemma ts_createConversation_spec (w : world) :
  match createConversation w with
  | (Ok r, w') =>
      this w' = this w /\ confirms w' = confirms w /\
      exists cs,
        calls (cloud w') = calls (cloud w) ++ cs /\
        match r with
        | Some ref =>
            provisioning cs =
              [ CallCreate ConversationServices (VStr (devPhoneName (this w))) VUndefined;
                CallCreateConversation (serviceSid ref) (VStr (devPhoneName (this w)));
                CallCreateParticipant (serviceSid ref) (conv_sid ref)
                                      (devPhoneName (this w)) ]
        | None => True
        end
  | (Throw _, _) => False
  end.
Proof.
  unfold createConversation, bind, console_log.
  run_sweep ts_destroyConversations_framed ts_destroyConversations_total.
  unfold try_catch, get_this. cbn [fst snd this cloud console confirms].
  run_atomic (ts_client_create_atomic ConversationServices
                (VStr (devPhoneName (this w0))) VUndefined).
  2:{ cbn. rewrite T0, <- T, F0. split; [reflexivity|]. split; [exact F|]. eexists.
      split; [chain_calls|exact I]. }
  cbn [fst snd this cloud console confirms].
  run_atomic (ts_client_create_conversation_atomic (sid a) (VStr (devPhoneName (this w0)))).
  2:{ cbn. rewrite T1, T0, <- T, F1, F0. split; [reflexivity|]. split; [exact F|]. eexists.
      split; [chain_calls|exact I]. }
  cbn [fst snd this cloud console confirms].
  run_atomic (ts_client_create_participant_atomic (sid a) a0 (devPhoneName (this w0))).
  2:{ cbn. rewrite T2, T1, T0, <- T, F2, F1, F0. split; [reflexivity|]. split; [exact F|].
      eexists. split; [chain_calls|exact I]. }
  cbn. rewrite T2, T1, T0, <- T, F2, F1, F0. split; [reflexivity|]. split; [exact F|].
  eexists. split; [chain_calls|].
  rewrite T. now rewrite provisioning_app, P.
Qed.

Lemma set_currentProfile_same (s : server) : set_currentProfile (currentProfile s) s = s.
Proof. now destruct s. Qed.

Lemma ts_reuseOrCreateApiKey_spec (w : world) :
  match reuseOrCreateApiKey w with
  | (Ok r, w') =>
      (exists p, this w' = set_currentProfile p (this w)) /\ confirms w' = confirms w /\
      exists cs,
        calls (cloud w') = calls (cloud w) ++ cs /\
        match r with
        | Some _ =>
            provisioning cs =
              if twilioCliIsConfiguredWithApiKey (this w) then []
              else [ CallCreate Keys (VStr (devPhoneName (this w))) VUndefined ]
        | None => provisioning cs = []
        end
  | (Throw _, _) => False
  end.
Proof.
  unfold reuseOrCreateApiKey. unfold bind at 1. unfold get_this at 1. cbv beta iota.
  destruct (twilioCliIsConfiguredWithApiKey (this w)) eqn:Hconf.
  - cbn. split; [exists (currentProfile (this w)); now rewrite set_currentProfile_same|].
    split; [reflexivity|]. exists []. now rewrite app_nil_r.
  - unfold bind, console_log.
    run_sweep ts_destroyApiKeys_framed ts_destroyApiKeys_total.
    unfold try_catch, get_this. cbn [fst snd this cloud console confirms].
    run_atomic (ts_client_create_atomic Keys (VStr (devPhoneName (this w))) VUndefined).
    + cbn. rewrite T0, <- T, F0. split; [eexists; reflexivity|]. split; [exact F|].
      eexists. split; [chain_calls|]. now rewrite provisioning_app, P.
    + cbn. rewrite T0, <- T, F0.
      split; [exists (currentProfile (this w)); now rewrite set_currentProfile_same|].
      split; [exact F|]. exists cs. split; [chain_calls; now rewrite app_nil_r|exact P].
Qed.

Lemma ts_createFunction_spec (U : utils) (w : world) :
  match createFunction U w with
  | (Ok d, w') =>
      exists sy ref,
        sync (this w) = Some sy /\ conversation (this w) = Some ref /\
        this w' = backend_urls U d (this w) /\
        confirms w' = confirms w /\
        calls (cloud w') = calls (cloud w) ++
          [ CallDeploy (mkEnv (sid sy) (conv_sid ref) (serviceSid ref)
                              (devPhoneName (this w)) (version U) CALL_LOG_MAP_NAME) ]
  | (Throw _, _) => True
  end.
Proof.
  unfold createFunction, bind, console_log, get_this, read, ret, throw.
  cbn [fst snd this cloud console confirms].
  destruct (sync (this w)) as [sy|]; [|exact I].
  destruct (conversation (this w)) as [ref|]; [|exact I].
  run_atomic (ts_deployServerless_atomic U
                (mkEnv (sid sy) (conv_sid ref) (serviceSid ref) (devPhoneName (this w))
                       (version U) CALL_LOG_MAP_NAME)); [|exact I].
  cbn. exists sy, ref. rewrite T, F, C. now repeat split.
Qed.

(** [createJwt] reads the command object and changes nothing. *)
Lemma ts_createJwt_pure (w : world) : snd (createJwt w) = w.
Proof.
  unfold createJwt, bind, get_this, read, read_slot, lift, ret, throw.
  destruct (conversation (this w)); [|reflexivity].
  destruct (twimlApp (this w)); [| reflexivity |];
    (destruct (sync (this w)); [|reflexivity]);
    (destruct (apikey (this w)); [| reflexivity |]);
    cbn; now destruct (new_AccessToken _ _ _ _).
Qed.

(** The token [createJwt] returns, when it returns one. *)
Lemma ts_createJwt_returns (w w' : world) (t : AccessToken) :
  createJwt w = (Ok t, w') ->
  tok_identity t = VStr (devPhoneName (this w)) /\
  tok_ttl t = (24 * 60 * 60)%N /\
  twimlApp (this w) <> Undefined /\
  apikey (this w) <> Undefined /\
  exists ref sy,
    conversation (this w) = Some ref /\
    sync (this w) = Some sy /\
    tok_grants t =
      [ ChatGrant (VStr (serviceSid ref));
        VoiceGrant (VBool true) (twimlApp_sid (this w));
        SyncGrant (VStr (sid sy)) ].
Proof.
  unfold createJwt, bind, get_this, read, read_slot, lift, ret, throw, toJwt, twimlApp_sid.
  destruct (conversation (this w)) as [ref|]; [|discriminate].
  destruct (twimlApp (this w)) as [| |app]; [|discriminate|];
    (destruct (sync (this w)) as [sy|]; [|discriminate]);
    (destruct (apikey (this w)) as [| |key]; [|discriminate|]);
    unfold new_AccessToken;
    (destruct (truthy (accountSid (this w))); [|discriminate]);
    cbn [negb truthy]; try discriminate;
    (destruct (truthy (key_sid key)); [|discriminate]);
    (destruct (truthy (key_secret key)); [|discriminate]);
    cbn; intro H; injection H as <- _;
    (split; [reflexivity|]); (split; [reflexivity|]);
    (split; [discriminate|]); (split; [discriminate|]);
    exists ref, sy; now repeat split.
Qed.

Lemma ts_updatePhoneWebhooks_spec (pn : option view) (props : webhooks) (w : world) :
  match updatePhoneWebhooks pn props w with
  | (Ok r, w') =>
      this w' = this w /\ confirms w' = confirms w /\
      match pn with
      | None => r = None /\ calls (cloud w') = calls (cloud w)
      | Some v =>
          calls (cloud w') = calls (cloud w) ++ [CallUpdatePhoneNumber (view_sid v) props] /\
          exists v', r = Some v' /\ view_sid v' = view_sid v /\
                     view_smsUrl v' = wh_smsUrl props /\
                     view_voiceUrl v' = wh_voiceUrl props
      end
  | (Throw _, _) => True
  end.
Proof.
  unfold updatePhoneWebhooks. destruct pn as [v|]; [|now cbn].
  unfold bind. rewrite ts_client_update_run.
  destruct (find _ _) as [n|] eqn:Hfind; [|exact I].
  destruct (next_fails (cloud w)); [exact I|].
  cbn. split; [reflexivity|]. split; [reflexivity|]. split; [reflexivity|].
  eexists. split; [reflexivity|]. cbn.
  apply find_some in Hfind as (_ & Hsid). unfold number_has_sid in Hsid.
  apply String.eqb_eq in Hsid. now repeat split.
Qed.

(** ** A run that returns *)

Lemma ts_new_calls_app (r r' : remote) (cs : list call) :
  calls r' = calls r ++ cs -> new_calls r r' = cs.
Proof. intro H. unfold new_calls. rewrite H. apply skipn_length_app. Qed.

Lemma ts_run_returns (U : utils) (flags : flags_t) (w : world) :
  is_ok (fst (run U flags w)) = true ->
  let w' := snd (run U flags w) in
  exists key ref sy d app t,
    devPhoneName (this w') = devPhoneName (this w) /\
    apikey (this w') = Has key /\
    conversation (this w') = Some ref /\
    sync (this w') = Some sy /\
    serverless (this w') = Some d /\
    twimlApp (this w') = Has app /\
    jwt (this w') = Some t /\
    phoneNumberProps (this w') = binding_props U d /\
    friendlyName app = VStr (devPhoneName (this w)) /\
    voiceUrl app = backend_url (dep_domain d) (OUTBOUND_CALL_HANDLER U) /\
    token_as_specified (this w') t /\
    provisioning (new_calls (cloud w) (cloud w')) =
      provisioning_sequence U (devPhoneName (this w))
        (startsWith (apiKey (configProfile (this w))) "SK")
        ref sy d (phoneNumber (cliSettings (this w'))).
Proof.
  intro H. cbv zeta. revert H.
  set (fromProfile := startsWith (apiKey (configProfile (this w))) "SK").
  unfold run, super_run.
  cbv beta iota delta [bind get_this console_log modify_this].
  (* the validation *)
  match goal with |- context [validatePropsAndFlags U flags ?W] =>
    destruct (ts_validatePropsAndFlags_framed U flags W) as (S1 & _ & cs1 & C1 & P1);
    destruct (validatePropsAndFlags U flags W) as [[[]|e] w1] end;
    cbn [fst snd is_ok this cloud console confirms] in *; [|discriminate].
  destruct S1 as (N1 & K1 & _ & _). cbn in N1, K1.
  apply quiet_provisioning in P1.
  (* the API key *)
  match goal with |- context [reuseOrCreateApiKey ?W] =>
    pose proof (ts_reuseOrCreateApiKey_spec W) as S2;
    destruct (reuseOrCreateApiKey W) as [[k|e] w2] end;
    cbn [fst snd is_ok this cloud console confirms] in *; [|contradiction].
  destruct S2 as ((p & T2) & _ & cs2 & C2 & P2).
  unfold twilioCliIsConfiguredWithApiKey in P2. rewrite N1, K1 in P2.
  fold fromProfile in P2.
  (* the clearing of the account *)
  match goal with |- context [deleteAll_on_clear flags ?W] =>
    destruct (ts_deleteAll_on_clear_framed flags W) as (T3 & _ & cs3 & C3 & P3);
    pose proof (ts_deleteAll_on_clear_total flags W) as O3;
    destruct (deleteAll_on_clear flags W) as [[[]|e] w3] end;
    cbn [fst snd is_ok this cloud console confirms] in *; [|discriminate O3].
  apply quiet_provisioning in P3. clear O3.
  (* the conversation *)
  match goal with |- context [createConversation ?W] =>
    pose proof (ts_createConversation_spec W) as S4;
    destruct (createConversation W) as [[c|e] w4] end;
    cbn [fst snd is_ok this cloud console confirms] in *; [|contradiction].
  destruct S4 as (T4 & _ & cs4 & C4 & P4).
  (* the sync service *)
  match goal with |- context [createSync ?W] =>
    pose proof (ts_createSync_spec W) as S5;
    destruct (createSync W) as [[sy|e] w5] end;
    cbn [fst snd is_ok this cloud console confirms] in *; [|contradiction].
  destruct S5 as (T5 & _ & cs5 & C5 & P5).
  (* the backend *)
  match goal with |- context [createFunction U ?W] =>
    pose proof (ts_createFunction_spec U W) as S6;
    destruct (createFunction U W) as [[d|e] w6] end;
    cbn [fst snd is_ok this cloud console confirms] in *; [|discriminate].
  destruct S6 as (sy' & ref & Esy & Eref & T6 & _ & C6).
  (* the TwiML app *)
  match goal with |- context [createTwimlApp ?W] =>
    pose proof (ts_createTwimlApp_spec W) as S7;
    destruct (createTwimlApp W) as [[app|e] w7] end;
    cbn [fst snd is_ok this cloud console confirms] in *; [|contradiction].
  destruct S7 as (T7 & _ & cs7 & C7 & P7).
  (* the token *)
  match goal with |- context [createJwt ?W] =>
    pose proof (ts_createJwt_pure W) as E8;
    pose proof (fun t w' => ts_createJwt_returns W w' t) as S8;
    destruct (createJwt W) as [[t|e] w8] end;
    cbn [fst snd is_ok this cloud console confirms] in *; [|discriminate].
  subst w8. cbn [fst snd is_ok this cloud console confirms] in *.
  destruct (S8 t _ eq_refl) as (Hid & Httl & Happ & Hkey & ref' & sy'' & Eref' & Esy' & Hgr).
  clear S8. symmetry in T3.
  rewrite T7, T6, T5, T4, T3, T2 in *.
  cbn in Hid, Happ, Hkey, Eref', Esy', Hgr, Esy, Eref, P4, P5, P7, C6.
  rewrite N1 in *.
  destruct app as [app|]; [|now contradiction Happ].
  destruct k as [key|]; [|now contradiction Hkey].
  subst c sy. injection Eref' as <-. injection Esy' as <-.
  destruct P5 as (_ & P5). destruct P7 as (Fapp & Uapp & _ & P7).
  (* the binding *)
  match goal with |- context [updatePhoneWebhooks ?pn ?props ?W] =>
    pose proof (ts_updatePhoneWebhooks_spec pn props W) as S9;
    destruct (updatePhoneWebhooks pn props W) as [[r|e] w9] end;
    cbn [fst snd is_ok this cloud console confirms] in *; [|discriminate].
  intros _. destruct S9 as (T9 & _ & S9). rewrite T9.
  exists key, ref, sy', d, app, t. cbn.
  split; [exact N1|]. do 7 (split; [reflexivity|]).
  split; [exact Fapp|]. split; [exact Uapp|].
  split.
  { unfold token_as_specified. cbn. rewrite N1.
    split; [exact Hid|]. split; [exact Httl|]. exists ref, app, sy'. now repeat split. }
  unfold provisioning_sequence.
  cbn in S9.
  destruct (phoneNumber (cliSettings (this w1))) as [v|].
  - destruct S9 as (C9 & v' & -> & Hsid & _).
    erewrite ts_new_calls_app by (chain_calls).
    rewrite !provisioning_app, P1, P2, P3, P4, P5, P7, Hsid. reflexivity.
  - destruct S9 as (-> & C9).
    erewrite ts_new_calls_app by (chain_calls).
    rewrite !provisioning_app, P1, P2, P3, P4, P5, P7. reflexivity.
Qed.




(** ** The access token *)

(** C6: every session token the command issues has the session name as
    identity, a validity window of 24 hours, and exactly three grants: a
    chat grant on the sid of the conversation service, a voice grant on
    the sid of the TwiML app with incoming calls allowed, and a sync grant
    on the sid of the sync service.  This holds of every token [createJwt]
    returns once [twimlApp] has been assigned (it holds the constructor's
    empty object only until [run] has created the app, which is before
    [run] or the token route build a token); in particular it holds of the
    token a run that returns has stored, which is also the token
    [GET /client-token] then hands out. *)
Theorem C6_session_token :
  (forall (w w' : world) (t : AccessToken),
     twimlApp (this w) <> Empty ->
     createJwt w = (Ok t, w') ->
     token_as_specified (this w) t) /\
  (forall (U : utils) (flags : flags_t) (w : world),
     is_ok (fst (run U flags w)) = true ->
     let w' := snd (run U flags w) in
     exists t,
       jwt (this w') = Some t /\
       token_as_specified (this w') t /\
       client_token w' = (Ok (mkResponse 200 (TokenBody t)), w')).
Proof.
  split.
  - intros w w' t Happ H.
    destruct (ts_createJwt_returns w w' t H)
      as (Hid & Httl & Hundef & _ & ref & sy & Eref & Esy & Hgr).
    unfold token_as_specified. split; [exact Hid|]. split; [exact Httl|].
    unfold twimlApp_sid in Hgr.
    destruct (twimlApp (this w)) as [| |app] eqn:Eapp;
      [now contradiction Happ|now contradiction Hundef|].
    exists ref, app, sy. now repeat split.
  - intros U flags w H. cbv zeta.
    destruct (ts_run_returns U flags w H)
      as (key & ref & sy & d & app & t & _ & _ & _ & _ & _ & _ & Hjwt & _ & _ & _ & Htok & _).
    exists t. split; [exact Hjwt|]. split; [exact Htok|].
    unfold client_token, try_catch, bind, get_this, ret. now rewrite Hjwt.
Qed.

Lemma C6_session_token_witness :
  token_as_specified (this provisioned0) token0 /\
  exists t,
    jwt (this provisioned0) = Some t /\
    token_as_specified (this provisioned0) t /\
    client_token provisioned0 = (Ok (mkResponse 200 (TokenBody t)), provisioned0).
Proof.
  split.
  - apply (proj1 C6_session_token provisioned0 provisioned0 token0).
    + intro H. vm_compute in H. discriminate H.
    + vm_compute. reflexivity.
  - apply (proj2 C6_session_token utils0 flags_free world0).
    vm_compute. reflexivity.
Defined.

(** ** Validation of the chosen phone number *)





(** With the force flag, the run goes through and leaves the number
    bound to the backend's handlers in place of its earlier webhook. *)
Example forced_run_overwrites :
  fst (run utils0 flags_force world0) = Ok tt /\
  map (fun n => (num_sid n, num_smsUrl n))
      (incomingPhoneNumbers (cloud (snd (run utils0 flags_force world0)))) =
    [ ("PN1", VStr "https://dev-phone-1234-ZS6.twil.io/incoming-message");
      ("PN2", VStr "") ].
Proof. vm_compute. split; reflexivity. Qed.

(** ** The reselection of the phone number *)

(** C8: when the lookup of the requested number is served and finds no
    match or more than one, [/choose-phone-number] answers with status 400
    and the message that the number was not found; the command object,
    with the chosen phone number in its settings, and the phone numbers of
    the account, with the webhooks of the number bound so far, are as
    before; the lookup is the only request made. *)
Theorem C8_reselection_not_found (requested : value) (w : world) :
  next_fails (cloud w) = false ->
  length (phone_lookup requested (Some 20) (incomingPhoneNumbers (cloud w))) <> 1 ->
  let out := choose_phone_number requested w in
  fst out = Ok (mkResponse 400 (MessageBody "Phone number not found!")) /\
  this (snd out) = this w /\
  incomingPhoneNumbers (cloud (snd out)) = incomingPhoneNumbers (cloud w) /\
  new_calls (cloud w) (cloud (snd out)) = [ CallListPhoneNumbers requested (Some 20) ].
Proof.
  intros Hserved Hlen. cbv zeta.
  unfold choose_phone_number, try_catch, client_list_phone_numbers.
  cbv beta iota delta [bind get_cloud ret]. rewrite ts_request_run, Hserved.
  cbn [fst snd this cloud console confirms served].
  change (incomingPhoneNumbers (record_call _ (attempt (cloud w))))
    with (incomingPhoneNumbers (cloud w)).
  unfold reformatTwilioPns.
  destruct (phone_lookup requested (Some 20) (incomingPhoneNumbers (cloud w)))
    as [|one [|two more]]; [|now contradiction Hlen|];
    cbn; unfold new_calls; cbn; rewrite skipn_length_app; now repeat split.
Qed.

Lemma C8_reselection_not_found_witness :
  let out := choose_phone_number (VStr "+15550000000") provisioned0 in
  fst out = Ok (mkResponse 400 (MessageBody "Phone number not found!")) /\
  this (snd out) = this provisioned0 /\
  incomingPhoneNumbers (cloud (snd out)) = incomingPhoneNumbers (cloud provisioned0) /\
  new_calls (cloud provisioned0) (cloud (snd out)) =
    [ CallListPhoneNumbers (VStr "+15550000000") (Some 20) ].
Proof.
  apply (C8_reselection_not_found (VStr "+15550000000") provisioned0).
  - vm_compute. reflexivity.
  - vm_compute. discriminate.
Defined.

(** For comparison, a request for the other number of the account is
    answered with 200: the number bound so far is unbound, and the
    requested one is bound. *)
Example reselection_rebinds :
  let out := choose_phone_number (VStr "+15551234567") provisioned0 in
  match fst out with Ok r => status r = 200 | Throw _ => False end /\
  map (fun n => (num_sid n, num_smsUrl n)) (incomingPhoneNumbers (cloud (snd out))) =
    [ ("PN1", VStr "https://dev-phone-1234-ZS6.twil.io/incoming-message");
      ("PN2", VStr "") ].
Proof. vm_compute. split; reflexivity. Qed.

(** ** Sweeps on an account in good order *)

Lemma filter_none {A} (f : A -> bool) (l : list A) :
  filter f l = [] -> filter (fun x => negb (f x)) l = l.
Proof.
  induction l as [|x l IH]; [reflexivity|]. cbn.
  destruct (f x); [discriminate|]. intro H. cbn. now rewrite IH.
Qed.

Lemma filter_twice {A} (f g : A -> bool) (l : list A) :
  filter f (filter g l) = filter (fun x => g x && f x) l.
Proof.
  induction l as [|x l IH]; [reflexivity|]. cbn.
  destruct (g x); cbn; [destruct (f x)|]; now rewrite IH.
Qed.

Lemma NoDup_map_inj {A B} (f : A -> B) (l : list A) (x y : A) :
  NoDup (map f l) -> In x l -> In y l -> f x = f y -> x = y.
Proof.
  induction l as [|a l IH]; [contradiction|]. cbn. intros Hnd Hx Hy Hf.
  inversion Hnd as [|b m Hnotin Hnd' Eb]; subst.
  destruct Hx as [<-|Hx], Hy as [<-|Hy]; [reflexivity| | |now apply IH].
  - exfalso. apply Hnotin. rewrite Hf. now apply in_map.
  - exfalso. apply Hnotin. rewrite <- Hf. now apply in_map.
Qed.

Lemma NoDup_map_filter {A B} (f : A -> B) (l : list A) (keep : A -> bool) :
  NoDup (map f l) -> NoDup (map f (filter keep l)).
Proof.
  induction l as [|a l IH]; [trivial|]. cbn. intro Hnd.
  inversion Hnd as [|b m Hnotin Hnd' Eb]; subst.
  destruct (keep a); [|now apply IH]. cbn. constructor; [|now apply IH].
  intro Hin. apply Hnotin. apply in_map_iff in Hin as (x & Hx & Hin).
  apply filter_In in Hin as (Hin & _). apply in_map_iff. now exists x.
Qed.

(** The filter of the sweeps, on labels that are strings or null. *)
Lemma ts_filterM_labelled (prefix : string) (items : list instance) :
  (forall item, In item items ->
     friendlyName item = VNull \/ exists s, friendlyName item = VStr s) ->
  filterM (has_prefix prefix) items = Ok (filter (labelled_with prefix) items).
Proof.
  induction items as [|item rest IH]; [reflexivity|]. intro H.
  cbn [filterM filter]. rewrite IH by (intros i Hi; apply H; now right).
  unfold has_prefix, labelled_with.
  destruct (H item (or_introl eq_refl)) as [->|(s & ->)]; [reflexivity|].
  now destruct (startsWith s prefix).
Qed.

Lemma existsb_has_sid_In (s : string) (l : list instance) :
  existsb (has_sid s) l = true <-> In s (map sid l).
Proof.
  rewrite existsb_exists, in_map_iff. unfold has_sid.
  split; intros (x & H1 & H2).
  - exists x. apply String.eqb_eq in H2. now split.
  - exists x. split; [exact H2|]. now apply String.eqb_eq.
Qed.

(** The removals of a sweep, when each of them is served. *)
Lemma ts_remove_each_served (k : kind) (todo : list instance) (w : world) :
  (forall n, faults (cloud w) n = false) ->
  NoDup (map sid todo) ->
  (forall item, In item todo -> In (sid item) (map sid (resources k (cloud w)))) ->
  let out := for_of todo (fun item => client_remove k (sid item)) w in
  fst out = Ok tt /\
  this (snd out) = this w /\ confirms (snd out) = confirms w /\
  console (snd out) = console w /\
  resources k (cloud (snd out)) =
    filter (fun i => negb (existsb (String.eqb (sid i)) (map sid todo)))
           (resources k (cloud w)) /\
  (forall k', k' <> k -> resources k' (cloud (snd out)) = resources k' (cloud w)) /\
  incomingPhoneNumbers (cloud (snd out)) = incomingPhoneNumbers (cloud w) /\
  faults (cloud (snd out)) = faults (cloud w) /\
  calls (cloud (snd out)) =
    calls (cloud w) ++ map (fun item => CallRemove k (sid item)) todo.
Proof.
  revert w. induction todo as [|item rest IH]; intros w Hf Hnd Hin; cbv zeta.
  - cbn. rewrite app_nil_r. repeat split.
    induction (resources k (cloud w)) as [|x l IHl]; [reflexivity|].
    cbn. now rewrite <- IHl.
  - cbn [for_of]. unfold bind. rewrite ts_client_remove_run.
    assert (Hex : existsb (has_sid (sid item)) (resources k (cloud w)) = true).
    { apply existsb_has_sid_In. apply Hin. now left. }
    rewrite Hex. unfold next_fails. rewrite Hf.
    inversion Hnd as [|b m Hnotin Hnd' Eb]; subst.
    match goal with |- context [for_of rest ?body ?W] =>
      specialize (IH W) end.
    cbn [this cloud console confirms] in IH.
    assert (Hres : resources k
                     (set_resources k
                        (filter (fun i => negb (has_sid (sid item) i))
                                (resources k (cloud w)))
                        (record_call (CallRemove k (sid item)) (attempt (cloud w)))) =
                   filter (fun i => negb (has_sid (sid item) i)) (resources k (cloud w)))
      by now destruct k.
    destruct IH as (I1 & I2 & I3 & I4 & I5 & I6 & I7 & I8 & I9).
    + intro n. cbn. apply Hf.
    + exact Hnd'.
    + intros i Hi. rewrite Hres. apply in_map_iff.
      assert (Hi' : In (sid i) (map sid (resources k (cloud w))))
        by (apply Hin; now right).
      apply in_map_iff in Hi' as (x & Hx & Hxin). exists x. split; [exact Hx|].
      apply filter_In. split; [exact Hxin|]. unfold has_sid.
      destruct (String.eqb_spec (sid x) (sid item)) as [E|]; [|reflexivity].
      exfalso. apply Hnotin. rewrite <- E, Hx. now apply in_map.
    + cbv zeta in *. rewrite I1, I2, I3, I4, I5, I7, I8, I9. rewrite Hres.
      split; [reflexivity|]. split; [reflexivity|]. split; [reflexivity|].
      split; [reflexivity|].
      split.
      { rewrite filter_twice. apply filter_ext. intro i. cbn [map existsb].
        unfold has_sid. now rewrite negb_orb. }
      split.
      { intros k' Hk'. rewrite I6 by exact Hk'. destruct k, k'; try reflexivity;
          now contradiction Hk'. }
      split; [reflexivity|]. split; [reflexivity|].
      cbn. now rewrite <- app_assoc.
Qed.

(** A sweep on an account in good order removes exactly the resources of
    its kind whose label starts with the prefix. *)
Lemma ts_sweep_served_at (k : kind) (prefix line : string) (w : world) :
  healthy_at k (cloud w) ->
  let out := sweep k prefix line w in
  fst out = Ok tt /\
  this (snd out) = this w /\ confirms (snd out) = confirms w /\
  swept k prefix (cloud w) (cloud (snd out)).
Proof.
  intros (Hf & Hnd & Hlab). cbv zeta.
  unfold sweep, try_catch, bind. rewrite ts_client_list_run.
  unfold next_fails. rewrite Hf.
  unfold lift. cbn [fst snd this cloud console confirms served].
  rewrite (ts_filterM_labelled prefix (resources k (cloud w)) Hlab).
  set (mine := filter (labelled_with prefix) (resources k (cloud w))).
  destruct (0 <? length mine)%nat eqn:Hlen.
  - unfold console_log.
    match goal with |- context [for_of mine ?body ?W] =>
      destruct (ts_remove_each_served k mine W)
        as (I1 & I2 & I3 & I4 & I5 & I6 & I7 & I8 & I9) end.
    + intro n. cbn. apply Hf.
    + apply NoDup_map_filter, Hnd.
    + intros item Hitem. apply filter_In in Hitem as (Hitem & _).
      cbn. replace (resources k (record_call (CallList k) (attempt (cloud w))))
        with (resources k (cloud w)) by now destruct k.
      now apply in_map.
    + cbv zeta in *.
      destruct (for_of mine _ _) as [[[]|e] w1]; [|discriminate I1].
      cbn [fst snd this cloud console confirms] in *.
      split; [reflexivity|]. split; [exact I2|]. split; [exact I3|].
      unfold swept. rewrite I5, I7, I8, I9.
      replace (resources k (record_call (CallList k) (attempt (cloud w))))
        with (resources k (cloud w)) by now destruct k.
      split.
      { apply filter_ext_in. intros i Hi. f_equal.
        destruct (labelled_with prefix i) eqn:Hp.
        - apply existsb_exists. exists (sid i). split; [|apply String.eqb_refl].
          apply in_map. apply filter_In. now split.
        - destruct (existsb _ _) eqn:Hex; [|reflexivity].
          apply existsb_exists in Hex as (s & Hs & Hsi).
          apply String.eqb_eq in Hsi. subst s.
          apply in_map_iff in Hs as (j & Hj & Hjin).
          apply filter_In in Hjin as (Hjin & Hpj).
          assert (j = i)
            by exact (NoDup_map_inj sid (resources k (cloud w)) j i Hnd Hjin Hi Hj).
          subst j. congruence. }
      split.
      { intros k' Hk'. rewrite I6 by exact Hk'. now destruct k'. }
      split; [reflexivity|]. split; [reflexivity|].
      cbn. unfold sweep_calls. now rewrite <- app_assoc.
  - cbn [fst snd this cloud console confirms ret].
    split; [reflexivity|]. split; [reflexivity|]. split; [reflexivity|].
    assert (Hnone : mine = []).
    { destruct mine; [reflexivity|discriminate Hlen]. }
    unfold swept.
    replace (resources k (record_call (CallList k) (attempt (cloud w))))
      with (resources k (cloud w)) by now destruct k.
    split; [symmetry; apply filter_none; exact Hnone|].
    split; [intros k' _; now destruct k'|].
    split; [reflexivity|]. split; [reflexivity|].
    cbn. unfold sweep_calls. fold mine. now rewrite Hnone.
Qed.

Lemma healthy_healthy_at (k : kind) (r : remote) : healthy r -> healthy_at k r.
Proof. intros (Hf & Hnd & Hlab). split; [exact Hf|]. split; [apply Hnd|apply Hlab]. Qed.

Lemma ts_sweep_served (k : kind) (prefix line : string) (w : world) :
  healthy (cloud w) ->
  let out := sweep k prefix line w in
  fst out = Ok tt /\
  this (snd out) = this w /\ confirms (snd out) = confirms w /\
  swept k prefix (cloud w) (cloud (snd out)).
Proof. intro H. now apply ts_sweep_served_at, healthy_healthy_at. Qed.

(** The account stays in good order. *)
Lemma healthy_swept (k : kind) (prefix : string) (r r' : remote) :
  healthy r -> swept k prefix r r' -> healthy r'.
Proof.
  intros (Hf & Hnd & Hlab) (Hk & Hother & _ & Hfaults & _).
  assert (Hres : forall k', exists p, resources k' r' = filter p (resources k' r)).
  { intro k'. destruct (kind_eq_dec k' k) as [->|Hne].
    - eexists. exact Hk.
    - exists (fun _ => true). rewrite Hother by exact Hne.
      symmetry. apply forallb_filter_id. now apply forallb_forall. }
  split; [intro n; now rewrite Hfaults|]. split.
  - intro k'. destruct (Hres k') as (p & ->). apply NoDup_map_filter, Hnd.
  - intros k' item Hin. destruct (Hres k') as (p & E). rewrite E in Hin.
    apply filter_In in Hin as (Hin & _). now apply (Hlab k').
Qed.

(** ** The event loop *)

Lemma ts_exited_stays (evs : list event) (p : process) (c : nat) :
  exit_code p = Some c -> deliver_all p evs = p.
Proof.
  intro H. induction evs as [|ev evs IH]; [reflexivity|].
  cbn. unfold deliver at 2. now rewrite H.
Qed.

Lemma unpark_length {A} (i : nat) (l : list A) (x : A) :
  nth_error l i = Some x -> S (length (firstn i l ++ skipn (S i) l)) = length l.
Proof.
  revert i. induction l as [|a l IH]; intros [|i] H; try discriminate.
  - cbn. reflexivity.
  - cbn in *. now rewrite (IH i H).
Qed.

Lemma unpark_Forall {A} (P : A -> Prop) (i : nat) (l : list A) :
  Forall P l -> Forall P (firstn i l ++ skipn (S i) l).
Proof.
  intro H. revert i. induction H as [|a l Ha Hl IH]; intros [|i]; cbn.
  - constructor.
  - constructor.
  - exact Hl.
  - constructor; [exact Ha|apply IH].
Qed.

(** A resumed handler never enters a drain. *)
Lemma ts_settle_entered (i : nat) (p : process) : entered (settle i p) = entered p.
Proof.
  unfold settle. destruct (nth_error (parked p) i) as [n|]; [|reflexivity].
  destruct (nth_error shutdown_steps n) as [step|]; [|reflexivity].
  destruct (step _) as [[u|e] w1]; [|reflexivity].
  now destruct (S n <? length shutdown_steps)%nat.
Qed.

Lemma ts_deliver_entered (p : process) (ev : event) :
  exit_code p = None ->
  entered (deliver p ev) = entered p + count_signals [ev].
Proof.
  intro H. unfold deliver. rewrite H. destruct ev as [s|i].
  - cbn. lia.
  - rewrite ts_settle_entered. cbn. lia.
Qed.

Lemma ts_deliver_invariant (p : process) (ev : event) :
  loop_invariant p -> loop_invariant (deliver p ev).
Proof.
  unfold loop_invariant, deliver. destruct (exit_code p) as [c|] eqn:Ex.
  { now rewrite Ex. }
  intros (Hc & Hl & Hf). destruct ev as [s|i].
  - cbn. rewrite Ex. split; [exact Hc|]. split.
    + rewrite length_app. cbn. lia.
    + apply Forall_app. split; [exact Hf|]. constructor; [cbn; lia|constructor].
  - unfold settle. destruct (nth_error (parked p) i) as [n|] eqn:En.
    2:{ rewrite Ex. now repeat split. }
    assert (Hn : n < length shutdown_steps).
    { rewrite Forall_forall in Hf. apply Hf. eapply nth_error_In. exact En. }
    destruct (nth_error shutdown_steps n) as [step|] eqn:Es.
    2:{ apply nth_error_None in Es. lia. }
    pose proof (unpark_length i (parked p) n En) as Hlen.
    destruct (step _) as [[u|e] w1]; [|cbn; rewrite Hc; now split].
    destruct (S n <? length shutdown_steps)%nat eqn:Hnext; [|cbn; rewrite Hc; now split].
    cbn [exit_code park with_world unpark parked entered completed].
    rewrite Ex. split; [exact Hc|]. split.
    + rewrite length_app. cbn [length]. lia.
    + apply Forall_app. split; [now apply unpark_Forall|].
      constructor; [|constructor]. now apply Nat.ltb_lt in Hnext.
Qed.

Lemma ts_deliver_all_invariant (evs : list event) (p : process) :
  loop_invariant p ->
  loop_invariant (deliver_all p evs) /\
  (exit_code (deliver_all p evs) = None ->
   entered (deliver_all p evs) = entered p + count_signals evs).
Proof.
  revert p. induction evs as [|ev evs IH]; intros p Hp.
  - cbn. split; [exact Hp|]. intros _. unfold count_signals. cbn. lia.
  - cbn [deliver_all fold_left].
    destruct (IH (deliver p ev) (ts_deliver_invariant p ev Hp)) as (Hinv & Hent).
    split; [exact Hinv|]. intro Hrun.
    destruct (exit_code p) as [c|] eqn:Ex.
    + exfalso. change (fold_left deliver evs (deliver p ev))
        with (deliver_all (deliver p ev) evs) in Hrun.
      assert (Hstay : deliver p ev = p) by (unfold deliver; now rewrite Ex).
      rewrite Hstay, (ts_exited_stays evs p c Ex) in Hrun. congruence.
    + change (fold_left deliver evs (deliver p ev))
        with (deliver_all (deliver p ev) evs).
      rewrite (Hent Hrun), (ts_deliver_entered p ev Ex).
      unfold count_signals. cbn. destruct ev; cbn; lia.
Qed.

(** C9, as amended: there is no once-only guard.  Each interrupt or
    terminate signal delivered to a process that has not exited starts a
    drain of its own, also while earlier drains are under way: after two
    signals in a row two drains are pending, both at their first step; and
    in general, as long as the process is running, the drains entered are
    as many as the signals delivered, all of them are pending, and none
    has completed.  What holds is that at most one drain runs to
    completion: the first one to complete ends the process, with status
    0, and nothing runs after that. *)
Theorem C9_drain_per_signal :
  (forall (w : world) (s1 s2 : signal),
     let p := deliver_all (serving w) [Signal s1; Signal s2] in
     entered p = 2 /\ parked p = [0; 0] /\ exit_code p = None) /\
  (forall (w : world) (evs : list event),
     let p := deliver_all (serving w) evs in
     (exit_code p = None ->
      entered p = count_signals evs /\ length (parked p) = entered p /\
      completed p = 0) /\
     (exit_code p = None \/ exit_code p = Some 0) /\
     completed p <= 1).
Proof.
  split; [intros w s1 s2; cbn; now repeat split|].
  intros w evs. cbv zeta.
  assert (H0 : loop_invariant (serving w)).
  { unfold loop_invariant. cbn. repeat split. constructor. }
  destruct (ts_deliver_all_invariant evs (serving w) H0) as (Hinv & Hent).
  unfold loop_invariant in Hinv.
  destruct (exit_code (deliver_all (serving w) evs)) as [c|].
  - destruct Hinv as (-> & Hc). split; [discriminate|]. split; [now right|]. lia.
  - destruct Hinv as (Hc & Hl & _). split.
    + intros _. pose proof (Hent eq_refl) as He. cbn [serving entered Nat.add] in He.
      split; [exact He|]. split; [exact Hl|exact Hc].
    + split; [now left|]. lia.
Qed.

Lemma C9_drain_per_signal_witness :
  entered (deliver_all (serving provisioned0) [Signal SIGINT; Settle 0; Signal SIGTERM]) =
    count_signals [Signal SIGINT; Settle 0; Signal SIGTERM] /\
  length (parked (deliver_all (serving provisioned0)
                    [Signal SIGINT; Settle 0; Signal SIGTERM])) =
    entered (deliver_all (serving provisioned0) [Signal SIGINT; Settle 0; Signal SIGTERM]) /\
  completed (deliver_all (serving provisioned0)
               [Signal SIGINT; Settle 0; Signal SIGTERM]) = 0.
Proof.
  apply (proj2 C9_drain_per_signal provisioned0 [Signal SIGINT; Settle 0; Signal SIGTERM]).
  vm_compute. reflexivity.
Defined.

(** C9, as stated, fails: a second interrupt while the first drain is at
    its first step enters the teardown again, and the second drain sends
    its own requests: it lists the conversation services anew after the
    first drain has removed the session's. *)
Lemma C9_once_only_refuted :
  ~ drains_at_most_once provisioned0 [Signal SIGINT; Signal SIGINT] /\
  new_calls (cloud provisioned0)
    (cloud (pworld (deliver_all (serving provisioned0)
                      [Signal SIGINT; Signal SIGINT; Settle 0; Settle 0]))) =
    [ CallList ConversationServices; CallRemove ConversationServices "IS1";
      CallList ConversationServices ].
Proof.
  split.
  - unfold drains_at_most_once. vm_compute. lia.
  - vm_compute. reflexivity.
Qed.

(** ** The drain *)

(** The handler parked alone at step [n] is resumed. *)
Lemma ts_settle_alone (n : nat) (step : M unit) (w : world) (e c : nat) :
  nth_error shutdown_steps n = Some step ->
  deliver (mkProcess w None [n] e c) (Settle 0) =
  match step w with
  | (Ok _, w1) =>
      if (S n <? length shutdown_steps)%nat
      then mkProcess w1 None [S n] e c
      else mkProcess w1 (Some 0) [] e (S c)
  | (Throw _, w1) => mkProcess w1 (Some 0) [] e (S c)
  end.
Proof.
  intro H. unfold deliver, settle.
  cbn [exit_code parked nth_error unpark firstn skipn app pworld entered completed].
  rewrite H. destruct (step w) as [[u|err] w1]; [|reflexivity].
  now destruct (S n <? length shutdown_steps)%nat.
Qed.

(** A drain that no other event interrupts is [onShutdown] run in one
    piece, followed by the exit with status 0. *)
Lemma ts_drain_alone (w : world) (s : signal) :
  deliver_all (serving w) (Signal s :: repeat (Settle 0) 6) =
  mkProcess (snd (onShutdown (shutting_down w))) (Some 0) [] 1 1.
Proof.
  cbn [repeat deliver_all fold_left].
  change (deliver (serving w) (Signal s)) with (mkProcess (shutting_down w) None [0] 1 0).
  unfold onShutdown. cbn [fold_right shutdown_steps]. unfold bind.
  rewrite (ts_settle_alone 0 destroyConversations) by reflexivity.
  pose proof (ts_destroyConversations_total (shutting_down w)) as O1.
  destruct (destroyConversations (shutting_down w)) as [[[]|e1] w1]; [|discriminate O1].
  change (1 <? length shutdown_steps)%nat with true. cbv iota.
  rewrite (ts_settle_alone 1 destroyTwimlApps) by reflexivity.
  pose proof (ts_destroyTwimlApps_total w1) as O2.
  destruct (destroyTwimlApps w1) as [[[]|e2] w2]; [|discriminate O2].
  change (2 <? length shutdown_steps)%nat with true. cbv iota.
  rewrite (ts_settle_alone 2 destroyApiKeys) by reflexivity.
  pose proof (ts_destroyApiKeys_total w2) as O3.
  destruct (destroyApiKeys w2) as [[[]|e3] w3]; [|discriminate O3].
  change (3 <? length shutdown_steps)%nat with true. cbv iota.
  rewrite (ts_settle_alone 3 destroySyncs) by reflexivity.
  pose proof (ts_destroySyncs_total w3) as O4.
  destruct (destroySyncs w3) as [[[]|e4] w4]; [|discriminate O4].
  change (4 <? length shutdown_steps)%nat with true. cbv iota.
  rewrite (ts_settle_alone 4 destroyFunction) by reflexivity.
  pose proof (ts_destroyFunction_total w4) as O5.
  destruct (destroyFunction w4) as [[[]|e5] w5]; [|discriminate O5].
  change (5 <? length shutdown_steps)%nat with true. cbv iota.
  rewrite (ts_settle_alone 5 removeChosenPhoneWebhooks) by reflexivity.
  change (6 <? length shutdown_steps)%nat with false. cbv iota.
  now destruct (removeChosenPhoneWebhooks w5) as [[[]|e6] w6].
Qed.

Lemma ts_removeChosenPhoneWebhooks_framed :
  framed eq (fun c => is_unbind c = true) removeChosenPhoneWebhooks.
Proof.
  unfold removeChosenPhoneWebhooks.
  apply framed_bind; [frame_side|framed_leaf|intro s].
  apply ts_removePhoneWebhooks_framed.
Qed.

(** The calls of [onShutdown], on any account: the five sweeps in their
    order, then at most the unbinding. *)
Lemma ts_onShutdown_calls (w : world) :
  exists c1 c2 c3 c4 c5 u,
    calls (cloud (snd (onShutdown w))) =
      calls (cloud w) ++ c1 ++ c2 ++ c3 ++ c4 ++ c5 ++ u /\
    Forall (sweep_call ConversationServices) c1 /\
    Forall (sweep_call Applications) c2 /\
    Forall (sweep_call Keys) c3 /\
    Forall (sweep_call SyncServices) c4 /\
    Forall (sweep_call ServerlessServices) c5 /\
    Forall (fun c => is_unbind c = true) u.
Proof.
  unfold onShutdown. cbn [fold_right shutdown_steps]. unfold bind.
  destruct (ts_destroyConversations_framed w) as (_ & _ & c1 & C1 & P1).
  pose proof (ts_destroyConversations_total w) as O1.
  destruct (destroyConversations w) as [[[]|e1] w1]; [|discriminate O1].
  destruct (ts_destroyTwimlApps_framed w1) as (_ & _ & c2 & C2 & P2).
  pose proof (ts_destroyTwimlApps_total w1) as O2.
  destruct (destroyTwimlApps w1) as [[[]|e2] w2]; [|discriminate O2].
  destruct (ts_destroyApiKeys_framed w2) as (_ & _ & c3 & C3 & P3).
  pose proof (ts_destroyApiKeys_total w2) as O3.
  destruct (destroyApiKeys w2) as [[[]|e3] w3]; [|discriminate O3].
  destruct (ts_destroySyncs_framed w3) as (_ & _ & c4 & C4 & P4).
  pose proof (ts_destroySyncs_total w3) as O4.
  destruct (destroySyncs w3) as [[[]|e4] w4]; [|discriminate O4].
  destruct (ts_destroyFunction_framed w4) as (_ & _ & c5 & C5 & P5).
  pose proof (ts_destroyFunction_total w4) as O5.
  destruct (destroyFunction w4) as [[[]|e5] w5]; [|discriminate O5].
  destruct (ts_removeChosenPhoneWebhooks_framed w5) as (_ & _ & u & C6 & P6).
  cbn [fst snd] in *.
  exists c1, c2, c3, c4, c5, u.
  split; [|now repeat split].
  destruct (removeChosenPhoneWebhooks w5) as [[[]|e6] w6]; cbn [fst snd ret] in *;
    rewrite C6, C5, C4, C3, C2, C1, <- !app_assoc; reflexivity.
Qed.

(** ** The drain on an account in good order *)

Lemma swept_untouched (k k' : kind) (prefix : string) (r r' : remote) :
  swept k' prefix r r' -> k <> k' -> resources k r' = resources k r.
Proof. intros (_ & H & _) Hne. now apply H. Qed.

Lemma swept_clean (k : kind) (prefix : string) (r r' : remote) :
  swept k prefix r r' -> session_resources prefix k r' = [].
Proof.
  intros (H & _). unfold session_resources. rewrite H, filter_twice. clear H.
  induction (resources k r) as [|x l IH]; [reflexivity|].
  cbn. destruct (labelled_with prefix x); cbn; exact IH.
Qed.

Lemma sweep_calls_ext (k : kind) (prefix : string) (r r' : remote) :
  resources k r' = resources k r -> sweep_calls k prefix r' = sweep_calls k prefix r.
Proof. intro H. unfold sweep_calls. now rewrite H. Qed.

Lemma session_resources_ext (k : kind) (prefix : string) (r r' : remote) :
  resources k r' = resources k r ->
  session_resources prefix k r' = session_resources prefix k r.
Proof. intro H. unfold session_resources. now rewrite H. Qed.

(** A sweep method on an account in good order. *)
Lemma ts_sweep_method_served (k : kind) (line : string -> string) (w : world) :
  healthy (cloud w) ->
  exists w',
    (s <- get_this ;; sweep k (devPhoneName s) (line (devPhoneName s))) w = (Ok tt, w') /\
    this w' = this w /\
    swept k (devPhoneName (this w)) (cloud w) (cloud w').
Proof.
  intro H. unfold bind, get_this. cbv beta iota.
  destruct (ts_sweep_served k (devPhoneName (this w)) (line (devPhoneName (this w))) w H)
    as (E & T & _ & S).
  destruct (sweep _ _ _ w) as [[[]|e] w']; [|discriminate E].
  exists w'. split; [reflexivity|]. split; [exact T|exact S].
Qed.

Lemma ts_destroyApiKeys_served (w : world) :
  healthy (cloud w) ->
  exists w',
    destroyApiKeys w = (Ok tt, w') /\
    this w' = this w /\
    if twilioCliIsConfiguredWithApiKey (this w) then cloud w' = cloud w
    else swept Keys (devPhoneName (this w)) (cloud w) (cloud w').
Proof.
  intro H. unfold destroyApiKeys, bind, get_this. cbv beta iota.
  destruct (twilioCliIsConfiguredWithApiKey (this w)); [now exists w|].
  destruct (ts_sweep_served Keys (devPhoneName (this w))
              ("Removing API Keys for " ++ devPhoneName (this w)) w H)
    as (E & T & _ & S).
  destruct (sweep _ _ _ w) as [[[]|e] w']; [|discriminate E].
  exists w'. split; [reflexivity|]. split; [exact T|exact S].
Qed.

Lemma existsb_find {A} (f : A -> bool) (l : list A) :
  existsb f l = match find f l with Some _ => true | None => false end.
Proof.
  induction l as [|x l IH]; [reflexivity|]. cbn. now destruct (f x).
Qed.

(** The unbinding of the chosen number on an account that serves it. *)
Lemma ts_removeChosenPhoneWebhooks_served (w : world) :
  (forall n, faults (cloud w) n = false) ->
  let w' := snd (removeChosenPhoneWebhooks w) in
  calls (cloud w') = calls (cloud w) ++ unbind_calls (this w) (cloud w) /\
  (forall k, resources k (cloud w') = resources k (cloud w)) /\
  (forall v n,
     phoneNumber (cliSettings (this w)) = Some v ->
     In n (incomingPhoneNumbers (cloud w')) ->
     num_sid n = view_sid v -> unbound n).
Proof.
  intro Hf. cbv zeta.
  unfold removeChosenPhoneWebhooks, removePhoneWebhooks, unbind_calls, bind, get_this.
  destruct (phoneNumber (cliSettings (this w))) as [v|].
  2:{ cbn. rewrite app_nil_r. split; [reflexivity|]. split; [reflexivity|]. discriminate. }
  rewrite ts_client_update_run, existsb_find.
  destruct (find (number_has_sid (view_sid v)) (incomingPhoneNumbers (cloud w)))
    as [found|] eqn:Hfind.
  - unfold next_fails. rewrite Hf. cbn.
    split; [reflexivity|]. split; [intro k; now destruct k|].
    intros v' n Hv Hin Hsid. injection Hv as <-.
    apply in_map_iff in Hin as (m & Hm & _).
    unfold number_has_sid in Hm.
    destruct (String.eqb_spec (num_sid m) (view_sid v)) as [E|E].
    + subst n. now repeat split.
    + subst n. contradiction.
  - cbn. rewrite app_nil_r. split; [reflexivity|].
    split; [intro k; now destruct k|].
    intros v' n Hv Hin Hsid. injection Hv as <-. exfalso.
    apply (find_none _ _ Hfind) in Hin. unfold number_has_sid in Hin.
    rewrite Hsid, String.eqb_refl in Hin. discriminate Hin.
Qed.

(** [onShutdown] on an account in good order: its calls are exactly the
    sweeps of the session's resources followed by the unbinding; the
    swept kinds hold no resource of the session afterwards; the chosen
    number is unbound. *)
Lemma ts_onShutdown_served (w : world) :
  healthy (cloud w) ->
  let w' := snd (onShutdown w) in
  calls (cloud w') = calls (cloud w) ++ drain_calls (this w) (cloud w) /\
  Forall (fun k => session_resources (devPhoneName (this w)) k (cloud w') = [])
         swept_kinds /\
  (forall v n,
     phoneNumber (cliSettings (this w)) = Some v ->
     In n (incomingPhoneNumbers (cloud w')) ->
     num_sid n = view_sid v -> unbound n).
Proof.
  intro H0. cbv zeta.
  destruct (ts_sweep_method_served ConversationServices
              (fun n => "Removing Conversation Service for " ++ n)%string w H0)
    as (w1 & E1 & T1 & S1).
  change (destroyConversations w = (Ok tt, w1)) in E1.
  pose proof (healthy_swept _ _ _ _ H0 S1) as H1.
  destruct (ts_sweep_method_served Applications
              (fun n => "Removing TwiML app for " ++ n)%string w1 H1)
    as (w2 & E2 & T2 & S2).
  change (destroyTwimlApps w1 = (Ok tt, w2)) in E2.
  pose proof (healthy_swept _ _ _ _ H1 S2) as H2.
  destruct (ts_destroyApiKeys_served w2 H2) as (w3 & E3 & T3 & S3).
  assert (H3 : healthy (cloud w3)).
  { destruct (twilioCliIsConfiguredWithApiKey (this w2));
      [now rewrite S3|exact (healthy_swept _ _ _ _ H2 S3)]. }
  destruct (ts_sweep_method_served SyncServices
              (fun n => "Removing Sync Service for " ++ n)%string w3 H3)
    as (w4 & E4 & T4 & S4).
  change (destroySyncs w3 = (Ok tt, w4)) in E4.
  pose proof (healthy_swept _ _ _ _ H3 S4) as H4.
  destruct (ts_sweep_method_served ServerlessServices
              (fun n => "Removing Serverless Functions for " ++ n)%string w4 H4)
    as (w5 & E5 & T5 & S5).
  change (destroyFunction w4 = (Ok tt, w5)) in E5.
  pose proof (healthy_swept _ _ _ _ H4 S5) as H5.
  destruct (ts_removeChosenPhoneWebhooks_served w5 (proj1 H5)) as (C6 & R6 & U6).
  assert (Hrun : snd (onShutdown w) = snd (removeChosenPhoneWebhooks w5)).
  { unfold onShutdown. cbn [fold_right shutdown_steps]. unfold bind.
    rewrite E1. cbv beta iota. rewrite E2. cbv beta iota. rewrite E3. cbv beta iota.
    rewrite E4. cbv beta iota. rewrite E5. cbv beta iota.
    now destruct (removeChosenPhoneWebhooks w5) as [[[]|e] w6]. }
  rewrite Hrun. clear Hrun.
  assert (T5' : this w5 = this w) by congruence.
  assert (T4' : this w4 = this w) by congruence.
  assert (T3' : this w3 = this w) by congruence.
  assert (T2' : this w2 = this w) by congruence.
  rewrite T1 in S2. rewrite T2' in S3. rewrite T3' in S4. rewrite T4' in S5.
  rewrite T5' in C6, U6.
  set (name := devPhoneName (this w)) in *.
  split; [|split; [|exact U6]].
  - rewrite C6. unfold drain_calls, unbind_calls. fold name.
    destruct S5 as (_ & _ & N5 & _ & C5). destruct S4 as (_ & O4 & N4 & _ & C4).
    destruct S2 as (_ & O2 & N2 & _ & C2). destruct S1 as (_ & O1 & N1 & _ & C1).
    rewrite C5, C4, N5, N4.
    destruct (twilioCliIsConfiguredWithApiKey (this w)).
    + rewrite S3, C2, C1, N2, N1.
      rewrite (sweep_calls_ext ServerlessServices name (cloud w) (cloud w4)).
      2:{ rewrite O4 by discriminate. rewrite S3. rewrite O2 by discriminate.
          now apply O1. }
      rewrite (sweep_calls_ext SyncServices name (cloud w) (cloud w2)).
      2:{ rewrite O2 by discriminate. now apply O1. }
      rewrite (sweep_calls_ext Applications name (cloud w) (cloud w1)).
      2:{ now apply O1. }
      cbn [app]. now rewrite <- !app_assoc.
    + destruct S3 as (_ & O3 & N3 & _ & C3). rewrite C3, C2, C1, N3, N2, N1.
      rewrite (sweep_calls_ext ServerlessServices name (cloud w) (cloud w4)).
      2:{ rewrite O4 by discriminate. rewrite O3 by discriminate.
          rewrite O2 by discriminate. now apply O1. }
      rewrite (sweep_calls_ext SyncServices name (cloud w) (cloud w3)).
      2:{ rewrite O3 by discriminate. rewrite O2 by discriminate. now apply O1. }
      rewrite (sweep_calls_ext Keys name (cloud w) (cloud w2)).
      2:{ rewrite O2 by discriminate. now apply O1. }
      rewrite (sweep_calls_ext Applications name (cloud w) (cloud w1)).
      2:{ now apply O1. }
      now rewrite <- !app_assoc.
  - assert (K3 : forall k, k <> Keys -> resources k (cloud w3) = resources k (cloud w2)).
    { intros k Hk. destruct (twilioCliIsConfiguredWithApiKey (this w));
        [now rewrite S3|now apply (swept_untouched k Keys name _ _ S3)]. }
    unfold swept_kinds. repeat constructor.
    + rewrite (session_resources_ext ConversationServices name (cloud w1) _).
      { exact (swept_clean _ _ _ _ S1). }
      rewrite R6.
      rewrite (swept_untouched _ _ _ _ _ S5) by discriminate.
      rewrite (swept_untouched _ _ _ _ _ S4) by discriminate.
      rewrite K3 by discriminate.
      now rewrite (swept_untouched _ _ _ _ _ S2) by discriminate.
    + rewrite (session_resources_ext Applications name (cloud w2) _).
      { exact (swept_clean _ _ _ _ S2). }
      rewrite R6.
      rewrite (swept_untouched _ _ _ _ _ S5) by discriminate.
      rewrite (swept_untouched _ _ _ _ _ S4) by discriminate.
      now rewrite K3 by discriminate.
    + rewrite (session_resources_ext SyncServices name (cloud w4) _).
      { exact (swept_clean _ _ _ _ S4). }
      rewrite R6.
      now rewrite (swept_untouched _ _ _ _ _ S5) by discriminate.
    + rewrite (session_resources_ext ServerlessServices name (cloud w5) _).
      { exact (swept_clean _ _ _ _ S5). }
      now rewrite R6.
Qed.

(** C2, as amended: on an interrupt or a terminate signal the handler
    runs [onShutdown] and then exits with status 0, whatever the sweeps
    and the unbinding run into.  The order of the drain is: sweep of the
    session's conversation services, of its TwiML apps, of its API keys
    (skipped when the profile holds an API key), of its sync services, of
    its serverless services, and only then the unbinding of the chosen
    phone number.  The unbinding thus comes last, not first, and the
    sweeps run in this fixed order, which is not the reverse of the order
    of creation.  On every account the calls of the drain split into these
    six parts; on an account in good order they are exactly the listing
    and the removals of each sweep followed by the unbinding call, after
    which no resource of the swept kinds carries the session's name and
    the chosen number has no webhooks. *)
Theorem C2_drain_order (w : world) (s : signal) :
  let p := deliver_all (serving w) (Signal s :: repeat (Settle 0) 6) in
  exit_code p = Some 0 /\
  (exists c1 c2 c3 c4 c5 u,
     new_calls (cloud w) (cloud (pworld p)) = c1 ++ c2 ++ c3 ++ c4 ++ c5 ++ u /\
     Forall (sweep_call ConversationServices) c1 /\
     Forall (sweep_call Applications) c2 /\
     Forall (sweep_call Keys) c3 /\
     Forall (sweep_call SyncServices) c4 /\
     Forall (sweep_call ServerlessServices) c5 /\
     Forall (fun c => is_unbind c = true) u) /\
  (healthy (cloud w) ->
   new_calls (cloud w) (cloud (pworld p)) = drain_calls (this w) (cloud w) /\
   Forall (fun k => session_resources (devPhoneName (this w)) k (cloud (pworld p)) = [])
          swept_kinds /\
   forall v n,
     phoneNumber (cliSettings (this w)) = Some v ->
     In n (incomingPhoneNumbers (cloud (pworld p))) ->
     num_sid n = view_sid v -> unbound n).
Proof.
  cbv zeta. rewrite ts_drain_alone. cbn [exit_code pworld].
  split; [reflexivity|]. split.
  - destruct (ts_onShutdown_calls (shutting_down w))
      as (c1 & c2 & c3 & c4 & c5 & u & C & P).
    exists c1, c2, c3, c4, c5, u. split; [|exact P].
    now apply ts_new_calls_app.
  - intro H.
    destruct (ts_onShutdown_served (shutting_down w) H) as (C & R & U).
    split; [now apply ts_new_calls_app|]. split; [exact R|exact U].
Qed.

Lemma healthy_provisioned0 : healthy (cloud provisioned0).
Proof.
  let r := eval vm_compute in (cloud provisioned0) in
  assert (E : cloud provisioned0 = r) by (vm_compute; reflexivity); rewrite E.
  split; [intro n; reflexivity|]. split.
  - intros [| | | |]; cbn; repeat constructor; intros [].
  - intros [| | | |] item Hin; cbn in Hin;
      repeat (destruct Hin as [<-|Hin]; [right; eexists; reflexivity|]);
      contradiction.
Qed.

Lemma C2_drain_order_witness :
  let p := deliver_all (serving provisioned0) (Signal SIGTERM :: repeat (Settle 0) 6) in
  new_calls (cloud provisioned0) (cloud (pworld p)) =
    drain_calls (this provisioned0) (cloud provisioned0) /\
  Forall (fun k => session_resources (devPhoneName (this provisioned0)) k
                     (cloud (pworld p)) = [])
         swept_kinds /\
  forall v n,
    phoneNumber (cliSettings (this provisioned0)) = Some v ->
    In n (incomingPhoneNumbers (cloud (pworld p))) ->
    num_sid n = view_sid v -> unbound n.
Proof.
  exact (proj2 (proj2 (C2_drain_order provisioned0 SIGTERM)) healthy_provisioned0).
Defined.

(** The drain after the provisioning run on the fresh account: the
    session's conversation service, TwiML app, sync service and serverless
    service are removed in this order, the key the run created is not (it
    is by now the key of the profile), and the number is unbound last. *)
Example drain_after_run :
  drain_calls (this provisioned0) (cloud provisioned0) =
  [ CallList ConversationServices; CallRemove ConversationServices "IS1";
    CallList Applications; CallRemove Applications "AP7";
    CallList SyncServices; CallRemove SyncServices "IS4";
    CallList ServerlessServices; CallRemove ServerlessServices "ZS6";
    CallUpdatePhoneNumber "PN2" no_webhooks ].
Proof. vm_compute. reflexivity. Qed.

(** C2, as stated, fails: the first call of the drain is the listing of
    the conversation services, not the unbinding. *)
Lemma C2_drain_as_specified_refuted :
  ~ drain_as_specified (cloud provisioned0)
      (deliver_all (serving provisioned0) (Signal SIGINT :: repeat (Settle 0) 6)).
Proof.
  intros (unbind & sweeps & H & Hu & _).
  vm_compute in H. injection H as <- _. discriminate Hu.
Qed.

(** ** What a computation does to the resource lists *)

Section Bounds.

Variable Q : kind -> list instance -> list instance -> Prop.
Hypothesis Q_refl : forall k l, Q k l l.
Hypothesis Q_trans : forall k l1 l2 l3, Q k l1 l2 -> Q k l2 l3 -> Q k l1 l3.

Lemma bounded_offline {A} (m : M A) :
  (forall w, cloud (snd (m w)) = cloud w) -> bounded Q m.
Proof. intros H w. rewrite H. split; [reflexivity|]. intro k. apply Q_refl. Qed.

Lemma bounded_bind {A B} (m : M A) (k : A -> M B) :
  bounded Q m -> (forall a, bounded Q (k a)) -> bounded Q (bind m k).
Proof.
  intros Hm Hk w. unfold bind. specialize (Hm w).
  destruct (m w) as [[a|e] w1]; cbn [snd] in *; [|exact Hm].
  destruct Hm as (Hf & Hr). destruct (Hk a w1) as (Hf' & Hr').
  split; [congruence|]. intro k0. eapply Q_trans; [apply Hr|apply Hr'].
Qed.

Lemma bounded_try_catch {A} (m : M A) (h : error -> M A) :
  bounded Q m -> (forall e, bounded Q (h e)) -> bounded Q (try_catch m h).
Proof.
  intros Hm Hh w. unfold try_catch. specialize (Hm w).
  destruct (m w) as [[a|e] w1]; cbn [snd] in *; [exact Hm|].
  destruct Hm as (Hf & Hr). destruct (Hh e w1) as (Hf' & Hr').
  split; [congruence|]. intro k0. eapply Q_trans; [apply Hr|apply Hr'].
Qed.

Lemma bounded_finally {A} (m : M A) (f : M unit) :
  bounded Q m -> bounded Q f -> bounded Q (finally m f).
Proof.
  intros Hm Hf w. unfold finally. specialize (Hm w).
  destruct (m w) as [[a|e] w1]; cbn [snd] in *;
    destruct Hm as (Hf1 & Hr1);
    specialize (Hf w1); destruct (f w1) as [[u|e'] w2]; cbn [snd] in *;
    destruct Hf as (Hf2 & Hr2);
    (split; [congruence|]; intro k0; eapply Q_trans; [apply Hr1|apply Hr2]).
Qed.

Lemma bounded_for_of {A} (items : list A) (body : A -> M unit) :
  (forall item, bounded Q (body item)) -> bounded Q (for_of items body).
Proof.
  intro H. induction items as [|item rest IH]; cbn [for_of].
  - now apply bounded_offline.
  - apply bounded_bind; [apply H|intros _; exact IH].
Qed.

Lemma bounded_request (c : call) : bounded Q (request c).
Proof.
  intro w. rewrite ts_request_run.
  destruct (next_fails (cloud w)); cbn [snd this cloud confirms attempted served];
    (split; [reflexivity|]; intro k; destruct k; apply Q_refl).
Qed.

Lemma bounded_client_list (k : kind) : bounded Q (client_list k).
Proof.
  unfold client_list. apply bounded_bind; [apply bounded_request|intros _].
  now apply bounded_offline.
Qed.

Lemma bounded_client_list_phone_numbers (n : value) (limit : option nat) :
  bounded Q (client_list_phone_numbers n limit).
Proof.
  unfold client_list_phone_numbers. apply bounded_bind; [apply bounded_request|intros _].
  now apply bounded_offline.
Qed.

Lemma bounded_client_update (s : string) (props : webhooks) :
  bounded Q (client_update_phone_number s props).
Proof.
  intro w. rewrite ts_client_update_run.
  destruct (find _ _); [destruct (next_fails (cloud w))|];
    cbn [snd this cloud confirms attempted];
    (split; [reflexivity|]; intro k; destruct k; apply Q_refl).
Qed.

Lemma bounded_client_remove (k : kind) (s : string) :
  (forall l p, Q k l (filter p l)) -> bounded Q (client_remove k s).
Proof.
  intros H w. rewrite ts_client_remove_run.
  destruct (existsb _ _); [destruct (next_fails (cloud w))|];
    cbn [snd this cloud confirms attempted];
    (split; [reflexivity|]); intro k'.
  - destruct k'; apply Q_refl.
  - destruct k, k'; first [apply Q_refl | apply H].
  - destruct k'; apply Q_refl.
Qed.

Lemma bounded_client_create (k : kind) (name url : value) :
  (forall l x, Q k l (l ++ [x])) -> bounded Q (client_create k name url).
Proof.
  intros H w. rewrite ts_client_create_run.
  destruct (next_fails (cloud w)); cbv zeta; cbn [snd this cloud confirms attempted];
    (split; [reflexivity|]); intro k'.
  - destruct k'; apply Q_refl.
  - destruct k, k'; first [apply Q_refl | apply H].
Qed.

Lemma bounded_client_create_conversation (service : string) (name : value) :
  bounded Q (client_create_conversation service name).
Proof.
  intro w. unfold client_create_conversation, bind, get_cloud, refused, modify_cloud, throw, ret.
  cbv beta iota. destruct (existsb _ _).
  - rewrite ts_request_run. destruct (next_fails (cloud w)); cbn;
      (split; [reflexivity|]; intro k; destruct k; apply Q_refl).
  - cbn. split; [reflexivity|]. intro k; destruct k; apply Q_refl.
Qed.

Lemma bounded_client_create_participant (service conv identity : string) :
  bounded Q (client_create_participant service conv identity).
Proof.
  intro w. unfold client_create_participant, bind, get_cloud, refused, modify_cloud, throw.
  cbv beta iota. destruct (existsb _ _).
  - rewrite ts_request_run. destruct (next_fails (cloud w)); cbn;
      (split; [reflexivity|]; intro k; destruct k; apply Q_refl).
  - cbn. split; [reflexivity|]. intro k; destruct k; apply Q_refl.
Qed.

Lemma bounded_client_create_sync_map (service uniqueName : string) :
  bounded Q (client_create_sync_map service uniqueName).
Proof.
  intro w. unfold client_create_sync_map, bind, get_cloud, refused, modify_cloud, throw.
  cbv beta iota. destruct (existsb _ _).
  - rewrite ts_request_run. destruct (next_fails (cloud w)); cbn;
      (split; [reflexivity|]; intro k; destruct k; apply Q_refl).
  - cbn. split; [reflexivity|]. intro k; destruct k; apply Q_refl.
Qed.

Lemma bounded_deployServerless (U : utils) (env : deploy_env) :
  (forall l l', Q ServerlessServices l l') -> bounded Q (deployServerless U env).
Proof.
  intros H w. unfold deployServerless, bind, get_cloud, modify_cloud, ret.
  rewrite ts_request_run. destruct (next_fails (cloud w)); cbn.
  - split; [reflexivity|]. intro k; destruct k; apply Q_refl.
  - split; [reflexivity|]. intro k; destruct k; first [apply Q_refl | apply H].
Qed.

End Bounds.

Ltac bounded_step :=
  match goal with
  | |- bounded _ (bind _ _) => apply bounded_bind; [assumption| |intro]
  | |- bounded _ (try_catch _ _) => apply bounded_try_catch; [assumption| |intro]
  | |- bounded _ (finally _ _) => apply bounded_finally; [assumption| |]
  | |- bounded _ (for_of _ _) => apply bounded_for_of; [assumption..|intro]
  | |- bounded _ (client_list _) => apply bounded_client_list; assumption
  | |- bounded _ (client_list_phone_numbers _ _) =>
      apply bounded_client_list_phone_numbers; assumption
  | |- bounded _ (client_update_phone_number _ _) =>
      apply bounded_client_update; assumption
  | |- bounded _ (client_create_conversation _ _) =>
      apply bounded_client_create_conversation; assumption
  | |- bounded _ (client_create_participant _ _ _) =>
      apply bounded_client_create_participant; assumption
  | |- bounded _ (client_create_sync_map _ _) =>
      apply bounded_client_create_sync_map; assumption
  | |- bounded _ (if ?b then _ else _) => destruct b
  | |- bounded _ (match ?x with _ => _ end) => destruct x
  | |- bounded _ _ => apply bounded_offline; [assumption|]; intro; reflexivity
  end.

Section Steps.

Variable Q : kind -> list instance -> list instance -> Prop.
Hypothesis Q_refl : forall k l, Q k l l.
Hypothesis Q_trans : forall k l1 l2 l3, Q k l1 l2 -> Q k l2 l3 -> Q k l1 l3.

Lemma ts_sweep_bounded (k : kind) (prefix line : string) :
  (forall l p, Q k l (filter p l)) -> bounded Q (sweep k prefix line).
Proof.
  intro H. unfold sweep, console_error, console_log.
  apply bounded_try_catch; [assumption| |intro; bounded_step].
  apply bounded_bind; [assumption|bounded_step|intro items].
  apply bounded_bind; [assumption|bounded_step|intro mine].
  destruct (0 <? length mine)%nat; [|bounded_step].
  apply bounded_bind; [assumption|bounded_step|intros _].
  apply bounded_for_of; [assumption..|intro item].
  now apply bounded_client_remove.
Qed.

Lemma ts_validatePropsAndFlags_bounded (U : utils) (flags : flags_t) :
  bounded Q (validatePropsAndFlags U flags).
Proof.
  unfold validatePropsAndFlags, console_error, console_log, throw, modify_this, get_this.
  repeat bounded_step.
Qed.

Lemma ts_updatePhoneWebhooks_bounded (pn : option view) (props : webhooks) :
  bounded Q (updatePhoneWebhooks pn props).
Proof. unfold updatePhoneWebhooks. repeat bounded_step. Qed.

Lemma ts_removeAllPhoneWebhooks_bounded : bounded Q removeAllPhoneWebhooks.
Proof.
  unfold removeAllPhoneWebhooks, removePhoneWebhooks, console_error, console_log.
  repeat bounded_step.
Qed.

End Steps.
Lemma confined_refl (ks : list kind) (k : kind) (l : list instance) : confined ks k l l.
Proof. now intros _. Qed.

Lemma confined_trans (ks : list kind) (k : kind) (l1 l2 l3 : list instance) :
  confined ks k l1 l2 -> confined ks k l2 l3 -> confined ks k l1 l3.
Proof. intros H1 H2 Hn. now rewrite H2, H1. Qed.

Lemma confined_own (ks : list kind) (k : kind) (l l' : list instance) :
  In k ks -> confined ks k l l'.
Proof. intros Hin Hn. now contradiction Hn. Qed.

Lemma shrunk_refl (k : kind) (l : list instance) : shrunk k l l.
Proof.
  exists (fun _ => true). symmetry. apply forallb_filter_id. now apply forallb_forall.
Qed.

Lemma shrunk_trans (k : kind) (l1 l2 l3 : list instance) :
  shrunk k l1 l2 -> shrunk k l2 l3 -> shrunk k l1 l3.
Proof. intros (p & ->) (q & ->). eexists. apply filter_twice. Qed.

Lemma shrunk_filter (k : kind) (l : list instance) (p : instance -> bool) :
  shrunk k l (filter p l).
Proof. now exists p. Qed.

(** The account stays in good order for the kinds a computation leaves
    alone, and for those of which it only removes. *)
Lemma healthy_at_confined {A} (ks : list kind) (m : M A) (k : kind) (w : world) :
  bounded (confined ks) m -> ~ In k ks ->
  healthy_at k (cloud w) ->
  healthy_at k (cloud (snd (m w))) /\
  resources k (cloud (snd (m w))) = resources k (cloud w).
Proof.
  intros Hm Hk (Hf & Hnd & Hlab). destruct (Hm w) as (Ef & Er).
  specialize (Er k Hk). split; [|exact Er].
  split; [intro n; now rewrite Ef|]. rewrite Er. now split.
Qed.

Lemma healthy_at_shrunk {A} (m : M A) (k : kind) (w : world) :
  bounded shrunk m -> healthy_at k (cloud w) -> healthy_at k (cloud (snd (m w))).
Proof.
  intros Hm (Hf & Hnd & Hlab). destruct (Hm w) as (Ef & Er).
  destruct (Er k) as (p & E).
  split; [intro n; now rewrite Ef|]. rewrite E.
  split; [now apply NoDup_map_filter|].
  intros item Hin. apply filter_In in Hin as (Hin & _). now apply Hlab.
Qed.

(** The clearing of the account only removes. *)
Lemma ts_deleteAll_on_clear_shrinks (flags : flags_t) :
  bounded shrunk (deleteAll_on_clear flags).
Proof.
  pose proof shrunk_refl as Hr. pose proof shrunk_trans as Ht.
  pose proof shrunk_filter as Hs.
  unfold deleteAll_on_clear, deleteAll, destroyAllConversations, destroyAllTwimlApps,
    destroyAllApiKeys, destroyAllSyncs, destroyAllFunctions.
  destruct (truthy (flag flags "clear")); [|bounded_step].
  apply bounded_bind; [assumption|bounded_step|intros [|]]; [|bounded_step].
  apply bounded_bind; [assumption|bounded_step|intros _].
  apply bounded_finally; [assumption| |bounded_step].
  apply bounded_bind; [assumption|now apply ts_sweep_bounded|intros _].
  apply bounded_bind; [assumption|now apply ts_sweep_bounded|intros _].
  apply bounded_bind; [assumption| |intros _].
  { apply bounded_bind; [assumption|bounded_step|intro s].
    destruct (twilioCliIsConfiguredWithApiKey s); [bounded_step|].
    now apply ts_sweep_bounded. }
  apply bounded_bind; [assumption|now apply ts_sweep_bounded|intros _].
  apply bounded_bind; [assumption|now apply ts_sweep_bounded|intros _].
  now apply ts_removeAllPhoneWebhooks_bounded.
Qed.

(** Each method that provisions touches the resources of its own kind
    only. *)
Lemma ts_reuseOrCreateApiKey_confined : bounded (confined [Keys]) reuseOrCreateApiKey.
Proof.
  pose proof (confined_refl [Keys]) as Hr. pose proof (confined_trans [Keys]) as Ht.
  assert (Hown : forall l l', confined [Keys] Keys l l')
    by (intros; apply confined_own; now left).
  unfold reuseOrCreateApiKey, destroyApiKeys, console_error, console_log, get_this,
    modify_this.
  apply bounded_bind; [assumption|bounded_step|intro s].
  destruct (twilioCliIsConfiguredWithApiKey s); [repeat bounded_step|].
  apply bounded_bind; [assumption|bounded_step|intros _].
  apply bounded_bind; [assumption| |intros _].
  { apply bounded_bind; [assumption|bounded_step|intro s'].
    destruct (twilioCliIsConfiguredWithApiKey s'); [bounded_step|].
    apply ts_sweep_bounded; auto. }
  apply bounded_try_catch; [assumption| |intro; repeat bounded_step].
  apply bounded_bind; [assumption|apply bounded_client_create; auto|intro key].
  repeat bounded_step.
Qed.

Lemma ts_createConversation_confined :
  bounded (confined [ConversationServices]) createConversation.
Proof.
  pose proof (confined_refl [ConversationServices]) as Hr.
  pose proof (confined_trans [ConversationServices]) as Ht.
  assert (Hown : forall l l', confined [ConversationServices] ConversationServices l l')
    by (intros; apply confined_own; now left).
  unfold createConversation, destroyConversations, console_error, console_log, get_this.
  apply bounded_bind; [assumption| |intros _].
  { apply bounded_bind; [assumption|bounded_step|intro s].
    apply ts_sweep_bounded; auto. }
  apply bounded_bind; [assumption|bounded_step|intros _].
  apply bounded_try_catch; [assumption| |intro; repeat bounded_step].
  apply bounded_bind; [assumption|bounded_step|intro s].
  apply bounded_bind; [assumption|apply bounded_client_create; auto|intro service].
  repeat bounded_step.
Qed.

Lemma ts_createSync_confined : bounded (confined [SyncServices]) createSync.
Proof.
  pose proof (confined_refl [SyncServices]) as Hr.
  pose proof (confined_trans [SyncServices]) as Ht.
  assert (Hown : forall l l', confined [SyncServices] SyncServices l l')
    by (intros; apply confined_own; now left).
  unfold createSync, destroySyncs, console_error, console_log, get_this.
  apply bounded_bind; [assumption|bounded_step|intros _].
  apply bounded_bind; [assumption| |intros _].
  { apply bounded_bind; [assumption|bounded_step|intro s].
    apply ts_sweep_bounded; auto. }
  apply bounded_try_catch; [assumption| |intro; repeat bounded_step].
  apply bounded_bind; [assumption|bounded_step|intro s].
  apply bounded_bind; [assumption|apply bounded_client_create; auto|intro service].
  repeat bounded_step.
Qed.

Lemma ts_createTwimlApp_confined : bounded (confined [Applications]) createTwimlApp.
Proof.
  pose proof (confined_refl [Applications]) as Hr.
  pose proof (confined_trans [Applications]) as Ht.
  assert (Hown : forall l l', confined [Applications] Applications l l')
    by (intros; apply confined_own; now left).
  unfold createTwimlApp, destroyTwimlApps, console_error, console_log, get_this.
  apply bounded_bind; [assumption|bounded_step|intros _].
  apply bounded_bind; [assumption| |intros _].
  { apply bounded_bind; [assumption|bounded_step|intro s].
    apply ts_sweep_bounded; auto. }
  apply bounded_try_catch; [assumption| |intro; repeat bounded_step].
  apply bounded_bind; [assumption|bounded_step|intro s].
  apply bounded_bind; [assumption|apply bounded_client_create; auto|intro app].
  repeat bounded_step.
Qed.

Lemma ts_createFunction_confined (U : utils) :
  bounded (confined [ServerlessServices]) (createFunction U).
Proof.
  pose proof (confined_refl [ServerlessServices]) as Hr.
  pose proof (confined_trans [ServerlessServices]) as Ht.
  assert (Hown : forall l l', confined [ServerlessServices] ServerlessServices l l')
    by (intros; apply confined_own; now left).
  unfold createFunction, read, console_log, get_this, modify_this, throw.
  apply bounded_bind; [assumption|bounded_step|intros _].
  apply bounded_bind; [assumption|bounded_step|intro s].
  apply bounded_bind; [assumption|repeat bounded_step|intro a].
  apply bounded_bind; [assumption|repeat bounded_step|intro b].
  apply bounded_bind; [assumption|repeat bounded_step|intro c].
  apply bounded_bind; [assumption|apply bounded_deployServerless; auto|intro d].
  repeat bounded_step.
Qed.
(** ** Provisioning again *)

Lemma startsWith_refl (s : string) : startsWith s s = true.
Proof.
  unfold startsWith. induction s as [|a s IH]; [reflexivity|].
  cbn. destruct (ascii_dec a a); [exact IH|congruence].
Qed.

Lemma filter_labelled_none (prefix : string) (l : list instance) :
  filter (labelled_with prefix) (filter (fun i => negb (labelled_with prefix i)) l) = [].
Proof.
  rewrite filter_twice. induction l as [|x l IH]; [reflexivity|].
  cbn. destruct (labelled_with prefix x); cbn; exact IH.
Qed.

Lemma existsb_has_sid_last (l : list instance) (item : instance) :
  existsb (has_sid (sid item)) (l ++ [item]) = true.
Proof.
  rewrite existsb_app. cbn. unfold has_sid. rewrite String.eqb_refl.
  now rewrite orb_true_r.
Qed.

(** A creation on an account that serves it. *)
Lemma ts_client_create_served (k : kind) (name url : value) (w : world) :
  (forall n, faults (cloud w) n = false) ->
  exists item w',
    client_create k name url w = (Ok item, w') /\
    this w' = this w /\
    friendlyName item = name /\
    resources k (cloud w') = resources k (cloud w) ++ [item] /\
    faults (cloud w') = faults (cloud w) /\
    calls (cloud w') = calls (cloud w) ++ [CallCreate k name url].
Proof.
  intro Hf. rewrite ts_client_create_run. unfold next_fails. rewrite Hf. cbv zeta.
  eexists. eexists. split; [reflexivity|]. cbn.
  split; [reflexivity|]. split; [reflexivity|]. split; [now destruct k|].
  split; reflexivity.
Qed.

(** The creations inside a service the account holds and serves. *)
Lemma ts_client_create_conversation_served (service : string) (name : value) (w : world) :
  (forall n, faults (cloud w) n = false) ->
  existsb (has_sid service) (conversationServices (cloud w)) = true ->
  exists c w',
    client_create_conversation service name w = (Ok c, w') /\
    this w' = this w /\
    (forall k, resources k (cloud w') = resources k (cloud w)) /\
    faults (cloud w') = faults (cloud w) /\
    calls (cloud w') = calls (cloud w) ++ [CallCreateConversation service name].
Proof.
  intros Hf Hin. unfold client_create_conversation, bind, get_cloud. cbv beta iota.
  rewrite Hin, ts_request_run. unfold next_fails. rewrite Hf. cbv beta iota.
  unfold modify_cloud, ret. cbn.
  eexists. eexists. split; [reflexivity|]. cbn.
  split; [reflexivity|]. split; [intro k; now destruct k|]. split; reflexivity.
Qed.

Lemma ts_client_create_participant_served (service conv identity : string) (w : world) :
  (forall n, faults (cloud w) n = false) ->
  existsb (has_sid service) (conversationServices (cloud w)) = true ->
  exists w',
    client_create_participant service conv identity w = (Ok tt, w') /\
    this w' = this w /\
    (forall k, resources k (cloud w') = resources k (cloud w)) /\
    faults (cloud w') = faults (cloud w) /\
    calls (cloud w') = calls (cloud w) ++ [CallCreateParticipant service conv identity].
Proof.
  intros Hf Hin. unfold client_create_participant, bind, get_cloud. cbv beta iota.
  rewrite Hin, ts_request_run. unfold next_fails. rewrite Hf. cbv beta iota.
  unfold modify_cloud. cbn.
  eexists. split; [reflexivity|]. cbn.
  split; [reflexivity|]. split; [intro k; now destruct k|]. split; reflexivity.
Qed.

Lemma ts_client_create_sync_map_served (service uniqueName : string) (w : world) :
  (forall n, faults (cloud w) n = false) ->
  existsb (has_sid service) (syncServices (cloud w)) = true ->
  exists w',
    client_create_sync_map service uniqueName w = (Ok tt, w') /\
    this w' = this w /\
    (forall k, resources k (cloud w') = resources k (cloud w)) /\
    faults (cloud w') = faults (cloud w) /\
    calls (cloud w') = calls (cloud w) ++ [CallCreateSyncMap service uniqueName].
Proof.
  intros Hf Hin. unfold client_create_sync_map, bind, get_cloud. cbv beta iota.
  rewrite Hin, ts_request_run. unfold next_fails. rewrite Hf. cbv beta iota.
  unfold modify_cloud. cbn.
  eexists. split; [reflexivity|]. cbn.
  split; [reflexivity|]. split; [intro k; now destruct k|]. split; reflexivity.
Qed.

(** A sweep method on an account in good order for its kind. *)
Lemma ts_sweep_method_served_at (k : kind) (line : string -> string) (w : world) :
  healthy_at k (cloud w) ->
  exists w',
    (s <- get_this ;; sweep k (devPhoneName s) (line (devPhoneName s))) w = (Ok tt, w') /\
    this w' = this w /\
    swept k (devPhoneName (this w)) (cloud w) (cloud w') /\
    forall n, faults (cloud w') n = false.
Proof.
  intro H. unfold bind, get_this. cbv beta iota.
  destruct (ts_sweep_served_at k (devPhoneName (this w)) (line (devPhoneName (this w))) w H)
    as (E & T & _ & S).
  destruct (sweep _ _ _ w) as [[[]|e] w']; [|discriminate E].
  exists w'. split; [reflexivity|]. split; [exact T|]. split; [exact S|].
  intro n. destruct S as (_ & _ & _ & Ef & _). cbn [snd] in Ef. rewrite Ef.
  apply (proj1 H).
Qed.

(** [createConversation] on an account in good order: the sweep of the
    conversation services on the session name, then the creations; the
    new service is then the only one under that name. *)
Lemma ts_createConversation_served (w : world) :
  healthy_at ConversationServices (cloud w) ->
  let name := devPhoneName (this w) in
  match createConversation w with
  | (Ok (Some ref), w') =>
      this w' = this w /\
      map sid (session_resources name ConversationServices (cloud w')) =
        [ serviceSid ref ] /\
      new_calls (cloud w) (cloud w') =
        sweep_calls ConversationServices name (cloud w) ++
        [ CallCreate ConversationServices (VStr name) VUndefined;
          CallCreateConversation (serviceSid ref) (VStr name);
          CallCreateParticipant (serviceSid ref) (conv_sid ref) name ]
  | _ => False
  end.
Proof.
  intro H. cbv zeta.
  unfold createConversation. unfold bind at 1.
  destruct (ts_sweep_method_served_at ConversationServices
              (fun n => "Removing Conversation Service for " ++ n)%string w H)
    as (w1 & E1 & T1 & S1 & Hf1).
  change (destroyConversations w = (Ok tt, w1)) in E1. rewrite E1.
  unfold bind at 1. unfold console_log at 1. cbv beta iota.
  unfold try_catch, bind at 1. unfold get_this at 1. cbv beta iota.
  cbn [this cloud console confirms].
  unfold bind at 1.
  match goal with |- context [client_create ?k ?n ?u ?W] =>
    destruct (ts_client_create_served k n u W Hf1)
      as (item & w2 & E2 & T2 & F2 & R2 & Hf2 & C2) end.
  rewrite E2. cbv beta iota.
  cbn [this cloud console confirms] in T2, R2, Hf2, C2.
  assert (Hin : existsb (has_sid (sid item)) (conversationServices (cloud w2)) = true).
  { change (conversationServices (cloud w2))
      with (resources ConversationServices (cloud w2)).
    rewrite R2. apply existsb_has_sid_last. }
  assert (Hf2' : forall n, faults (cloud w2) n = false)
    by (intro n; rewrite Hf2; apply Hf1).
  unfold bind at 1.
  destruct (ts_client_create_conversation_served (sid item)
              (VStr (devPhoneName (this w1))) w2 Hf2' Hin)
    as (c & w3 & E3 & T3 & R3 & Hf3 & C3).
  rewrite E3. cbv beta iota.
  assert (Hin3 : existsb (has_sid (sid item)) (conversationServices (cloud w3)) = true).
  { change (conversationServices (cloud w3))
      with (resources ConversationServices (cloud w3)).
    rewrite R3. exact Hin. }
  assert (Hf3' : forall n, faults (cloud w3) n = false)
    by (intro n; rewrite Hf3; apply Hf2').
  unfold bind at 1.
  destruct (ts_client_create_participant_served (sid item) c
              (devPhoneName (this w1)) w3 Hf3' Hin3)
    as (w4 & E4 & T4 & R4 & Hf4 & C4).
  rewrite E4. cbv beta iota.
  unfold bind, console_log, ret. cbv beta iota.
  cbn [this cloud console confirms serviceSid conv_sid].
  split; [congruence|]. split.
  - unfold session_resources.
    rewrite R4, R3, R2, (proj1 S1), filter_app, filter_labelled_none.
    cbn [app filter].
    unfold labelled_with. rewrite F2, T1, startsWith_refl. reflexivity.
  - apply ts_new_calls_app. rewrite C4, C3, C2.
    destruct S1 as (_ & _ & _ & _ & C1). rewrite C1, T1, <- !app_assoc.
    reflexivity.
Qed.

(** [createSync], likewise. *)
Lemma ts_createSync_served (w : world) :
  healthy_at SyncServices (cloud w) ->
  let name := devPhoneName (this w) in
  match createSync w with
  | (Ok (Some sy), w') =>
      this w' = this w /\
      session_resources name SyncServices (cloud w') = [ sy ] /\
      new_calls (cloud w) (cloud w') =
        sweep_calls SyncServices name (cloud w) ++
        [ CallCreate SyncServices (VStr name) VUndefined;
          CallCreateSyncMap (sid sy) CALL_LOG_MAP_NAME ]
  | _ => False
  end.
Proof.
  intro H. cbv zeta.
  unfold createSync. unfold bind at 1. unfold console_log at 1. cbv beta iota.
  unfold bind at 1.
  match goal with |- context [destroySyncs ?W] =>
    destruct (ts_sweep_method_served_at SyncServices
                (fun n => "Removing Sync Service for " ++ n)%string W H)
      as (w1 & E1 & T1 & S1 & Hf1);
    change (destroySyncs W = (Ok tt, w1)) in E1 end.
  rewrite E1. cbv beta iota.
  cbn [this cloud console confirms] in T1, S1.
  unfold try_catch, bind at 1. unfold get_this at 1. cbv beta iota.
  unfold bind at 1.
  match goal with |- context [client_create ?k ?n ?u ?W] =>
    destruct (ts_client_create_served k n u W Hf1)
      as (item & w2 & E2 & T2 & F2 & R2 & Hf2 & C2) end.
  rewrite E2. cbv beta iota.
  unfold bind at 1. unfold console_log at 1. cbv beta iota.
  assert (Hin : existsb (has_sid (sid item)) (syncServices (cloud w2)) = true).
  { change (syncServices (cloud w2)) with (resources SyncServices (cloud w2)).
    rewrite R2. apply existsb_has_sid_last. }
  assert (Hf2' : forall n, faults (cloud w2) n = false)
    by (intro n; rewrite Hf2; apply Hf1).
  unfold bind at 1.
  match goal with |- context [client_create_sync_map ?a ?b ?W] =>
    destruct (ts_client_create_sync_map_served a b W Hf2' Hin)
      as (w3 & E3 & T3 & R3 & Hf3 & C3) end.
  rewrite E3. cbv beta iota. unfold ret.
  cbn [this cloud console confirms] in R3, C3, T3.
  split; [congruence|]. split.
  - unfold session_resources.
    rewrite R3, R2, (proj1 S1), filter_app, filter_labelled_none. cbn [app filter].
    unfold labelled_with. rewrite F2, T1. cbn [this devPhoneName].
    rewrite startsWith_refl. reflexivity.
  - apply ts_new_calls_app. rewrite C3, C2.
    destruct S1 as (_ & _ & _ & _ & C1). rewrite C1, T1, <- !app_assoc.
    reflexivity.
Qed.

(** [createTwimlApp], likewise. *)
Lemma ts_createTwimlApp_served (w : world) :
  healthy_at Applications (cloud w) ->
  let name := devPhoneName (this w) in
  match createTwimlApp w with
  | (Ok (Some app), w') =>
      this w' = this w /\
      session_resources name Applications (cloud w') = [ app ] /\
      new_calls (cloud w) (cloud w') =
        sweep_calls Applications name (cloud w) ++
        [ CallCreate Applications (VStr name) (this_voiceOutboundUrl (this w)) ]
  | _ => False
  end.
Proof.
  intro H. cbv zeta.
  unfold createTwimlApp. unfold bind at 1. unfold console_log at 1. cbv beta iota.
  unfold bind at 1.
  match goal with |- context [destroyTwimlApps ?W] =>
    destruct (ts_sweep_method_served_at Applications
                (fun n => "Removing TwiML app for " ++ n)%string W H)
      as (w1 & E1 & T1 & S1 & Hf1);
    change (destroyTwimlApps W = (Ok tt, w1)) in E1 end.
  rewrite E1. cbv beta iota.
  cbn [this cloud console confirms] in T1, S1.
  unfold try_catch, bind at 1. unfold get_this at 1. cbv beta iota.
  unfold bind at 1.
  match goal with |- context [client_create ?k ?n ?u ?W] =>
    destruct (ts_client_create_served k n u W Hf1)
      as (item & w2 & E2 & T2 & F2 & R2 & Hf2 & C2) end.
  rewrite E2. cbv beta iota.
  unfold bind at 1. unfold console_log at 1. cbv beta iota. unfold ret.
  cbn [this cloud console confirms].
  split; [congruence|]. split.
  - unfold session_resources.
    rewrite R2, (proj1 S1), filter_app, filter_labelled_none. cbn [app filter].
    unfold labelled_with. rewrite F2, T1. cbn [this devPhoneName].
    rewrite startsWith_refl. reflexivity.
  - apply ts_new_calls_app. rewrite C2.
    destruct S1 as (_ & _ & _ & _ & C1). rewrite C1, T1, <- !app_assoc.
    reflexivity.
Qed.

(** [createFunction] sends the deployment and nothing else. *)
Lemma ts_createFunction_calls (U : utils) (w : world) :
  new_calls (cloud w) (cloud (snd (createFunction U w))) = [] \/
  exists env, new_calls (cloud w) (cloud (snd (createFunction U w))) = [ CallDeploy env ].
Proof.
  unfold createFunction, bind, console_log, get_this, read, ret, throw.
  cbn [fst snd this cloud console confirms].
  destruct (sync (this w)) as [sy|];
    [|left; cbn; unfold new_calls; apply skipn_all].
  destruct (conversation (this w)) as [ref|];
    [|left; cbn; unfold new_calls; apply skipn_all].
  match goal with |- context [deployServerless U ?env ?W] =>
    destruct (ts_deployServerless_atomic U env W) as (_ & _ & C);
    destruct (deployServerless U env W) as [[d|e] w1] end;
    cbn [fst snd is_ok this cloud console confirms] in *.
  - right. eexists. apply ts_new_calls_app. exact C.
  - left. apply ts_new_calls_app. exact C.
Qed.
Lemma bounded_confined_resources {A} (ks : list kind) (m : M A) (k : kind) (w : world) :
  bounded (confined ks) m -> ~ In k ks ->
  resources k (cloud (snd (m w))) = resources k (cloud w).
Proof. intros Hm Hk. now apply (proj2 (Hm w) k). Qed.

Ltac not_in_kinds := cbn; intuition discriminate.

(** A run on an account in good order, when it returns: the conversation
    service, the sync service and the TwiML app the command then holds
    are the only ones under the session name. *)
Lemma ts_run_replaces (U : utils) (flags : flags_t) (w : world) :
  healthy (cloud w) ->
  is_ok (fst (run U flags w)) = true ->
  let w' := snd (run U flags w) in
  let name := devPhoneName (this w) in
  exists ref sy app,
    conversation (this w') = Some ref /\
    sync (this w') = Some sy /\
    twimlApp (this w') = Has app /\
    map sid (session_resources name ConversationServices (cloud w')) = [ serviceSid ref ] /\
    session_resources name SyncServices (cloud w') = [ sy ] /\
    session_resources name Applications (cloud w') = [ app ].
Proof.
  intros H.
  pose proof (healthy_healthy_at ConversationServices _ H) as Hc.
  pose proof (healthy_healthy_at SyncServices _ H) as Hs.
  pose proof (healthy_healthy_at Applications _ H) as Ha.
  clear H. cbv zeta.
  unfold run, super_run.
  cbv beta iota delta [bind get_this console_log modify_this].
  pose proof (ts_validatePropsAndFlags_bounded (confined []) (confined_refl [])
                (confined_trans []) U flags) as B1.
  pose proof ts_reuseOrCreateApiKey_confined as B2.
  pose proof (ts_deleteAll_on_clear_shrinks flags) as B3.
  pose proof ts_createConversation_confined as B4.
  pose proof ts_createSync_confined as B5.
  pose proof (ts_createFunction_confined U) as B6.
  pose proof ts_createTwimlApp_confined as B7.
  (* the validation *)
  match goal with |- context [validatePropsAndFlags U flags ?W] =>
    destruct (ts_validatePropsAndFlags_framed U flags W) as (S1 & _);
    pose proof (proj1 (healthy_at_confined _ _ _ W B1 (fun x => x) Hc)) as Hc1;
    pose proof (proj1 (healthy_at_confined _ _ _ W B1 (fun x => x) Hs)) as Hs1;
    pose proof (proj1 (healthy_at_confined _ _ _ W B1 (fun x => x) Ha)) as Ha1;
    destruct (validatePropsAndFlags U flags W) as [[[]|e] w1] end;
    cbn [fst snd is_ok this cloud console confirms] in *; [|discriminate].
  destruct S1 as (N1 & _). cbn in N1. clear Hc Hs Ha B1.
  (* the API key *)
  match goal with |- context [reuseOrCreateApiKey ?W] =>
    pose proof (ts_reuseOrCreateApiKey_spec W) as S2;
    pose proof (proj1 (healthy_at_confined _ _ ConversationServices W B2 ltac:(not_in_kinds) Hc1)) as Hc2;
    pose proof (proj1 (healthy_at_confined _ _ SyncServices W B2 ltac:(not_in_kinds) Hs1)) as Hs2;
    pose proof (proj1 (healthy_at_confined _ _ Applications W B2 ltac:(not_in_kinds) Ha1)) as Ha2;
    destruct (reuseOrCreateApiKey W) as [[k|e] w2] end;
    cbn [fst snd is_ok this cloud console confirms] in *; [|contradiction].
  destruct S2 as ((p & T2) & _). clear Hc1 Hs1 Ha1 B2.
  (* the clearing of the account *)
  match goal with |- context [deleteAll_on_clear flags ?W] =>
    destruct (ts_deleteAll_on_clear_framed flags W) as (T3 & _);
    pose proof (ts_deleteAll_on_clear_total flags W) as O3;
    pose proof (healthy_at_shrunk _ _ W B3 Hc2) as Hc3;
    pose proof (healthy_at_shrunk _ _ W B3 Hs2) as Hs3;
    pose proof (healthy_at_shrunk _ _ W B3 Ha2) as Ha3;
    destruct (deleteAll_on_clear flags W) as [[[]|e] w3] end;
    cbn [fst snd is_ok this cloud console confirms] in *; [|discriminate O3].
  clear O3 Hc2 Hs2 Ha2 B3. symmetry in T3.
  (* the conversation *)
  match goal with |- context [createConversation ?W] =>
    pose proof (ts_createConversation_served W Hc3) as S4;
    pose proof (proj1 (healthy_at_confined _ _ SyncServices W B4 ltac:(not_in_kinds) Hs3)) as Hs4;
    pose proof (proj1 (healthy_at_confined _ _ Applications W B4 ltac:(not_in_kinds) Ha3)) as Ha4;
    destruct (createConversation W) as [[[ref|]|e] w4] end;
    cbn [fst snd is_ok this cloud console confirms] in *; try contradiction.
  destruct S4 as (T4 & F4 & _). clear Hc3 Hs3 Ha3 B4.
  (* the sync service *)
  match goal with |- context [createSync ?W] =>
    pose proof (ts_createSync_served W Hs4) as S5;
    pose proof (proj1 (healthy_at_confined _ _ Applications W B5 ltac:(not_in_kinds) Ha4)) as Ha5;
    pose proof (bounded_confined_resources _ _ ConversationServices W B5
                  ltac:(not_in_kinds)) as R5c;
    destruct (createSync W) as [[[sy|]|e] w5] end;
    cbn [fst snd is_ok this cloud console confirms] in *; try contradiction.
  destruct S5 as (T5 & F5 & _). clear Hs4 Ha4 B5.
  (* the backend *)
  match goal with |- context [createFunction U ?W] =>
    pose proof (ts_createFunction_spec U W) as S6;
    pose proof (proj1 (healthy_at_confined _ _ Applications W B6 ltac:(not_in_kinds) Ha5)) as Ha6;
    pose proof (bounded_confined_resources _ _ ConversationServices W B6
                  ltac:(not_in_kinds)) as R6c;
    pose proof (bounded_confined_resources _ _ SyncServices W B6
                  ltac:(not_in_kinds)) as R6s;
    destruct (createFunction U W) as [[d|e] w6] end;
    cbn [fst snd is_ok this cloud console confirms] in *; [|discriminate].
  destruct S6 as (_ & _ & _ & _ & T6 & _). clear Ha5 B6.
  (* the TwiML app *)
  match goal with |- context [createTwimlApp ?W] =>
    pose proof (ts_createTwimlApp_served W Ha6) as S7;
    pose proof (bounded_confined_resources _ _ ConversationServices W B7
                  ltac:(not_in_kinds)) as R7c;
    pose proof (bounded_confined_resources _ _ SyncServices W B7
                  ltac:(not_in_kinds)) as R7s;
    destruct (createTwimlApp W) as [[[app|]|e] w7] end;
    cbn [fst snd is_ok this cloud console confirms] in *; try contradiction.
  destruct S7 as (T7 & F7 & _). clear Ha6 B7.
  (* the token *)
  match goal with |- context [createJwt ?W] =>
    pose proof (ts_createJwt_pure W) as E8;
    destruct (createJwt W) as [[t|e] w8] end;
    cbn [fst snd is_ok this cloud console confirms] in *; [|discriminate].
  subst w8. cbn [fst snd is_ok this cloud console confirms] in *.
  (* the binding *)
  match goal with |- context [updatePhoneWebhooks ?pn ?props ?W] =>
    pose proof (ts_updatePhoneWebhooks_spec pn props W) as S9;
    pose proof (ts_updatePhoneWebhooks_bounded (confined []) (confined_refl [])
                  (confined_trans []) pn props W) as B9;
    destruct (updatePhoneWebhooks pn props W) as [[r|e] w9] end;
    cbn [fst snd is_ok this cloud console confirms] in *; [|discriminate].
  intros _. destruct S9 as (T9 & _). destruct B9 as (_ & R9).
  pose proof (R9 ConversationServices (fun x => x)) as R9c.
  pose proof (R9 SyncServices (fun x => x)) as R9s.
  pose proof (R9 Applications (fun x => x)) as R9a.
  exists ref, sy, app.
  assert (Hname : devPhoneName (this w3) = devPhoneName (this w))
    by (rewrite T3; cbn; rewrite T2; cbn; exact N1).
  assert (E5 : devPhoneName (set_conversation (Some ref) (this w4)) =
               devPhoneName (this w))
    by (cbn; rewrite T4; exact Hname).
  assert (E7 : devPhoneName (set_serverless (Some d) (this w6)) = devPhoneName (this w))
    by (cbn; rewrite T6; cbn; rewrite T5; exact E5).
  rewrite Hname in F4. rewrite E5 in F5. rewrite E7 in F7.
  rewrite T9, T7, T6, T5, T4.
  split; [reflexivity|]. split; [reflexivity|]. split; [reflexivity|].
  unfold session_resources in *. cbn [cloud].
  rewrite R9c, R9s, R9a, R7c, R7s, R6c, R6s, R5c.
  split; [exact F4|]. split; [exact F5|exact F7].
Qed.
(** C4, as amended: provisioning again under the same session name on an
    account in good order replaces, rather than duplicates, the
    conversation service, the sync service and the TwiML app.  Each of
    their create methods first lists the resources of its kind, removes
    every one whose label starts with the session name, and then creates
    the new one, which is thereafter the only resource of its kind under
    that name; and after a run that returns, whatever the account held
    under the session name before, the conversation service, the sync
    service and the TwiML app that the command holds are the only ones of
    their kinds under that name.  The webhook backend is the exception
    among the kinds other than the credential: [createFunction] sends the
    deployment and nothing else, so no backend of an earlier run is
    removed before the new deployment. *)
Theorem C4_rerun_replaces (U : utils) (flags : flags_t) (w : world) :
  healthy (cloud w) ->
  let name := devPhoneName (this w) in
  (match createConversation w with
   | (Ok (Some ref), w') =>
       this w' = this w /\
       map sid (session_resources name ConversationServices (cloud w')) =
         [ serviceSid ref ] /\
       new_calls (cloud w) (cloud w') =
         sweep_calls ConversationServices name (cloud w) ++
         [ CallCreate ConversationServices (VStr name) VUndefined;
           CallCreateConversation (serviceSid ref) (VStr name);
           CallCreateParticipant (serviceSid ref) (conv_sid ref) name ]
   | _ => False
   end /\
   match createSync w with
   | (Ok (Some sy), w') =>
       this w' = this w /\
       session_resources name SyncServices (cloud w') = [ sy ] /\
       new_calls (cloud w) (cloud w') =
         sweep_calls SyncServices name (cloud w) ++
         [ CallCreate SyncServices (VStr name) VUndefined;
           CallCreateSyncMap (sid sy) CALL_LOG_MAP_NAME ]
   | _ => False
   end /\
   match createTwimlApp w with
   | (Ok (Some app), w') =>
       this w' = this w /\
       session_resources name Applications (cloud w') = [ app ] /\
       new_calls (cloud w) (cloud w') =
         sweep_calls Applications name (cloud w) ++
         [ CallCreate Applications (VStr name) (this_voiceOutboundUrl (this w)) ]
   | _ => False
   end) /\
  (is_ok (fst (run U flags w)) = true ->
   let w' := snd (run U flags w) in
   exists ref sy app,
     conversation (this w') = Some ref /\
     sync (this w') = Some sy /\
     twimlApp (this w') = Has app /\
     map sid (session_resources name ConversationServices (cloud w')) =
       [ serviceSid ref ] /\
     session_resources name SyncServices (cloud w') = [ sy ] /\
     session_resources name Applications (cloud w') = [ app ]) /\
  (new_calls (cloud w) (cloud (snd (createFunction U w))) = [] \/
   exists env,
     new_calls (cloud w) (cloud (snd (createFunction U w))) = [ CallDeploy env ]).
Proof.
  intro H. cbv zeta. split; [|split].
  - split; [|split].
    + exact (ts_createConversation_served w (healthy_healthy_at _ _ H)).
    + exact (ts_createSync_served w (healthy_healthy_at _ _ H)).
    + exact (ts_createTwimlApp_served w (healthy_healthy_at _ _ H)).
  - exact (ts_run_replaces U flags w H).
  - apply ts_createFunction_calls.
Qed.

Lemma second_run_returns : is_ok (fst (run utils0 [] provisioned0)) = true.
Proof. vm_compute. reflexivity. Qed.

(** The second run on the account the first run has provisioned. *)
Lemma C4_rerun_replaces_witness :
  let w' := snd (run utils0 [] provisioned0) in
  exists ref sy app,
    conversation (this w') = Some ref /\
    sync (this w') = Some sy /\
    twimlApp (this w') = Has app /\
    map sid (session_resources (devPhoneName (this provisioned0)) ConversationServices
               (cloud w')) =
      [ serviceSid ref ] /\
    session_resources (devPhoneName (this provisioned0)) SyncServices (cloud w') = [ sy ] /\
    session_resources (devPhoneName (this provisioned0)) Applications (cloud w') = [ app ].
Proof.
  exact (proj1 (proj2 (C4_rerun_replaces utils0 [] provisioned0 healthy_provisioned0))
           second_run_returns).
Defined.

(** Two runs in a row on the example account: the second removes the
    first one's API key, conversation service, sync service and TwiML app
    before it creates its own, and deploys the backend without removing
    anything; here the deployment finds the service of the first run and
    keeps it. *)
Example second_run_replaces :
  let w1 := snd (run utils0 [] world0) in
  let w2 := snd (run utils0 [] w1) in
  fst (run utils0 [] world0) = Ok tt /\
  fst (run utils0 [] w1) = Ok tt /\
  map (fun k => map sid (resources k (cloud w1)))
      [ ConversationServices; SyncServices; Keys; Applications; ServerlessServices ] =
    [ ["IS1"]; ["IS4"]; ["SK0"]; ["AP7"]; ["ZS6"] ] /\
  map (fun k => map sid (resources k (cloud w2)))
      [ ConversationServices; SyncServices; Keys; Applications; ServerlessServices ] =
    [ ["IS9"]; ["IS12"]; ["SK8"]; ["AP15"]; ["ZS6"] ] /\
  removals (new_calls (cloud w1) (cloud w2)) =
    [ (Keys, "SK0"); (ConversationServices, "IS1"); (SyncServices, "IS4");
      (Applications, "AP7") ].
Proof. vm_compute. repeat split. Qed.

(** C4 as specified fails at the webhook backend: the second run sends no
    removal of the backend the first run deployed. *)
Lemma C4_backend_not_replaced : ~ replaces_on_rerun utils0 [] world0.
Proof.
  unfold replaces_on_rerun. cbv zeta. intro H.
  set (w1 := snd (run utils0 [] world0)) in H.
  let r := eval vm_compute in
             (session_resources (devPhoneName (this world0)) ServerlessServices (cloud w1)) in
  assert (E1 : session_resources (devPhoneName (this world0)) ServerlessServices (cloud w1)
               = r) by (vm_compute; reflexivity).
  let r := eval vm_compute in (new_calls (cloud w1) (cloud (snd (run utils0 [] w1)))) in
  assert (E2 : new_calls (cloud w1) (cloud (snd (run utils0 [] w1))) = r)
    by (vm_compute; reflexivity).
  match type of E1 with
  | _ = ?item :: _ =>
      specialize (H ServerlessServices item ltac:(discriminate))
  end.
  rewrite E1, E2 in H. specialize (H (or_introl eq_refl)).
  cbn in H. repeat (destruct H as [H|H]; [discriminate H|]). exact H.
Qed.

End TsFacts.
